(** * Harassment-content pipeline: Normalizer, Enricher, Publisher

    A shallow embedding of the three processing stages of the pipeline

      - [TextPreprocessor]      (src/main/processeing/preprocessing.py)
      - [NLPProcessor]          (src/nlp_pipeline.py)
      - [ElasticsearchIndexer]  (src/migration/es_ingest.py)

    together with the document-store operation they share,
    [update_one(filter, {"$set": doc}, upsert=True)], and of the code
    around them:

      - [Orchestration]         (src/main/main.py), the entry points
      - [Elasticsearch]         (src/migration/es_ingest.py), the index set-up
      - [Scraper]               (src/main/scrapers/scraper.py), the launcher
      - [Reddit]                (src/scrapers/reddit_scraper.py)
      - [Telegram]              (src/main/scrapers/telegram_scraper.py)

    Modelling conventions.
      - A MongoDB document is a finite map from field names to values;
        a collection is the list of its documents in natural order.
      - Text is a [string] whose characters are read as the code points
        0..255; the character classes of [str.lower], [str.split] and of the
        regular expressions are the ones Python uses on that range.
      - A Python [float] that is finite is the rational number it denotes;
        comparisons of floats are comparisons of those rationals.
      - The external collaborators (stop-word list, lemmatizer, language
        detector, sentiment model, wall clock, store and bulk-load faults)
        are the fields of an environment record [env].  What may change
        from one call to the next (the clock, the randomised detector, the
        faults of the store and of the bulk loader) takes the number of
        the call.
      - Stateful code runs in the monad [M]: a world is threaded through,
        and a raised exception ends the computation unless a [try_except]
        handles it.  Progress messages at INFO level carry no state and are
        left out of the log; warnings, errors and the per-stage summaries
        are kept. *)

From Stdlib Require Import QArith ZArith Ascii String List Lia.
From stdpp Require Import base gmap strings list pretty.

Local Open Scope string_scope.
Local Open Scope nat_scope.

(** ** Values, documents, exceptions *)

#[global] Instance Q_eq_dec : EqDecision Q.
Proof. solve_decision. Defined.

(** The BSON values that occur in the pipeline's documents. *)
Inductive value : Type :=
| VNone                      (* Python None / BSON null *)
| VStr (s : string)
| VFloat (q : Q)             (* int and float numbers *)
| VDate (t : Z)              (* datetime, as a clock reading *)
| VOid (n : nat).            (* ObjectId *)

#[global] Instance value_eq_dec : EqDecision value.
Proof. solve_decision. Defined.

Abbreviation document := (gmap string value).
Abbreviation collection := (list (gmap string value)).

(** [doc.get(k, default)]: the default is used only when the key is absent. *)
Definition get_default (doc : document) (k : string) (dflt : value) : value :=
  default dflt (doc !! k).

(** [doc.get(k)] *)
Definition get (doc : document) (k : string) : value := get_default doc k VNone.

Inductive exn : Type :=
| KeyError (k : string)
| TypeError
| LangDetectException
| PyMongoError (msg : string)
| OtherException (msg : string).

#[global] Instance exn_eq_dec : EqDecision exn.
Proof. solve_decision. Defined.

Inductive outcome (A : Type) : Type :=
| Returns (a : A)
| Raises (e : exn).
Arguments Returns {A} a.
Arguments Raises {A} e.

(** ** Text: character classes and the regular expressions of the Normalizer *)

Module Text.

Definition code (c : ascii) : nat := nat_of_ascii c.

Definition between (lo hi n : nat) : bool := (lo <=? n) && (n <=? hi).

(** [str.isspace] on one character; also the class [\s] of [re]. *)
Definition is_space (c : ascii) : bool :=
  let n := code c in
  between 9 13 n || between 28 32 n || (n =? 133) || (n =? 160).

(** The class [a-zA-Z]. *)
Definition is_ascii_letter (c : ascii) : bool :=
  let n := code c in between 65 90 n || between 97 122 n.

(** [str.lower] on one character. *)
Definition lower_char (c : ascii) : ascii :=
  let n := code c in
  if between 65 90 n || (between 192 222 n && negb (n =? 215))
  then ascii_of_nat (n + 32) else c.

Fixpoint lower (s : string) : string :=
  match s with
  | EmptyString => EmptyString
  | String c r => String (lower_char c) (lower r)
  end.

(** [re.sub(pattern, '', text)] for a pattern that matches no empty
    string.  [m s] is the length of the match of the pattern at the head
    of [s], if any.  Matches are taken leftmost and do not overlap;
    [skip] counts the characters of the current match still to delete. *)
Fixpoint sub_scan (m : string -> option nat) (skip : nat) (s : string) : string :=
  match s with
  | EmptyString => EmptyString
  | String c r =>
      match skip with
      | S k => sub_scan m k r
      | O =>
          match m s with
          | Some (S k) => sub_scan m k r
          | _ => String c (sub_scan m O r)
          end
      end
  end.

Definition re_sub_empty (m : string -> option nat) (s : string) : string :=
  sub_scan m 0 s.

(** Pattern [<.*?>]: [tag_close r] is the number of characters of [r] up
    to and including its first [>], when no newline comes before it
    ([.] matches every character but the newline). *)
Fixpoint tag_close (s : string) : option nat :=
  match s with
  | EmptyString => None
  | String c r =>
      if Ascii.eqb c ">" then Some 1
      else if Ascii.eqb c "010" then None
      else S <$> tag_close r
  end.

Definition match_tag (s : string) : option nat :=
  match s with
  | String c r => if Ascii.eqb c "<" then S <$> tag_close r else None
  | EmptyString => None
  end.

(** [\S+] is greedy: the longest run of non-space characters. *)
Fixpoint nonspace_run (s : string) : nat :=
  match s with
  | EmptyString => 0
  | String c r => if is_space c then 0 else S (nonspace_run r)
  end.

Fixpoint strip_prefix (p s : string) : option string :=
  match p, s with
  | EmptyString, _ => Some s
  | String a p', String b s' => if Ascii.eqb a b then strip_prefix p' s' else None
  | String _ _, EmptyString => None
  end.

(** [lit\S+] at the head of [s]. *)
Definition match_lit_run (lit s : string) : option nat :=
  match strip_prefix lit s with
  | Some r =>
      match nonspace_run r with
      | O => None
      | S n => Some (String.length lit + S n)
      end
  | None => None
  end.

(** Pattern [http\S+|www\S+|https\S+]: alternatives are tried in order. *)
Definition match_url (s : string) : option nat :=
  match match_lit_run "http" s with
  | Some n => Some n
  | None =>
      match match_lit_run "www" s with
      | Some n => Some n
      | None => match_lit_run "https" s
      end
  end.

(** Pattern [[^a-zA-Z\s]]. *)
Definition match_special (s : string) : option nat :=
  match s with
  | String c _ => if is_ascii_letter c || is_space c then None else Some 1
  | EmptyString => None
  end.

(** [str.split()]: maximal runs of non-space characters; [cur] is the
    token being read. *)
Fixpoint split_from (cur : string) (s : string) : list string :=
  match s with
  | EmptyString => if String.eqb cur "" then [] else [cur]
  | String c r =>
      if is_space c
      then (if String.eqb cur "" then split_from "" r else cur :: split_from "" r)
      else split_from (cur ++ String c "") r
  end.

Definition split (s : string) : list string := split_from "" s.

(** [' '.join(tokens)] *)
Fixpoint join_space (l : list string) : string :=
  match l with
  | [] => ""
  | [t] => t
  | t :: r => t ++ " " ++ join_space r
  end.

End Text.

(** ** The environment: external collaborators *)

(** A bulk action: [{"_index": ..., "_source": ...}]. *)
Record action : Type := { _index : string; _source : document }.

Record env : Type := {
  stop_words : gset string;                 (* NLTK English and French stop words *)
  lemmatize : string -> string;             (* WordNetLemmatizer.lemmatize *)
  detect : nat -> string -> outcome string;
    (* the n-th call of langdetect.detect, which is randomised: the answer
       for a text may change from one call to the next *)
  blob_polarity : string -> outcome Q;      (* TextBlob(text).sentiment.polarity *)
  now : nat -> Z;                           (* the n-th reading of datetime.now() *)
  update_fault : nat -> option exn;         (* does the n-th update_one call raise? *)
  bulk : nat -> list action -> outcome (nat * nat)
    (* the n-th call helpers.bulk(es, actions, stats_only=True): it returns
       the pair (success, errors) or raises *)
}.

(** ** The world and the monad of stage code *)

Inductive coll_name : Type := Preprocessed | Enriched.

#[global] Instance coll_name_eq_dec : EqDecision coll_name.
Proof. solve_decision. Defined.

(** One [update_one(filter, {"$set": doc}, upsert=True)] call. *)
Record update_call : Type := {
  uc_coll : coll_name;
  uc_filter : value;          (* the filter is [{"url": uc_filter}] *)
  uc_set : document
}.

Inductive log_entry : Type :=
| WarnNoDocuments                              (* No documents to save to MongoDB *)
| ErrSaveDocument (e : exn)                    (* Error saving document to MongoDB: e *)
| InfoSaveCompleted (inserted updated : nat)   (* MongoDB save completed. Inserted: i, Updated: u *)
| ErrSavingDocument (e : exn)                  (* Error saving document: e *)
| InfoNlpCompleted (processed : nat)           (* NLP processing completed. Processed n documents *)
| InfoBulkIndexed (success : nat)              (* Bulk indexed n documents to Elasticsearch *)
| ErrBulkErrors (errors : nat)                 (* Encountered n errors during bulk indexing *)
| ErrBulkIndexing (e : exn)                    (* Error during bulk indexing: e *)
| InfoIndexingCompleted                        (* Completed indexing to Elasticsearch *)
| ErrStage (stage : string) (e : exn).         (* main.py: Error during <stage>: e *)

Record world : Type := {
  posts : collection;                  (* the raw collection *)
  preprocessed_posts : collection;
  enriched_posts : collection;
  next_oid : nat;                      (* source of fresh ObjectIds *)
  update_calls : list update_call;     (* store writes issued so far *)
  detect_calls : list string;          (* arguments passed to the detector so far *)
  clock_reads : nat;                   (* readings of the clock taken so far *)
  bulk_calls : list (list action);     (* batches submitted so far *)
  log : list log_entry
}.

Definition M (A : Type) : Type := world -> outcome A * world.

#[global] Instance M_ret : MRet M := fun A a w => (Returns a, w).

#[global] Instance M_bind : MBind M := fun A B f m w =>
  match m w with
  | (Returns a, w') => f a w'
  | (Raises e, w') => (Raises e, w')
  end.

Definition raise {A : Type} (e : exn) : M A := fun w => (Raises e, w).

Definition lift {A : Type} (o : outcome A) : M A := fun w => (o, w).

(** [try: body  except Exception as e: handler e] *)
Definition try_except {A : Type} (body : M A) (handler : exn -> M A) : M A :=
  fun w =>
    match body w with
    | (Returns a, w') => (Returns a, w')
    | (Raises e, w') => handler e w'
    end.

(** [try: body  except <class>: handler], for the class recognised by [p]. *)
Definition try_except_only {A : Type} (p : exn -> bool) (body : M A) (handler : M A) : M A :=
  fun w =>
    match body w with
    | (Returns a, w') => (Returns a, w')
    | (Raises e, w') => if p e then handler w' else (Raises e, w')
    end.

(** A [for] loop whose body updates the loop's local variables [acc]. *)
Fixpoint for_each {A B : Type} (body : B -> A -> M B) (l : list A) (acc : B) : M B :=
  match l with
  | [] => mret acc
  | x :: r => acc' ← body acc x; for_each body r acc'
  end.

Definition coll_of (c : coll_name) (w : world) : collection :=
  match c with
  | Preprocessed => preprocessed_posts w
  | Enriched => enriched_posts w
  end.

Definition with_coll (c : coll_name) (docs : collection) (w : world) : world :=
  {| posts := posts w;
     preprocessed_posts := if c is Preprocessed then docs else preprocessed_posts w;
     enriched_posts := if c is Enriched then docs else enriched_posts w;
     next_oid := next_oid w; update_calls := update_calls w;
     detect_calls := detect_calls w; clock_reads := clock_reads w;
     bulk_calls := bulk_calls w; log := log w |}.

Definition with_next_oid (n : nat) (w : world) : world :=
  {| posts := posts w; preprocessed_posts := preprocessed_posts w;
     enriched_posts := enriched_posts w;
     next_oid := n; update_calls := update_calls w;
     detect_calls := detect_calls w; clock_reads := clock_reads w;
     bulk_calls := bulk_calls w; log := log w |}.

Definition with_update_call (u : update_call) (w : world) : world :=
  {| posts := posts w; preprocessed_posts := preprocessed_posts w;
     enriched_posts := enriched_posts w;
     next_oid := next_oid w; update_calls := update_calls w ++ [u];
     detect_calls := detect_calls w; clock_reads := clock_reads w;
     bulk_calls := bulk_calls w; log := log w |}.

Definition with_detect_call (s : string) (w : world) : world :=
  {| posts := posts w; preprocessed_posts := preprocessed_posts w;
     enriched_posts := enriched_posts w;
     next_oid := next_oid w; update_calls := update_calls w;
     detect_calls := detect_calls w ++ [s]; clock_reads := clock_reads w;
     bulk_calls := bulk_calls w; log := log w |}.

Definition with_clock_read (w : world) : world :=
  {| posts := posts w; preprocessed_posts := preprocessed_posts w;
     enriched_posts := enriched_posts w;
     next_oid := next_oid w; update_calls := update_calls w;
     detect_calls := detect_calls w; clock_reads := S (clock_reads w);
     bulk_calls := bulk_calls w; log := log w |}.

Definition with_bulk_call (b : list action) (w : world) : world :=
  {| posts := posts w; preprocessed_posts := preprocessed_posts w;
     enriched_posts := enriched_posts w;
     next_oid := next_oid w; update_calls := update_calls w;
     detect_calls := detect_calls w; clock_reads := clock_reads w;
     bulk_calls := bulk_calls w ++ [b]; log := log w |}.

Definition with_log (l : log_entry) (w : world) : world :=
  {| posts := posts w; preprocessed_posts := preprocessed_posts w;
     enriched_posts := enriched_posts w;
     next_oid := next_oid w; update_calls := update_calls w;
     detect_calls := detect_calls w; clock_reads := clock_reads w;
     bulk_calls := bulk_calls w; log := log w ++ [l] |}.

(** [logger.warning / logger.error / logger.info] *)
Definition logger (l : log_entry) : M unit := fun w => (Returns tt, with_log l w).

(** [collection.find()]: every document, in natural order, when the store
    can be read.  The stages below are the stages on a store whose reads
    succeed; a read that fails ([count_documents] or the cursor of [find]
    raising) is modelled where the entry points run the stages, in
    [Orchestration]. *)
Definition find (c : coll_name) : M collection := fun w => (Returns (coll_of c w), w).

(** [datetime.now()] *)
Definition datetime_now (E : env) : M value :=
  fun w => (Returns (VDate (now E (clock_reads w))), with_clock_read w).

(** [doc[k]] *)
Definition getitem (doc : document) (k : string) : M value :=
  match doc !! k with
  | Some v => mret v
  | None => raise (KeyError k)
  end.

(** Truth value of an object in a condition. *)
Definition truthy (v : value) : bool :=
  match v with
  | VNone => false
  | VStr s => negb (String.eqb s "")
  | VFloat q => negb (Qeq_bool q 0)
  | VDate _ => true
  | VOid _ => true
  end.

(** ** The document store: [update_one] with [upsert=True]

    The filter [{"url": u}] selects the documents whose [url] field equals
    [u]; a document without that field counts as having the value null. *)

Definition url_key (d : document) : value := get d "url".

(** [$set] on the first document selected by the filter, if there is one:
    the fields of [upd] overwrite, every other stored field stays. *)
Fixpoint set_first (u : value) (upd : document) (c : collection) : option collection :=
  match c with
  | [] => None
  | x :: r =>
      if decide (url_key x = u) then Some ((upd ∪ x) :: r)
      else cons x <$> set_first u upd r
  end.

(** The document an upsert inserts: the fields of [upd], the filter's
    field, and a fresh [_id] unless [upd] carries one. *)
Definition upserted_doc (u : value) (upd : document) (oid : nat) : document :=
  upd ∪ {[ "url" := u ]} ∪ {[ "_id" := VOid oid ]}.

(** The document the filter selects: the first whose url is [u]. *)
Fixpoint selected (u : value) (c : collection) : option document :=
  match c with
  | [] => None
  | x :: r => if decide (url_key x = u) then Some x else selected u r
  end.

(** [_id] is immutable: a [$set] document that carries an [_id] other than
    the one of the document selected is refused (WriteError). *)
Definition changes_id (u : value) (upd : document) (c : collection) : bool :=
  match upd !! "_id", selected u c with
  | Some v, Some x => bool_decide (x !! "_id" <> Some v)
  | _, _ => false
  end.

(** An insert with the [_id] of a stored document is refused
    (DuplicateKeyError). *)
Definition id_taken (upd : document) (c : collection) : bool :=
  match upd !! "_id" with
  | Some v => existsb (fun x => bool_decide (x !! "_id" = Some v)) c
  | None => false
  end.

(** The call returns [result.upserted_id]: [None] after an update in
    place; after an insert the [_id] of the new document, which is the one
    the [$set] document carries, if any, and a new ObjectId otherwise (a
    new ObjectId is taken to differ from every stored [_id]).  A call that
    raises leaves the collection as it was. *)
Definition update_one (E : env) (c : coll_name) (u : value) (upd : document)
  : M value :=
  fun w =>
    let w1 := with_update_call {| uc_coll := c; uc_filter := u; uc_set := upd |} w in
    match update_fault E (length (update_calls w)) with
    | Some e => (Raises e, w1)
    | None =>
        match set_first u upd (coll_of c w1) with
        | Some docs' =>
            if changes_id u upd (coll_of c w1)
            then (Raises (PyMongoError "WriteError: _id is immutable"), w1)
            else (Returns VNone, with_coll c docs' w1)
        | None =>
            if id_taken upd (coll_of c w1)
            then (Raises (PyMongoError "E11000 duplicate key error"), w1)
            else
              let oid := next_oid w1 in
              (Returns (get_default upd "_id" (VOid oid)),
               with_coll c (coll_of c w1 ++ [upserted_doc u upd oid])
                 (with_next_oid (S oid) w1))
        end
    end.

(** ** Normalizer: [TextPreprocessor] *)

Module TextPreprocessor.
Section WithEnv.
Variable E : env.

Definition remove_html (text : value) : string :=
  match text with
  | VStr s => Text.re_sub_empty Text.match_tag s
  | _ => ""
  end.

Definition remove_urls (text : value) : string :=
  match text with
  | VStr s => Text.re_sub_empty Text.match_url s
  | _ => ""
  end.

Definition remove_special_chars (text : value) : string :=
  match text with
  | VStr s => Text.re_sub_empty Text.match_special s
  | _ => ""
  end.

(** [token not in self.stop_words and len(token) > 2] *)
Definition keep_token (token : string) : bool :=
  bool_decide (token ∉ stop_words E) && (2 <? String.length token).

Definition preprocess_text (text : value) : string :=
  match text with
  | VStr s =>
      if String.eqb s "" then ""
      else
        let text := Text.lower s in
        let text := remove_html (VStr text) in
        let text := remove_urls (VStr text) in
        let text := remove_special_chars (VStr text) in
        let tokens := Text.split text in
        let clean_tokens := map (lemmatize E) (List.filter keep_token tokens) in
        Text.join_space clean_tokens
  | _ => ""
  end.

(** The body of the loop of [process_documents]. *)
Definition process_document (doc : document) : document :=
  let title := get_default doc "title" (VStr "") in
  let content := get_default doc "content" (VStr "") in
  let author := get_default doc "author" (VStr "unknown") in
  let date := get doc "date" in
  let url := get_default doc "url" (VStr "") in
  {[ "title" := VStr (preprocess_text title);
     "content" := VStr (preprocess_text content);
     "author" := author;
     "date" := date;
     "url" := url ]}.

Definition process_documents : M (list document) :=
  fun w => (Returns (map process_document (posts w)), w).

(** The body of the loop of [save_to_mongodb]; [counts] is the pair
    (inserted_count, skipped_count). *)
Definition save_document (counts : nat * nat) (doc : document) : M (nat * nat) :=
  try_except
    (url ← getitem doc "url";
     upserted_id ← update_one E Preprocessed url doc;
     mret (if truthy upserted_id
           then (S (fst counts), snd counts)
           else (fst counts, S (snd counts))))
    (fun e => logger (ErrSaveDocument e);; mret counts).

Definition save_to_mongodb (processed_docs : list document) : M nat :=
  match processed_docs with
  | [] => logger WarnNoDocuments;; mret 0
  | _ =>
      counts ← for_each save_document processed_docs (0, 0);
      logger (InfoSaveCompleted (fst counts) (snd counts));;
      mret (fst counts)
  end.

(** The stage as [__main__] and [main.preprocess_data] run it. *)
Definition run : M nat :=
  processed_docs ← process_documents;
  save_to_mongodb processed_docs.

End WithEnv.
End TextPreprocessor.

(** ** Enricher: [NLPProcessor] *)

(** The literal [0.1] is the binary64 number nearest to one tenth. *)
Definition float_0_1 : Q := 3602879701896397 # 36028797018963968.

Definition Qlt_bool (x y : Q) : bool := negb (Qle_bool y x).

(** [text[:n]] *)
Fixpoint prefix (n : nat) (s : string) : string :=
  match n, s with
  | S k, String c r => String c (prefix k r)
  | _, _ => EmptyString
  end.

(** The dictionary [{"polarity": ..., "sentiment": ...}]. *)
Record sentiment_result : Type := { polarity : Q; sentiment : string }.

Module NLPProcessor.
Section WithEnv.
Variable E : env.

(** [detect(s)], recording the call. *)
Definition call_detect (s : string) : M string :=
  fun w => (detect E (length (detect_calls w)) s, with_detect_call s w).

Definition is_LangDetectException (e : exn) : bool :=
  match e with LangDetectException => true | _ => false end.

Definition detect_language (text : value) : M string :=
  if negb (truthy text) then mret "unknown"
  else
    match text with
    | VStr s =>
        if String.length s <? 3 then mret "unknown"
        else
          try_except_only is_LangDetectException
            (call_detect (prefix 1000 s))
            (mret "unknown")
    | _ => raise TypeError          (* len() of an object that has none *)
    end.

(** [language] is not used. *)
Definition analyze_sentiment (text : value) (language : string)
  : outcome sentiment_result :=
  if negb (truthy text) then Returns {| polarity := 0; sentiment := "neutral" |}
  else
    match text with
    | VStr s =>
        match blob_polarity E s with
        | Returns polarity =>
            let sentiment :=
              if Qlt_bool float_0_1 polarity then "positive"
              else if Qlt_bool polarity (- float_0_1) then "negative"
              else "neutral" in
            Returns {| polarity := polarity; sentiment := sentiment |}
        | Raises e => Raises e
        end
    | _ => Raises TypeError         (* TextBlob accepts strings only *)
    end.

(** The dictionary [enriched_doc] built for a document. *)
Definition enriched_doc (doc : document) (content : value) (language : string)
    (sentiment_result : sentiment_result) (enriched_at : value) : document :=
  {[ "title" := get_default doc "title" (VStr "");
     "content" := content;
     "author" := get_default doc "author" (VStr "unknown");
     "date" := get doc "date";
     "url" := get_default doc "url" (VStr "");
     "language" := VStr language;
     "sentiment" := VStr (sentiment sentiment_result);
     "polarity" := VFloat (polarity sentiment_result);
     "enriched_at" := enriched_at ]}.

(** The body of the loop of [process_documents]. *)
Definition enrich_document (processed_count : nat) (doc : document) : M nat :=
  let content := get_default doc "content" (VStr "") in
  language ← detect_language content;
  sentiment_result ← lift (analyze_sentiment content language);
  enriched_at ← datetime_now E;
  let enriched_doc := enriched_doc doc content language sentiment_result enriched_at in
  try_except
    (url ← getitem doc "url";
     _ ← update_one E Enriched url enriched_doc;
     mret (S processed_count))
    (fun e => logger (ErrSavingDocument e);; mret processed_count).

Definition process_documents : M nat :=
  docs ← find Preprocessed;
  processed_count ← for_each enrich_document docs 0;
  logger (InfoNlpCompleted processed_count);;
  mret processed_count.

End WithEnv.
End NLPProcessor.

(** ** Publisher: [ElasticsearchIndexer] *)

Module ElasticsearchIndexer.
Section WithEnv.
Variable E : env.
Variable index_name : string.

(** The dictionary [es_doc] built for a document; [date_default] is the
    value of the argument [datetime.now()] of [doc.get("date", ...)]. *)
Definition es_doc (doc : document) (date_default indexed_at : value) : document :=
  let score := get_default doc "polarity" (VFloat 0) in
  {[ "titre" := get_default doc "title" (VStr "");
     "contenu" := get_default doc "content" (VStr "");
     "auteur" := get_default doc "author" (VStr "unknown");
     "date" := get_default doc "date" date_default;
     "url" := get_default doc "url" (VStr "");
     "langue" := get_default doc "language" (VStr "unknown");
     "sentiment" := get_default doc "sentiment" (VStr "neutral");
     "score" := score;
     "indexed_at" := indexed_at ]}.

(** The clock is read twice: for the default of [date], which Python
    evaluates whether or not it is used, and for [indexed_at]. *)
Definition transform_document (doc : document) : M document :=
  date_default ← datetime_now E;
  indexed_at ← datetime_now E;
  mret (es_doc doc date_default indexed_at).

(** [helpers.bulk(self.es, actions, stats_only=True)], recording the call. *)
Definition call_bulk (actions : list action) : M (nat * nat) :=
  fun w => (bulk E (length (bulk_calls w)) actions, with_bulk_call actions w).

Definition _bulk_index (actions : list action) : M unit :=
  try_except
    (stats ← call_bulk actions;
     logger (InfoBulkIndexed (fst stats));;
     if snd stats =? 0 then mret tt else logger (ErrBulkErrors (snd stats)))
    (fun e => logger (ErrBulkIndexing e)).

(** The body of the loop of [index_documents]. *)
Definition index_document (actions : list action) (doc : document) : M (list action) :=
  es_doc ← transform_document doc;
  let actions := (actions ++ [ {| _index := index_name; _source := es_doc |} ])%list in
  if 500 <=? length actions then _bulk_index actions;; mret [] else mret actions.

Definition index_documents : M unit :=
  docs ← find Enriched;
  actions ← for_each index_document docs [];
  match actions with
  | [] => mret tt
  | _ => _bulk_index actions
  end;;
  logger InfoIndexingCompleted.

End WithEnv.
End ElasticsearchIndexer.

(** ** Orchestration: main.py *)

Module Main.
Section WithEnv.
Variable E : env.

Definition process_nlp : M nat :=
  try_except (NLPProcessor.process_documents E)
    (fun e => logger (ErrStage "NLP processing" e);; mret 0).

End WithEnv.
End Main.

(** An empty world over a given raw collection. *)
Definition initial_world (raw : collection) : world :=
  {| posts := raw; preprocessed_posts := []; enriched_posts := [];
     next_oid := 0; update_calls := []; detect_calls := []; clock_reads := 0;
     bulk_calls := []; log := [] |}.

(** The lemma rule of test_preprocessing.py. *)
Definition running_to_run (t : string) : string :=
  if String.eqb t "running" then "run" else t.

(** An environment for examples: models that always answer, a store and a
    bulk loader without faults. *)
Definition quiet_env : env :=
  {| stop_words := {[ "am"; "a"; "the" ]};
     lemmatize := running_to_run;
     detect := fun _ _ => Returns "en";
     blob_polarity := fun _ => Returns 0%Q;
     now := fun n => Z.of_nat n;
     update_fault := fun _ => None;
     bulk := fun _ actions => Returns (length actions, 0) |}.


(** A detector that fails on every text. *)
Definition failing_detector_env : env :=
  {| stop_words := stop_words quiet_env; lemmatize := lemmatize quiet_env;
     detect := fun _ _ => Raises LangDetectException;
     blob_polarity := blob_polarity quiet_env; now := now quiet_env;
     update_fault := update_fault quiet_env; bulk := bulk quiet_env |}.

(** ** Specification-side definitions

    The statements below compare the code with these. *)

Local Open Scope list_scope.

(** The characters of [s] that satisfy [p], in order. *)
Fixpoint keep_chars (p : ascii -> bool) (s : string) : string :=
  match s with
  | EmptyString => EmptyString
  | String c r => if p c then String c (keep_chars p r) else keep_chars p r
  end.

(** *** The transform [clean] of the specification

    Written from the words of the specification, step by step; nothing
    here uses the model of the code.  Text is read over the code points
    0..255. *)

Module Clean.

(** White space: the characters below 256 that count as white space, tab
    to carriage return, the four separators, the space, NEL and the
    no-break space. *)
Definition whitespace : list ascii :=
  ["009"; "010"; "011"; "012"; "013"; "028"; "029"; "030"; "031"; " "; "133";
   "160"]%char.

Definition is_whitespace (c : ascii) : bool := existsb (Ascii.eqb c) whitespace.

(** The ASCII letters. *)
Definition letters : list ascii :=
  list_ascii_of_string "abcdefghijklmnopqrstuvwxyzABCDEFGHIJKLMNOPQRSTUVWXYZ".

Definition is_letter (c : ascii) : bool := existsb (Ascii.eqb c) letters.

(** 2. Lowercase: a capital letter, A to Z or, in Latin-1, one of the
    letters from 192 to 222 (215 is the sign of multiplication), becomes
    the small letter 32 code points above. *)
Definition is_capital (c : ascii) : bool :=
  let n := N_of_ascii c in
  ((65 <=? n) && (n <=? 90) || (192 <=? n) && (n <=? 222) && negb (n =? 215))%N.

Definition to_lower (c : ascii) : ascii :=
  if is_capital c then ascii_of_N (N_of_ascii c + 32) else c.

Fixpoint lowercase (s : string) : string :=
  match s with
  | EmptyString => EmptyString
  | String c r => String (to_lower c) (lowercase r)
  end.

(** 3. Tag-shaped substrings: a [<] that a [>] follows on the same line,
    with everything up to the first such [>].  [closes s] tells whether a
    [>] comes in [s] before any newline. *)
Fixpoint closes (s : string) : bool :=
  match s with
  | EmptyString => false
  | String c r =>
      if Ascii.eqb c ">" then true
      else if Ascii.eqb c "010" then false
      else closes r
  end.

Fixpoint strip_tags (in_tag : bool) (s : string) : string :=
  match s with
  | EmptyString => EmptyString
  | String c r =>
      if in_tag then (if Ascii.eqb c ">" then strip_tags false r else strip_tags true r)
      else if Ascii.eqb c "<" && closes r then strip_tags true r
      else String c (strip_tags false r)
  end.

(** 4. URL-shaped substrings: [http], [www] or [https] followed by at least
    one character that is not white space, taken greedily up to the next
    white space, leftmost first. *)
Definition url_head (lit s : string) : bool :=
  String.prefix lit s
  && match String.get (String.length lit) s with
     | Some c => negb (is_whitespace c)
     | None => false
     end.

Definition starts_url (s : string) : bool :=
  url_head "http" s || url_head "www" s || url_head "https" s.

Fixpoint strip_urls (in_url : bool) (s : string) : string :=
  match s with
  | EmptyString => EmptyString
  | String c r =>
      if in_url
      then (if is_whitespace c then String c (strip_urls false r) else strip_urls true r)
      else if starts_url s then strip_urls true r
      else String c (strip_urls false r)
  end.

(** 5. Every character that is not an ASCII letter or white space goes. *)
Definition letters_only (s : string) : string :=
  keep_chars (fun c => is_letter c || is_whitespace c) s.

(** 6. The tokens: the maximal runs of characters that are not white
    space. *)
Fixpoint tokens (s : string) : list string :=
  match s with
  | EmptyString => []
  | String c r =>
      if is_whitespace c then tokens r
      else
        match r with
        | EmptyString => [String c ""]
        | String c' _ =>
            if is_whitespace c' then String c "" :: tokens r
            else
              match tokens r with
              | t :: ts => String c t :: ts
              | [] => [String c ""]
              end
        end
  end.

(** Steps 1 to 9. *)
Definition clean (stop : gset string) (lemma : string -> string) (text : value)
  : string :=
  match text with
  | VStr s =>
      if String.eqb s "" then ""
      else
        let lowered := lowercase s in
        let no_tags := strip_tags false lowered in
        let no_urls := strip_urls false no_tags in
        let kept := filter (fun t => ¬ (t ∈ stop ∨ String.length t <= 2))
                      (tokens (letters_only no_urls)) in
        String.concat " " (map lemma kept)
  | _ => ""
  end.

End Clean.

(** The exceptions raised by the store during the [len] writes that follow
    the first [start] ones, in order. *)
Definition faults_in (E : env) (start len : nat) : list exn :=
  omap (update_fault E) (seq start len).

(** The models answer for a document: neither the language detection, at
    whatever call, nor the sentiment analysis of its content raises. *)
Definition models_answer (E : env) (doc : document) : Prop :=
  let content := get_default doc "content" (VStr "") in
  (forall w, exists language,
      fst (NLPProcessor.detect_language E content w) = Returns language) /\
  (forall language, exists sr,
      NLPProcessor.analyze_sentiment E content language = Returns sr).

(** The write that [save_to_mongodb] issues for a document. *)
Definition save_call (d : document) : update_call :=
  {| uc_coll := Preprocessed; uc_filter := url_key d; uc_set := d |}.

(** A world whose preprocessed collection is given, everything else empty. *)
Definition preprocessed_world (docs : collection) : world :=
  with_coll Preprocessed docs (initial_world []).

(** Collection and filter value of a write. *)
Definition call_key (c : update_call) : coll_name * value := (uc_coll c, uc_filter c).

(** A store in which the second write fails and no other. *)
Definition second_write_fails_env : env :=
  {| stop_words := stop_words quiet_env; lemmatize := lemmatize quiet_env;
     detect := detect quiet_env; blob_polarity := blob_polarity quiet_env;
     now := now quiet_env;
     update_fault := fun n => if n =? 1 then Some (PyMongoError "Test error") else None;
     bulk := bulk quiet_env |}.

Definition three_posts : collection :=
  [ {[ "title" := VStr "English Post"; "content" := VStr "happiness and success";
       "author" := VStr "user1"; "url" := VStr "http://example.com/1" ]};
    {[ "title" := VStr "French Post"; "content" := VStr "tristesse";
       "author" := VStr "user2"; "url" := VStr "http://example.com/2" ]};
    {[ "title" := VStr "Neutral Post"; "content" := VStr "factual statement";
       "author" := VStr "user3"; "url" := VStr "http://example.com/3" ]} ].

(** The actions the Publisher builds for a list of documents when the clock
    has been read [reads] times: two readings per document. *)
Fixpoint actions_from (E : env) (index_name : string) (reads : nat)
    (docs : list document) : list action :=
  match docs with
  | [] => []
  | d :: r =>
      {| _index := index_name;
         _source := ElasticsearchIndexer.es_doc d (VDate (now E reads))
                      (VDate (now E (S reads))) |}
      :: actions_from E index_name (S (S reads)) r
  end.

(** What [_bulk_index] logs for a batch, by the outcome of the bulk call. *)
Definition batch_log (o : outcome (nat * nat)) : list log_entry :=
  match o with
  | Returns (success, errors) =>
      InfoBulkIndexed success :: (if errors =? 0 then [] else [ErrBulkErrors errors])
  | Raises e => [ErrBulkIndexing e]
  end.

(** The log of a sequence of batches, the first being bulk call [start]. *)
Fixpoint bulk_log (E : env) (start : nat) (batches : list (list action)) : list log_entry :=
  match batches with
  | [] => []
  | b :: r => batch_log (bulk E start b) ++ bulk_log E (S start) r
  end.

(** A log entry that states a success count or an error count. *)
Definition reports_count (l : log_entry) : bool :=
  match l with
  | InfoBulkIndexed _ | ErrBulkErrors _ => true
  | _ => false
  end.

(** The logging clause of the Publisher as the specification words it:
    whenever the bulk call of a batch raises, the run logs a success/error
    count for it. *)
Definition bulk_failures_logged_with_counts (E : env) (index_name : string)
    (w : world) : Prop :=
  let w' := snd (ElasticsearchIndexer.index_documents E index_name w) in
  forall (k : nat) (batch : list action) (e : exn),
    bulk_calls w' !! k = Some batch ->
    length (bulk_calls w) <= k ->
    bulk E k batch = Raises e ->
    exists l, l ∈ drop (length (log w)) (log w') /\ reports_count l = true.

(** A bulk loader that is unreachable. *)
Definition bulk_down_env : env :=
  {| stop_words := stop_words quiet_env; lemmatize := lemmatize quiet_env;
     detect := detect quiet_env; blob_polarity := blob_polarity quiet_env;
     now := now quiet_env; update_fault := update_fault quiet_env;
     bulk := fun _ _ => Raises (OtherException "ConnectionError") |}.

(** A world whose enriched collection is given, everything else empty. *)
Definition enriched_world (docs : collection) : world :=
  with_coll Enriched docs (initial_world []).

(** *** The store as a pure state

    A collection together with the next fresh ObjectId, and the effect on it
    of one accepted write [(u, d)]: [update_one({"url": u}, {"$set": d},
    upsert=True)]. *)
Definition upsert (s : collection * nat) (wr : value * document) : collection * nat :=
  match set_first (fst wr) (snd wr) (fst s) with
  | Some docs' => (docs', snd s)
  | None => (fst s ++ [upserted_doc (fst wr) (snd wr) (snd s)], S (snd s))
  end.

Definition upserts (ws : list (value * document)) (s : collection * nat)
  : collection * nat :=
  fold_left upsert ws s.



(** The write [save_to_mongodb] issues for a document. *)
Definition save_write (d : document) : value * document := (url_key d, d).

(** *** The upsert contract of the specification

    [upsert(collection, key_field, document)]: if a document with the key
    of [document] exists, its fields are replaced by those of [document]
    (merge by overwrite, the other fields stay) and the write counts as
    updated; otherwise [document] is inserted and the write counts as
    inserted. *)






(** An empty world in which the detector has been called on [calls]. *)
Definition detector_world (calls : list string) : world :=
  {| posts := []; preprocessed_posts := []; enriched_posts := [];
     next_oid := 0; update_calls := []; detect_calls := calls; clock_reads := 0;
     bulk_calls := []; log := [] |}.

(** The writes one run of the Enricher issues over [docs] when the store
    accepts every write, the clock has been read [reads] times and the
    detector has been called on [calls]: the loop ends at the first
    document on which a model raises; a document without url is skipped. *)
Fixpoint enricher_writes (E : env) (reads : nat) (calls : list string)
    (docs : list document) : list (value * document) :=
  match docs with
  | [] => []
  | d :: r =>
      let content := get_default d "content" (VStr "") in
      let detection := NLPProcessor.detect_language E content (detector_world calls) in
      match fst detection with
      | Raises _ => []
      | Returns language =>
          match NLPProcessor.analyze_sentiment E content language with
          | Raises _ => []
          | Returns sr =>
              match d !! "url" with
              | Some u =>
                  [(u, NLPProcessor.enriched_doc d content language sr
                         (VDate (now E reads)))]
              | None => []
              end ++ enricher_writes E (S reads) (detect_calls (snd detection)) r
          end
      end
  end.







(** A detector whose answer changes from one call to the next. *)
Definition wavering_detector_env : env :=
  {| stop_words := stop_words quiet_env; lemmatize := lemmatize quiet_env;
     detect := fun n _ => Returns (if Nat.even n then "en" else "fr");
     blob_polarity := blob_polarity quiet_env;
     now := now quiet_env; update_fault := update_fault quiet_env;
     bulk := bulk quiet_env |}.

(** A sentiment model that breaks on one text. *)
Definition sentiment_down_env : env :=
  {| stop_words := stop_words quiet_env; lemmatize := lemmatize quiet_env;
     detect := detect quiet_env;
     blob_polarity := fun s =>
       if String.eqb s "bad stuff" then Raises (OtherException "sentiment model error")
       else Returns 0%Q;
     now := now quiet_env; update_fault := update_fault quiet_env;
     bulk := bulk quiet_env |}.

(** A detector that breaks with an exception other than a detection
    failure, as in test_nlp_pipeline.py. *)
Definition detector_crash_env : env :=
  {| stop_words := stop_words quiet_env; lemmatize := lemmatize quiet_env;
     detect := fun _ _ => Raises (OtherException "Detection error");
     blob_polarity := blob_polarity quiet_env;
     now := now quiet_env; update_fault := update_fault quiet_env;
     bulk := bulk quiet_env |}.

Definition two_posts : collection :=
  [ {[ "title" := VStr "first"; "content" := VStr "bad stuff"; "url" := VStr "u1" ]};
    {[ "title" := VStr "second"; "content" := VStr "fine words"; "url" := VStr "u2" ]} ].

(** *** Predicates for the properties of the stages *)

(** The document carries no [_id] that counts as false in a condition
    (None, 0 or the empty string). *)
Definition no_falsy_id (d : document) : bool := truthy (get_default d "_id" (VOid 0)).

(** The document has a [url] key. *)
Definition has_url_field (d : document) : bool :=
  match d !! "url" with Some _ => true | None => false end.

(** What the Normalizer does not touch. *)
Definition normalizer_frame (w w' : world) : Prop :=
  posts w' = posts w /\ enriched_posts w' = enriched_posts w /\
  clock_reads w' = clock_reads w /\ detect_calls w' = detect_calls w /\
  bulk_calls w' = bulk_calls w.

(** What the Enricher does not touch. *)
Definition enricher_frame (w w' : world) : Prop :=
  posts w' = posts w /\ preprocessed_posts w' = preprocessed_posts w /\
  bulk_calls w' = bulk_calls w.

(** What the Publisher does not touch: the whole document store. *)
Definition publisher_frame (w w' : world) : Prop :=
  posts w' = posts w /\ preprocessed_posts w' = preprocessed_posts w /\
  enriched_posts w' = enriched_posts w /\ next_oid w' = next_oid w /\
  update_calls w' = update_calls w /\ detect_calls w' = detect_calls w.

(** A preprocessed document the Enricher can work on: it has a url and its
    content is text. *)
Definition preprocessed_wf (d : document) : Prop :=
  is_Some (d !! "url") /\ exists s, d !! "content" = Some (VStr s).

(** Models that behave: the detector raises nothing but detection
    failures, the sentiment model always answers. *)
Definition models_behave (E : env) : Prop :=
  (forall n s e, detect E n s = Raises e -> e = LangDetectException) /\
  (forall s, exists p, blob_polarity E s = Returns p).

(** *** Predicates for the properties of the text transform *)

(** Every character of [s] satisfies [p]. *)
Fixpoint all_chars (p : ascii -> bool) (s : string) : bool :=
  match s with
  | EmptyString => true
  | String c r => p c && all_chars p r
  end.

(** The class [a-z]. *)
Definition is_lower_letter (c : ascii) : bool := Text.between 97 122 (Text.code c).

(** The pattern [m] matches at no position of [s]. *)
Fixpoint unmatched (m : string -> option nat) (s : string) : Prop :=
  match s with
  | EmptyString => True
  | String c r =>
      match m s with Some (S _) => False | _ => True end /\ unmatched m r
  end.

(** The tokens of [preprocess_text] as they reach the lemmatizer. *)
Definition surviving_tokens (E : env) (s : string) : list string :=
  let text := Text.lower s in
  let text := TextPreprocessor.remove_html (VStr text) in
  let text := TextPreprocessor.remove_urls (VStr text) in
  let text := TextPreprocessor.remove_special_chars (VStr text) in
  List.filter (TextPreprocessor.keep_token E) (Text.split text).

(** ** The collectors' entry point: main/scrapers/scraper.py *)

Module Scraper.

Inductive scraper_log : Type :=
| InfoStartingScraping                         (* Starting scraping process *)
| WarnCredentialsMissing (platform : string) (vars : list string)
                                               (* <platform> credentials missing: <vars> *)
| ErrMissingCredentials                        (* Missing credentials, aborting *)
| InfoScrapingCompleted.                       (* Scraping process completed *)

(** The dictionary [required], in the order it is written. *)
Definition required : list (string * list string) :=
  [ ("Reddit", ["REDDIT_CLIENT_ID"; "REDDIT_CLIENT_SECRET"; "REDDIT_USER_AGENT"]);
    ("Twitter", ["TWITTER_BEARER_TOKEN"]);
    ("Telegram", ["TELEGRAM_API_ID"; "TELEGRAM_API_HASH"; "TELEGRAM_PHONE"]) ].

(** The truth value of [os.getenv(var)]: the variable is set and is not the
    empty string. *)
Definition is_set (environ : gmap string string) (var : string) : bool :=
  match environ !! var with
  | Some s => negb (String.eqb s "")
  | None => false
  end.

(** The body of the loop: the state is [valid] and the log. *)
Definition check_platform (environ : gmap string string)
    (st : bool * list scraper_log) (pv : string * list string)
  : bool * list scraper_log :=
  if forallb (is_set environ) (snd pv) then st
  else (false, snd st ++ [WarnCredentialsMissing (fst pv) (snd pv)]).

Definition validate_credentials (environ : gmap string string)
  : bool * list scraper_log :=
  fold_left (check_platform environ) required (true, []).

(** [main]: the three scraping blocks are commented out in the source, so
    nothing is collected. *)
Definition main (environ : gmap string string) : list scraper_log :=
  let r := validate_credentials environ in
  if negb (fst r) then [InfoStartingScraping] ++ snd r ++ [ErrMissingCredentials]
  else [InfoStartingScraping] ++ snd r ++ [InfoScrapingCompleted].

End Scraper.

(** ** The search index: [ElasticsearchIndexer.create_index] *)

Module Elasticsearch.

(** One entry of the mapping: its type and, for text, its analyzer. *)
Record field_mapping : Type := { f_type : string; f_analyzer : option string }.

Record index : Type := {
  ix_properties : gmap string field_mapping;
  ix_shards : nat;
  ix_replicas : nat;
  ix_docs : list document
}.

Inductive admin_call : Type :=
| IndicesExists (name : string)
| IndicesDelete (name : string)
| IndicesCreate (name : string).

(** The cluster: its indices and the administration calls made so far. *)
Record cluster : Type := {
  indices : gmap string index;
  admin_calls : list admin_call
}.

(** The dictionary [mappings] of [create_index]. *)
Definition keyword : field_mapping := {| f_type := "keyword"; f_analyzer := None |}.

Definition properties : gmap string field_mapping :=
  {[ "titre" := keyword;
     "contenu" := {| f_type := "text"; f_analyzer := Some "standard" |};
     "auteur" := keyword;
     "date" := {| f_type := "date"; f_analyzer := None |};
     "url" := keyword;
     "langue" := keyword;
     "sentiment" := keyword;
     "score" := {| f_type := "float"; f_analyzer := None |};
     "indexed_at" := {| f_type := "date"; f_analyzer := None |} ]}.

Definition fresh_index : index :=
  {| ix_properties := properties; ix_shards := 1; ix_replicas := 0; ix_docs := [] |}.

Definition record_call (c : admin_call) (es : cluster) : cluster :=
  {| indices := indices es; admin_calls := admin_calls es ++ [c] |}.

(** [fault n] tells whether the n-th administration call raises. *)
Definition create_index (fault : nat -> option exn) (index_name : string)
    (es : cluster) : outcome unit * cluster :=
  let es1 := record_call (IndicesExists index_name) es in
  match fault (length (admin_calls es)) with
  | Some e => (Raises e, es1)
  | None =>
      let deleted :=
        match indices es1 !! index_name with
        | Some _ =>
            let es2 := record_call (IndicesDelete index_name) es1 in
            match fault (length (admin_calls es1)) with
            | Some e => (Raises e, es2)
            | None =>
                (Returns tt,
                 {| indices := delete index_name (indices es2);
                    admin_calls := admin_calls es2 |})
            end
        | None => (Returns tt, es1)
        end in
      match deleted with
      | (Raises e, es3) => (Raises e, es3)
      | (Returns _, es3) =>
          let es4 := record_call (IndicesCreate index_name) es3 in
          match fault (length (admin_calls es3)) with
          | Some e => (Raises e, es4)
          | None =>
              (Returns tt,
               {| indices := <[index_name := fresh_index]> (indices es4);
                  admin_calls := admin_calls es4 |})
          end
      end
  end.

End Elasticsearch.

(** ** Orchestration with the set-up of each stage: main/main.py *)

Module Orchestration.
Section WithEnv.
Variable E : env.

(** [create_index("url", unique=True)]: the index cannot be built over a
    collection in which two documents share a url. *)
Definition create_unique_index (c : coll_name) : M unit :=
  fun w =>
    if decide (NoDup (url_key <$> coll_of c w)) then (Returns tt, w)
    else (Raises (PyMongoError "E11000 duplicate key error"), w).

(** The constructor of a stage: [setup] is an exception raised while the
    stage object is built (server unreachable, resources missing), if any. *)
Definition construct (setup : option exn) (index_on : option coll_name) : M unit :=
  match setup with
  | Some e => raise e
  | None =>
      match index_on with
      | Some c => create_unique_index c
      | None => mret tt
      end
  end.

(** A read of the store that fails: [count_documents] or the cursor of
    [find] raises [e] when the loop of the stage has gone through [k]
    documents ([k] is 0 when the store cannot be reached at all). *)
Definition read_fault : Type := option (nat * exn).

(** [TextPreprocessor.process_documents]: its loop writes nothing, so that
    a read that fails only loses the list being built. *)
Definition reading_raw (reads : read_fault) : M (list document) :=
  match reads with
  | None => TextPreprocessor.process_documents E
  | Some (_, e) => raise e
  end.

(** [NLPProcessor.process_documents]: the documents that the cursor has
    delivered are processed, then the exception leaves the function. *)
Definition reading_preprocessed (reads : read_fault) : M nat :=
  match reads with
  | None => NLPProcessor.process_documents E
  | Some (k, e) =>
      docs ← find Preprocessed;
      for_each (NLPProcessor.enrich_document E) (take k docs) 0;;
      raise e
  end.

(** [ElasticsearchIndexer.index_documents], likewise: the batches that
    were full have been submitted, the actions pending are lost. *)
Definition reading_enriched (reads : read_fault) : M unit :=
  match reads with
  | None => ElasticsearchIndexer.index_documents E "harcelement_posts"
  | Some (k, e) =>
      docs ← find Enriched;
      for_each (ElasticsearchIndexer.index_document E "harcelement_posts")
        (take k docs) [];;
      raise e
  end.

Definition preprocess_data (setup : option exn) (reads : read_fault) : M nat :=
  try_except
    (construct setup (Some Preprocessed);;
     processed_docs ← reading_raw reads;
     inserted_count ← TextPreprocessor.save_to_mongodb E processed_docs;
     mret (length processed_docs))
    (fun e => logger (ErrStage "data preprocessing" e);; mret 0).

Definition process_nlp (setup : option exn) (reads : read_fault) : M nat :=
  try_except
    (construct setup (Some Enriched);;
     processed_count ← reading_preprocessed reads;
     mret processed_count)
    (fun e => logger (ErrStage "NLP processing" e);; mret 0).

(** The cluster is threaded beside the world. *)
Definition migrate_to_elasticsearch (setup : option exn) (reads : read_fault)
    (es_fault : nat -> option exn) (es : Elasticsearch.cluster)
  : M (bool * Elasticsearch.cluster) :=
  try_except
    (construct setup None;;
     match Elasticsearch.create_index es_fault "harcelement_posts" es with
     | (Raises e, es') =>
         logger (ErrStage "Elasticsearch migration" e);; mret (false, es')
     | (Returns _, es') =>
         try_except
           (reading_enriched reads;;
            mret (true, es'))
           (fun e => logger (ErrStage "Elasticsearch migration" e);; mret (false, es'))
     end)
    (fun e => logger (ErrStage "Elasticsearch migration" e);; mret (false, es)).

(** [main], after the collection phase, which stores nothing. *)
Definition main (setup1 setup2 setup3 : option exn) (reads1 reads2 reads3 : read_fault)
    (es_fault : nat -> option exn) (es : Elasticsearch.cluster)
  : M (bool * Elasticsearch.cluster) :=
  preprocess_data setup1 reads1;;
  process_nlp setup2 reads2;;
  migrate_to_elasticsearch setup3 reads3 es_fault es.

End WithEnv.
End Orchestration.

(** ** The collectors: scrapers/reddit_scraper.py, main/scrapers/telegram_scraper.py

    A collector fetches items from its platform, builds one post per item
    and stores it in the raw collection with [insert_one], which a unique
    index makes fail on a post already collected.  The posts of the Twitter
    collector carry a list of hashtags, which [value] cannot hold; that
    collector is not part of this development. *)

Module Collector.

(** The raw collection as the collectors see it: its documents, the unique
    indexes created on it (each a list of field names), the next ObjectId,
    and counters of the clock readings and of the [insert_one] calls made
    so far. *)
Record raw_store : Type := {
  rs_docs : collection;
  rs_indexes : list (list string);
  rs_next_oid : nat;
  rs_clock_reads : nat;
  rs_inserts : nat
}.

(** The calls of the logger. *)
Inductive collector_log : Type :=
| InfoScraping (limit : nat) (name : string)   (* Scraping [up to] limit ... from name *)
| InfoScrapingOne (name : string)              (* Scraping subreddit / group: name *)
| InfoConnected                                (* Connected to Telegram *)
| ErrConnect (e : exn)                         (* Failed to connect to Telegram: e *)
| ErrInvalidSort (sort_by : string)            (* Invalid sort_by parameter: s *)
| DebugInserted (shown : string)               (* Inserted post / message: shown... *)
| DebugDuplicate (url : value)                 (* Duplicate post / message: url *)
| ErrInserting (e : exn)                       (* Error inserting ... into MongoDB: e *)
| InfoScraped (n : nat) (name : string)        (* Successfully scraped n ... from name *)
| ErrScraping (name : string) (e : exn).       (* Error scraping subreddit / group name: e *)

(** The values a document has on the fields of an index; a field that is
    absent counts as null. *)
Definition index_key (ix : list string) (d : document) : list value := map (get d) ix.

(** The document has the key of a stored document on one of the unique
    indexes. *)
Definition collides (st : raw_store) (d : document) : bool :=
  existsb
    (fun ix => existsb (fun d' => bool_decide (index_key ix d' = index_key ix d))
                 (rs_docs st))
    (rs_indexes st).

Inductive insert_result : Type :=
| Inserted (d : document)          (* the post, to which the call has added _id *)
| DuplicateKeyError
| InsertFailed (e : exn).

(** [collection.insert_one(post)] for a post without [_id]: the driver adds
    a new ObjectId to the post, and the server refuses the document if it
    has the key of a stored one on a unique index.  [fault n] tells whether
    the n-th call raises another exception than a duplicate key. *)
Definition insert_one (fault : nat -> option exn) (post : document) (st : raw_store)
  : insert_result * raw_store :=
  let d := <["_id" := VOid (rs_next_oid st)]> post in
  match fault (rs_inserts st) with
  | Some e =>
      (InsertFailed e,
       {| rs_docs := rs_docs st; rs_indexes := rs_indexes st;
          rs_next_oid := S (rs_next_oid st); rs_clock_reads := rs_clock_reads st;
          rs_inserts := S (rs_inserts st) |})
  | None =>
      if collides st d
      then (DuplicateKeyError,
            {| rs_docs := rs_docs st; rs_indexes := rs_indexes st;
               rs_next_oid := S (rs_next_oid st); rs_clock_reads := rs_clock_reads st;
               rs_inserts := S (rs_inserts st) |})
      else (Inserted d,
            {| rs_docs := rs_docs st ++ [d]; rs_indexes := rs_indexes st;
               rs_next_oid := S (rs_next_oid st); rs_clock_reads := rs_clock_reads st;
               rs_inserts := S (rs_inserts st) |})
  end.

(** [collection.create_index(keys, unique=True)]: refused when two stored
    documents have the same key. *)
Definition create_index (ix : list string) (st : raw_store) : option raw_store :=
  if decide (NoDup (map (index_key ix) (rs_docs st)))
  then Some {| rs_docs := rs_docs st;
               rs_indexes := if decide (ix ∈ rs_indexes st) then rs_indexes st
                             else rs_indexes st ++ [ix];
               rs_next_oid := rs_next_oid st; rs_clock_reads := rs_clock_reads st;
               rs_inserts := rs_inserts st |}
  else None.

(** The block [try: insert_one(post); posts.append(post); logger.debug(...)
    except DuplicateKeyError: ... except Exception: ...]; the state of the
    loop is the list of the posts collected, the store and the log. *)
Definition try_insert (fault : nat -> option exn) (shown : string) (post : document)
    (acc : list document * raw_store * list collector_log)
  : list document * raw_store * list collector_log :=
  match insert_one fault post (snd (fst acc)) with
  | (Inserted d, st') => (fst (fst acc) ++ [d], st', snd acc ++ [DebugInserted shown])
  | (DuplicateKeyError, st') =>
      (fst (fst acc), st', snd acc ++ [DebugDuplicate (get post "url")])
  | (InsertFailed e, st') => (fst (fst acc), st', snd acc ++ [ErrInserting e])
  end.

(** One item: the post is built with the reading of the clock as
    [scraped_at], then stored. *)
Definition collect_item (E : env) (fault : nat -> option exn) (shown : string)
    (build : value -> document)
    (acc : list document * raw_store * list collector_log)
  : list document * raw_store * list collector_log :=
  let st := snd (fst acc) in
  let scraped_at := VDate (now E (rs_clock_reads st)) in
  let st1 := {| rs_docs := rs_docs st; rs_indexes := rs_indexes st;
                rs_next_oid := rs_next_oid st;
                rs_clock_reads := S (rs_clock_reads st);
                rs_inserts := rs_inserts st |} in
  try_insert fault shown (build scraped_at) (fst (fst acc), st1, snd acc).

(** Every unique index holds on the store. *)
Definition indexes_hold (st : raw_store) : Prop :=
  Forall (fun ix => NoDup (map (index_key ix) (rs_docs st))) (rs_indexes st).

(** The document has the key of a stored document on a unique index. *)
Definition covered (st : raw_store) (d : document) : Prop :=
  exists ix d', (ix ∈ rs_indexes st) /\ (d' ∈ rs_docs st)
                /\ index_key ix d' = index_key ix d.

(** The post an item gives is known to the store whatever the time of
    collection and the ObjectId. *)
Definition known (st : raw_store) (build : value -> document) : Prop :=
  forall t oid, covered st (<["_id" := VOid oid]> (build t)).

(** The time of collection only shows in the field [scraped_at]. *)
Definition stamped (build : value -> document) : Prop :=
  forall t t' f, f <> "scraped_at" -> build t !! f = build t' !! f.

(** There is a unique index, and none is on [_id] or [scraped_at]. *)
Definition keyed_by_content (st : raw_store) : Prop :=
  rs_indexes st <> []
  /\ Forall (fun ix => ("_id" ∉ ix) /\ ("scraped_at" ∉ ix)) (rs_indexes st).

(** The loop over the items of a listing, an item that is skipped being
    [None]. *)
Definition collect_all (E : env) (fault : nat -> option exn)
    (items : list (option (string * (value -> document))))
    (acc : list document * raw_store * list collector_log)
  : list document * raw_store * list collector_log :=
  fold_left
    (fun acc item =>
       match item with
       | Some (shown, build) => collect_item E fault shown build acc
       | None => acc
       end)
    items acc.

End Collector.

Module Reddit.

(** The attributes of a submission that the scraper reads. *)
Record submission : Type := {
  s_title : string;
  s_selftext : string;
  s_author : option string;          (* None: the account is deleted *)
  s_created_utc : Z;
  s_permalink : string;
  s_score : Z;
  s_id : string
}.

(** The platform: [subreddit name] is the exception raised by the look-up
    of the subreddit, if any; [listing name sort limit] is what the listing
    yields, followed by the exception that ends it, if any. *)
Record api : Type := {
  subreddit : string -> option exn;
  listing : string -> string -> nat -> list submission * option exn
}.

Definition valid_sort (sort_by : string) : bool :=
  String.eqb sort_by "hot" || String.eqb sort_by "new"
  || String.eqb sort_by "top" || String.eqb sort_by "rising".

(** The dictionary [post]. *)
Definition post (subreddit_name : string) (s : submission) (scraped_at : value)
  : document :=
  {[ "title" := VStr (s_title s);
     "content" := VStr (s_selftext s);
     "author" := VStr (match s_author s with Some a => a | None => "unknown" end);
     "date" := VDate (s_created_utc s);
     "url" := VStr ("https://www.reddit.com" ++ s_permalink s);
     "subreddit" := VStr subreddit_name;
     "score" := VFloat (inject_Z (s_score s));
     "source" := VStr "reddit";
     "post_id" := VStr (s_id s);
     "scraped_at" := scraped_at ]}.

(** [__init__] *)
Definition init (st : Collector.raw_store) : option Collector.raw_store :=
  Collector.create_index ["url"] st.

Section WithPlatform.
Variable P : api.
Variable E : env.
Variable fault : nat -> option exn.

Definition scrape_subreddit (subreddit_name : string) (limit : nat) (sort_by : string)
    (st : Collector.raw_store)
  : list document * Collector.raw_store * list Collector.collector_log :=
  let log := [Collector.InfoScraping limit subreddit_name] in
  match subreddit P subreddit_name with
  | Some e => ([], st, log ++ [Collector.ErrScraping subreddit_name e])
  | None =>
      if valid_sort sort_by then
        let submissions := listing P subreddit_name sort_by limit in
        let acc :=
          fold_left
            (fun acc s =>
               Collector.collect_item E fault (prefix 50 (s_title s))
                 (post subreddit_name s) acc)
            (fst submissions) ([], st, log) in
        match snd submissions with
        | Some e =>
            ([], snd (fst acc), snd acc ++ [Collector.ErrScraping subreddit_name e])
        | None =>
            (fst (fst acc), snd (fst acc),
             snd acc ++ [Collector.InfoScraped (length (fst (fst acc))) subreddit_name])
        end
      else ([], st, log ++ [Collector.ErrInvalidSort sort_by])
  end.

(** The state of the loop is the dictionary [results], the store and the
    log. *)
Definition scrape_multiple_subreddits (subreddit_names : list string) (limit : nat)
    (sort_by : string) (st : Collector.raw_store)
  : gmap string (list document) * Collector.raw_store * list Collector.collector_log :=
  fold_left
    (fun acc subreddit_name =>
       let r := scrape_subreddit subreddit_name limit sort_by (snd (fst acc)) in
       (<[subreddit_name := fst (fst r)]> (fst (fst acc)), snd (fst r),
        snd acc ++ [Collector.InfoScrapingOne subreddit_name] ++ snd r))
    subreddit_names (∅, st, []).

End WithPlatform.
End Reddit.

Module Telegram.

(** The attributes of a message that the scraper reads. *)
Record message : Type := {
  m_message : option string;         (* None: a service message *)
  m_from_user_id : option Z;         (* None: from_id has no user_id *)
  m_date : Z;
  m_id : Z
}.

(** The platform: how the connection goes, and the messages of the history
    of a group, unless the look-up of the group or the request raises. *)
Inductive connect_result : Type :=
| Connected
| ClientFailed (e : exn)             (* TelegramClient(...) raises *)
| StartFailed (e : exn).             (* client.start(...) raises *)

Record api : Type := {
  connecting : connect_result;
  history : string -> nat -> outcome (list message)
}.

(** [message.message] is neither None nor empty. *)
Definition has_text (m : message) : bool :=
  match m_message m with
  | Some s => negb (String.eqb s "")
  | None => false
  end.

(** The dictionary [post]. *)
Definition post (group_username : string) (m : message) (scraped_at : value)
  : document :=
  {[ "title" := VStr "";
     "content" := VStr (default "" (m_message m));
     "author" := VStr (match m_from_user_id m with
                       | Some uid => "user_" ++ pretty uid
                       | None => "unknown"
                       end);
     "date" := VDate (m_date m);
     "url" := VStr ("https://t.me/" ++ group_username ++ "/" ++ pretty (m_id m));
     "source" := VStr "telegram";
     "post_id" := VStr (pretty (m_id m));
     "group" := VStr group_username;
     "scraped_at" := scraped_at ]}.

(** [__init__] *)
Definition init (st : Collector.raw_store) : option Collector.raw_store :=
  Collector.create_index ["source"; "post_id"] st.

Section WithPlatform.
Variable P : api.
Variable E : env.
Variable fault : nat -> option exn.

(** [connect]: whether [self.client] is set afterwards, the exception that
    is raised again, if any, and the log. *)
Definition connect : bool * option exn * list Collector.collector_log :=
  match connecting P with
  | Connected => (true, None, [Collector.InfoConnected])
  | ClientFailed e => (false, Some e, [Collector.ErrConnect e])
  | StartFailed e => (true, Some e, [Collector.ErrConnect e])
  end.

(** [if not self.client: await self.connect()] *)
Definition ensure_client (client : bool)
  : bool * option exn * list Collector.collector_log :=
  if client then (true, None, []) else connect.

(** [scrape_group] once the client is there. *)
Definition scrape_connected (group_username : string) (limit : nat)
    (st : Collector.raw_store)
  : list document * Collector.raw_store * list Collector.collector_log :=
  let log := [Collector.InfoScraping limit group_username] in
  match history P group_username limit with
  | Raises e => ([], st, log ++ [Collector.ErrScraping group_username e])
  | Returns messages =>
      let acc :=
        fold_left
          (fun acc m =>
             if has_text m
             then Collector.collect_item E fault (prefix 50 (default "" (m_message m)))
                    (post group_username m) acc
             else acc)
          messages ([], st, log) in
      (fst (fst acc), snd (fst acc),
       snd acc ++ [Collector.InfoScraped (length (fst (fst acc))) group_username])
  end.

(** [client] tells whether [self.client] is set; the result carries the new
    value of that attribute. *)
Definition scrape_group (client : bool) (group_username : string) (limit : nat)
    (st : Collector.raw_store)
  : outcome (list document) * bool * Collector.raw_store
    * list Collector.collector_log :=
  let c := ensure_client client in
  match snd (fst c) with
  | Some e => (Raises e, fst (fst c), st, snd c)
  | None =>
      let r := scrape_connected group_username limit st in
      (Returns (fst (fst r)), fst (fst c), snd (fst r), snd c ++ snd r)
  end.

(** The loop of [scrape_multiple_groups]: its state is the dictionary
    [results] unless a call has raised, the attribute [self.client], the
    store and the log. *)
Definition scrape_groups (group_usernames : list string) (limit : nat)
    (acc : outcome (gmap string (list document)) * bool * Collector.raw_store
           * list Collector.collector_log)
  : outcome (gmap string (list document)) * bool * Collector.raw_store
    * list Collector.collector_log :=
  fold_left
    (fun acc group_username =>
       match fst (fst (fst acc)) with
       | Raises e => acc
       | Returns results =>
           let r := scrape_group (snd (fst (fst acc))) group_username limit
                      (snd (fst acc)) in
           let log := snd acc ++ [Collector.InfoScrapingOne group_username] ++ snd r in
           match fst (fst (fst r)) with
           | Raises e => (Raises e, snd (fst (fst r)), snd (fst r), log)
           | Returns messages =>
               (Returns (<[group_username := messages]> results),
                snd (fst (fst r)), snd (fst r), log)
           end
       end)
    group_usernames acc.

Definition scrape_multiple_groups (client : bool) (group_usernames : list string)
    (limit : nat) (st : Collector.raw_store)
  : outcome (gmap string (list document)) * bool * Collector.raw_store
    * list Collector.collector_log :=
  let c := ensure_client client in
  match snd (fst c) with
  | Some e => (Raises e, fst (fst c), st, snd c)
  | None => scrape_groups group_usernames limit (Returns ∅, fst (fst c), st, snd c)
  end.

End WithPlatform.
End Telegram.

(** There is a unique index, and each is on fields among [title],
    [source] and [post_id], as the one the Telegram collector creates. *)
Definition keyed_by_message_id (st : Collector.raw_store) : Prop :=
  Collector.rs_indexes st <> []
  /\ Forall (fun ix => forall f, f ∈ ix -> f ∈ ["title"; "source"; "post_id"])
       (Collector.rs_indexes st).

(** The loops of the collectors, as lists of items. *)
Definition reddit_items (subreddit_name : string) (submissions : list Reddit.submission)
  : list (option (string * (value -> document))) :=
  map (fun s => Some (prefix 50 (Reddit.s_title s), Reddit.post subreddit_name s))
    submissions.

Definition telegram_items (group_username : string) (messages : list Telegram.message)
  : list (option (string * (value -> document))) :=
  map (fun m => if Telegram.has_text m
                then Some (prefix 50 (default "" (Telegram.m_message m)),
                           Telegram.post group_username m)
                else None)
    messages.

(** Example stores and platforms. *)
Definition empty_store (indexes : list (list string)) : Collector.raw_store :=
  {| Collector.rs_docs := []; Collector.rs_indexes := indexes;
     Collector.rs_next_oid := 0; Collector.rs_clock_reads := 0;
     Collector.rs_inserts := 0 |}.

Definition submission_1 : Reddit.submission :=
  {| Reddit.s_title := "first"; Reddit.s_selftext := "text";
     Reddit.s_author := Some "alice"; Reddit.s_created_utc := 100;
     Reddit.s_permalink := "/r/rust/1"; Reddit.s_score := 3; Reddit.s_id := "1" |}.

Definition submission_2 : Reddit.submission :=
  {| Reddit.s_title := "second"; Reddit.s_selftext := "";
     Reddit.s_author := None; Reddit.s_created_utc := 200;
     Reddit.s_permalink := "/r/rust/2"; Reddit.s_score := 0; Reddit.s_id := "2" |}.

Definition reddit_up : Reddit.api :=
  {| Reddit.subreddit := fun _ => None;
     Reddit.listing := fun _ _ _ => ([submission_1; submission_2; submission_1], None) |}.

Definition reddit_breaks : Reddit.api :=
  {| Reddit.subreddit := fun _ => None;
     Reddit.listing := fun _ _ _ => ([submission_1], Some (OtherException "503")) |}.

Definition message_1 : Telegram.message :=
  {| Telegram.m_message := Some "hello"; Telegram.m_from_user_id := Some 42%Z;
     Telegram.m_date := 100; Telegram.m_id := 7 |}.

Definition message_joined : Telegram.message :=
  {| Telegram.m_message := None; Telegram.m_from_user_id := None;
     Telegram.m_date := 150; Telegram.m_id := 8 |}.

Definition message_other_group : Telegram.message :=
  {| Telegram.m_message := Some "bye"; Telegram.m_from_user_id := None;
     Telegram.m_date := 300; Telegram.m_id := 7 |}.

Definition telegram_up : Telegram.api :=
  {| Telegram.connecting := Telegram.Connected;
     Telegram.history := fun group _ =>
       if String.eqb group "first_group"
       then Returns [message_1; message_joined]
       else Returns [message_other_group] |}.

Definition telegram_down : Telegram.api :=
  {| Telegram.connecting := Telegram.StartFailed (OtherException "no network");
     Telegram.history := fun _ _ => Raises (OtherException "disconnected") |}.

Definition no_fault : nat -> option exn := fun _ => None.

(** * Properties *)

(** ** The text transform *)

Lemma sub_scan_special (s : string) :
  Text.sub_scan Text.match_special 0 s
  = keep_chars (fun c => Text.is_ascii_letter c || Text.is_space c) s.
Proof.
  induction s as [|c r IH]; simpl; [reflexivity|].
  destruct (Text.is_ascii_letter c || Text.is_space c); simpl; rewrite IH; reflexivity.
Qed.

Lemma keep_token_spec (E : env) (tokens : list string) :
  List.filter (TextPreprocessor.keep_token E) tokens
  = filter (fun t => ¬ (t ∈ stop_words E ∨ String.length t <= 2)) tokens.
Proof.
  induction tokens as [|t r IH]; [reflexivity|].
  simpl. rewrite filter_cons, <- IH. unfold TextPreprocessor.keep_token.
  destruct (decide (¬ (t ∈ stop_words E ∨ String.length t <= 2))) as [H|H].
  - rewrite bool_decide_eq_true_2 by tauto.
    destruct (Nat.ltb_spec 2 (String.length t)); [reflexivity | exfalso; tauto].
  - destruct (decide (t ∈ stop_words E)) as [Hin|Hin].
    + rewrite bool_decide_eq_false_2 by tauto. reflexivity.
    + destruct (Nat.ltb_spec 2 (String.length t)); [exfalso; apply H; intros [?|?]; [tauto | lia]|].
      rewrite andb_false_r. reflexivity.
Qed.

(** *** The code against the transform of the specification *)

Lemma is_space_whitespace (c : ascii) : Text.is_space c = Clean.is_whitespace c.
Proof. destruct c as [[] [] [] [] [] [] [] []]; vm_compute; reflexivity. Qed.

Lemma is_ascii_letter_letter (c : ascii) : Text.is_ascii_letter c = Clean.is_letter c.
Proof. destruct c as [[] [] [] [] [] [] [] []]; vm_compute; reflexivity. Qed.

Lemma lower_char_to_lower (c : ascii) : Text.lower_char c = Clean.to_lower c.
Proof. destruct c as [[] [] [] [] [] [] [] []]; vm_compute; reflexivity. Qed.

Lemma lower_lowercase (s : string) : Text.lower s = Clean.lowercase s.
Proof.
  induction s as [|c r IH]; [reflexivity|].
  cbn [Text.lower Clean.lowercase]. rewrite lower_char_to_lower, IH. reflexivity.
Qed.

Lemma closes_tag_close (s : string) :
  Clean.closes s = match Text.tag_close s with Some _ => true | None => false end.
Proof.
  induction s as [|c r IH]; [reflexivity|].
  cbn [Clean.closes Text.tag_close].
  destruct (Ascii.eqb c ">"); [reflexivity|].
  destruct (Ascii.eqb c "010"); [reflexivity|].
  rewrite IH. destruct (Text.tag_close r); reflexivity.
Qed.

(** The scan that counts the characters of a match still to delete agrees
    with the scan that remembers being inside a tag. *)
Lemma sub_scan_strip_tags (s : string) :
  Text.sub_scan Text.match_tag 0 s = Clean.strip_tags false s /\
  (forall k, Text.tag_close s = Some k ->
             Text.sub_scan Text.match_tag k s = Clean.strip_tags true s).
Proof.
  induction s as [|c r [IH0 IHk]]; [split; [reflexivity|discriminate]|].
  split.
  - cbn [Text.sub_scan Text.match_tag Clean.strip_tags].
    rewrite closes_tag_close.
    destruct (Ascii.eqb c "<"); cbn [andb]; [|rewrite IH0; reflexivity].
    destruct (Text.tag_close r) as [k|] eqn:Hk; cbn [fmap option_fmap option_map].
    + apply IHk. reflexivity.
    + rewrite IH0. reflexivity.
  - intros k. cbn [Text.tag_close Clean.strip_tags].
    destruct (Ascii.eqb c ">").
    + intros [= <-]. cbn [Text.sub_scan]. exact IH0.
    + destruct (Ascii.eqb c "010"); [discriminate|].
      destruct (Text.tag_close r) as [k'|] eqn:Hk;
        cbn [fmap option_fmap option_map]; [|discriminate].
      intros [= <-]. cbn [Text.sub_scan]. apply IHk. reflexivity.
Qed.

Lemma get_succ (n : nat) (c : ascii) (s : string) :
  String.get (S n) (String c s) = String.get n s.
Proof. reflexivity. Qed.

(** [lit\S+] matches at the head of [s] exactly when [s] starts as a URL
    on [lit], and then it takes the whole run up to the next white space. *)
Lemma match_lit_run_url_head (lit s : string) :
  all_chars (fun a => negb (Text.is_space a)) lit = true ->
  Text.match_lit_run lit s
  = if Clean.url_head lit s then Some (Text.nonspace_run s) else None.
Proof.
  revert s. induction lit as [|a lit IH]; intros s Hlit.
  - unfold Text.match_lit_run, Clean.url_head. cbn [Text.strip_prefix String.length].
    destruct s as [|c r]; [reflexivity|].
    cbn [Text.nonspace_run String.prefix String.get andb].
    rewrite <- is_space_whitespace. destruct (Text.is_space c); reflexivity.
  - cbn [all_chars] in Hlit. apply andb_prop in Hlit as [Ha Hlit].
    specialize (IH) as IH'. unfold Text.match_lit_run, Clean.url_head in *.
    destruct s as [|b r]; [reflexivity|].
    cbn [Text.strip_prefix String.prefix String.length].
    rewrite get_succ.
    destruct (Ascii.eqb_spec a b) as [<-|Hne].
    + destruct (ascii_dec a a) as [_|Hc]; [|contradiction].
      specialize (IH' r Hlit). cbn [Text.nonspace_run].
      apply negb_true_iff in Ha. rewrite Ha.
      destruct (Text.strip_prefix lit r) as [rest|].
      * destruct (Text.nonspace_run rest) as [|n];
          destruct (String.prefix lit r && _); try discriminate; try reflexivity.
        injection IH' as IH'. rewrite <- IH'. reflexivity.
      * destruct (String.prefix lit r && _); [discriminate|reflexivity].
    + destruct (ascii_dec a b) as [Heq|_]; [contradiction|]. reflexivity.
Qed.

Lemma match_url_starts_url (s : string) :
  Text.match_url s = if Clean.starts_url s then Some (Text.nonspace_run s) else None.
Proof.
  unfold Text.match_url, Clean.starts_url.
  rewrite !match_lit_run_url_head by reflexivity.
  destruct (Clean.url_head "http" s); [reflexivity|].
  destruct (Clean.url_head "www" s); reflexivity.
Qed.

Lemma starts_url_not_space (c : ascii) (r : string) :
  Clean.is_whitespace c = true -> Clean.starts_url (String c r) = false.
Proof.
  destruct c as [[] [] [] [] [] [] [] []]; intros H; try discriminate H; reflexivity.
Qed.

(** The scan that counts the characters of a match still to delete agrees
    with the scan that remembers being inside a URL. *)
Lemma sub_scan_strip_urls (s : string) :
  Text.sub_scan Text.match_url 0 s = Clean.strip_urls false s /\
  Text.sub_scan Text.match_url (Text.nonspace_run s) s = Clean.strip_urls true s.
Proof.
  induction s as [|c r [IH0 IHk]]; [split; reflexivity|].
  assert (H0 : Text.sub_scan Text.match_url 0 (String c r)
               = Clean.strip_urls false (String c r)).
  { cbn [Text.sub_scan Clean.strip_urls]. rewrite match_url_starts_url.
    destruct (Clean.starts_url (String c r)) eqn:Hs.
    - cbn [Text.nonspace_run]. rewrite is_space_whitespace.
      destruct (Clean.is_whitespace c) eqn:Hc.
      + rewrite (starts_url_not_space c r Hc) in Hs. discriminate.
      + exact IHk.
    - rewrite IH0. reflexivity. }
  split; [exact H0|].
  cbn [Text.nonspace_run Clean.strip_urls]. rewrite is_space_whitespace.
  destruct (Clean.is_whitespace c) eqn:Hc.
  - rewrite H0. cbn [Clean.strip_urls]. rewrite (starts_url_not_space c r Hc).
    reflexivity.
  - cbn [Text.sub_scan]. exact IHk.
Qed.

Lemma keep_chars_ext (p q : ascii -> bool) (s : string) :
  (forall c, p c = q c) -> keep_chars p s = keep_chars q s.
Proof.
  intros H. induction s as [|c r IH]; [reflexivity|].
  cbn [keep_chars]. rewrite H, IH. reflexivity.
Qed.

Lemma tokens_head (c : ascii) (r : string) :
  Clean.is_whitespace c = false -> Clean.tokens (String c r) <> [].
Proof.
  intros Hc. cbn [Clean.tokens]. rewrite Hc.
  destruct r as [|c' r']; [discriminate|].
  destruct (Clean.is_whitespace c'); [discriminate|].
  destruct (Clean.tokens (String c' r')); discriminate.
Qed.

Lemma append_char_assoc (cur : string) (c : ascii) (t : string) :
  ((cur ++ String c "") ++ t)%string = (cur ++ String c t)%string.
Proof.
  induction cur as [|a cur IH]; [reflexivity|].
  change (String a ((cur ++ String c "") ++ t) = String a (cur ++ String c t))%string.
  f_equal. exact IH.
Qed.

(** [split_from cur s]: the tokens of [s], the first of them continuing
    [cur] when [s] does not start with white space. *)
Lemma split_from_tokens (s : string) :
  forall cur,
    Text.split_from cur s
    = match s with
      | String c _ =>
          if Clean.is_whitespace c
          then (if String.eqb cur "" then Clean.tokens s else cur :: Clean.tokens s)
          else match Clean.tokens s with
               | t :: ts => (cur ++ t)%string :: ts
               | [] => []
               end
      | EmptyString => if String.eqb cur "" then [] else [cur]
      end.
Proof.
  induction s as [|c r IH]; intros cur; [reflexivity|].
  cbn [Text.split_from]. rewrite is_space_whitespace.
  destruct (Clean.is_whitespace c) eqn:Hc.
  - assert (Hr : Text.split_from "" r = Clean.tokens r).
    { rewrite IH. destruct r as [|c' r']; [reflexivity|].
      destruct (Clean.is_whitespace c'); [reflexivity|].
      destruct (Clean.tokens (String c' r')); reflexivity. }
    rewrite Hr. cbn [Clean.tokens]. rewrite Hc. reflexivity.
  - rewrite IH. cbn [Clean.tokens]. rewrite Hc.
    assert (Hne : forall t, String.eqb (cur ++ String c t) "" = false).
    { intros t. destruct cur; reflexivity. }
    destruct r as [|c' r'].
    + rewrite Hne. reflexivity.
    + destruct (Clean.is_whitespace c') eqn:Hc'.
      * rewrite Hne. reflexivity.
      * pose proof (tokens_head c' r' Hc') as Hnil.
        destruct (Clean.tokens (String c' r')) as [|t ts]; [contradiction|].
        rewrite append_char_assoc. reflexivity.
Qed.

Lemma split_tokens (s : string) : Text.split s = Clean.tokens s.
Proof.
  unfold Text.split. rewrite split_from_tokens.
  destruct s as [|c r]; [reflexivity|].
  destruct (Clean.is_whitespace c) eqn:Hc; [reflexivity|].
  pose proof (tokens_head c r Hc).
  destruct (Clean.tokens (String c r)); [contradiction|reflexivity].
Qed.

Lemma join_space_concat (l : list string) : Text.join_space l = String.concat " " l.
Proof.
  induction l as [|t r IH]; [reflexivity|].
  cbn [Text.join_space String.concat]. destruct r; [reflexivity|].
  rewrite IH. reflexivity.
Qed.

Lemma preprocess_text_is_clean (E : env) (text : value) :
  TextPreprocessor.preprocess_text E text = Clean.clean (stop_words E) (lemmatize E) text.
Proof.
  destruct text as [|s| | |]; try reflexivity.
  unfold TextPreprocessor.preprocess_text, Clean.clean.
  destruct (String.eqb s ""); [reflexivity|]. cbv zeta.
  unfold TextPreprocessor.remove_special_chars, TextPreprocessor.remove_urls,
    TextPreprocessor.remove_html, Text.re_sub_empty.
  rewrite lower_lowercase, (proj1 (sub_scan_strip_tags _)),
    (proj1 (sub_scan_strip_urls _)), sub_scan_special, keep_token_spec,
    split_tokens, join_space_concat.
  unfold Clean.letters_only.
  rewrite (keep_chars_ext _ (fun c => Clean.is_letter c || Clean.is_whitespace c));
    [reflexivity|].
  intros c. rewrite is_ascii_letter_letter, is_space_whitespace. reflexivity.
Qed.

Lemma preprocess_text_depends_on (E1 E2 : env) (text : value) :
  stop_words E1 = stop_words E2 ->
  (forall t, lemmatize E1 t = lemmatize E2 t) ->
  TextPreprocessor.preprocess_text E1 text = TextPreprocessor.preprocess_text E2 text.
Proof.
  intros Hs Hl. rewrite !preprocess_text_is_clean, Hs.
  destruct text as [|s| | |]; try reflexivity.
  unfold Clean.clean. destruct (String.eqb s ""); [reflexivity|]. cbv zeta.
  f_equal. apply map_ext. intros t. apply Hl.
Qed.

(** C2.  The text transform of the Normalizer is the transform [clean] of
    the specification: the empty string for a text that is empty or no
    text, and otherwise, in this order, lowercase, strip tag spans, strip
    URL-shaped substrings, keep only ASCII letters and white space, split
    on white space, drop stop words and tokens of length at most 2,
    lemmatize, join with single spaces.  It is a function of the text, the
    stop-word set and the lemmatizer alone.  With stop words am, a, the: on
    the text of the repository's test it gives "hello world running store"
    when the lemmatizer leaves every token alone and "hello world run
    store" when it maps running to run; on the two texts of the end-to-end
    scenario it gives "test html" and "bad stuff"; a URL in capital letters
    goes, because the text is lowercased first; and tags go before URLs. *)
Theorem preprocess_text_step_order :
  (forall (E : env) (text : value),
      TextPreprocessor.preprocess_text E text
      = Clean.clean (stop_words E) (lemmatize E) text) /\
  (forall (E1 E2 : env) (text : value),
      stop_words E1 = stop_words E2 ->
      (forall t, lemmatize E1 t = lemmatize E2 t) ->
      TextPreprocessor.preprocess_text E1 text
      = TextPreprocessor.preprocess_text E2 text) /\
  (forall E : env,
      stop_words E = {[ "am"; "a"; "the" ]} ->
      (forall t, lemmatize E t = t) ->
      TextPreprocessor.preprocess_text E
        (VStr "<p>Hello, world! I am running to the store.</p>")
      = "hello world running store" /\
      TextPreprocessor.preprocess_text E (VStr "Test <b>HTML</b>") = "test html" /\
      TextPreprocessor.preprocess_text E (VStr "Bad http://x.co stuff!!") = "bad stuff" /\
      TextPreprocessor.preprocess_text E (VStr "Look at WWW.Site.ORG/page?x=1 today")
      = "look today" /\
      TextPreprocessor.preprocess_text E (VStr "http://a<b c>word") = "") /\
  (forall E : env,
      stop_words E = {[ "am"; "a"; "the" ]} ->
      (forall t, lemmatize E t = running_to_run t) ->
      TextPreprocessor.preprocess_text E
        (VStr "<p>Hello, world! I am running to the store.</p>")
      = "hello world run store").
Proof.
  split; [exact preprocess_text_is_clean|].
  split; [exact preprocess_text_depends_on|].
  split; intros E Hs Hl.
  - rewrite !(preprocess_text_depends_on E
                {| stop_words := {[ "am"; "a"; "the" ]}; lemmatize := fun t => t;
                   detect := detect E; blob_polarity := blob_polarity E; now := now E;
                   update_fault := update_fault E; bulk := bulk E |} _ Hs Hl).
    repeat split; vm_compute; reflexivity.
  - rewrite (preprocess_text_depends_on E
               {| stop_words := {[ "am"; "a"; "the" ]}; lemmatize := running_to_run;
                  detect := detect E; blob_polarity := blob_polarity E; now := now E;
                  update_fault := update_fault E; bulk := bulk E |} _ Hs Hl).
    vm_compute. reflexivity.
Qed.

Lemma preprocess_text_step_order_witness :
  TextPreprocessor.preprocess_text quiet_env
    (VStr "<p>Hello, world! I am running to the store.</p>")
  = "hello world run store".
Proof.
  apply (proj2 (proj2 (proj2 preprocess_text_step_order)) quiet_env).
  - reflexivity.
  - intros t. reflexivity.
Defined.

(** The cases of test_preprocessing.py for the three regular expressions. *)
Example remove_html_cases :
  TextPreprocessor.remove_html (VStr "<div>This is <b>bold</b> text</div>")
  = "This is bold text" /\
  TextPreprocessor.remove_html VNone = "" /\
  TextPreprocessor.remove_html (VFloat 123) = "".
Proof. repeat split; reflexivity. Qed.

Example remove_urls_cases :
  TextPreprocessor.remove_urls
    (VStr "Visit http://example.com or https://github.com/test for more info")
  = "Visit  or  for more info" /\
  TextPreprocessor.remove_urls VNone = "".
Proof. repeat split; reflexivity. Qed.

Example remove_special_chars_cases :
  TextPreprocessor.remove_special_chars (VStr "Hello, world! This is a test. 123")
  = "Hello world This is a test ".
Proof. reflexivity. Qed.

(** A tag that does not close on its line is kept; a URL ends at the first
    white space. *)
Example regex_edge_cases :
  Text.re_sub_empty Text.match_tag (String "a" (String "<" (String "010" ">b")))
  = String "a" (String "<" (String "010" ">b")) /\
  Text.re_sub_empty Text.match_tag "a < b > c" = "a  c" /\
  Text.re_sub_empty Text.match_url "see www.x.org/a?b=1 now http" = "see  now http".
Proof. repeat split; reflexivity. Qed.

(** The end-to-end document of the specification through the Normalizer. *)
Example process_document_case :
  TextPreprocessor.process_document quiet_env
    {[ "title" := VStr "Test <b>HTML</b>";
       "content" := VStr "Bad http://x.co stuff!!";
       "url" := VStr "u1" ]}
  = {[ "title" := VStr "test html"; "content" := VStr "bad stuff";
       "author" := VStr "unknown"; "date" := VNone; "url" := VStr "u1" ]}.
Proof. vm_compute. reflexivity. Qed.

(** ** Sentiment thresholds *)

Lemma Qlt_bool_iff (x y : Q) : Qlt_bool x y = true <-> (x < y)%Q.
Proof.
  unfold Qlt_bool. rewrite negb_true_iff. split.
  - intros H. apply Qnot_le_lt. intros Hle. apply Qle_bool_iff in Hle. congruence.
  - intros H. destruct (Qle_bool y x) eqn:Hb; [|reflexivity].
    apply Qle_bool_iff in Hb. exfalso. exact (Qlt_not_le _ _ H Hb).
Qed.

Lemma Qlt_bool_false_iff (x y : Q) : Qlt_bool x y = false <-> (y <= x)%Q.
Proof.
  unfold Qlt_bool. rewrite negb_false_iff. apply Qle_bool_iff.
Qed.

Lemma float_0_1_pos : (- float_0_1 < float_0_1)%Q.
Proof. reflexivity. Qed.

(** Whatever the text, a result that is returned carries the label its
    polarity commands. *)
Lemma analyze_sentiment_label (E : env) (text : value) (language : string)
    (r : sentiment_result) :
  NLPProcessor.analyze_sentiment E text language = Returns r ->
  (sentiment r = "positive" <-> (float_0_1 < polarity r)%Q) /\
  (sentiment r = "negative" <-> (polarity r < - float_0_1)%Q) /\
  (sentiment r = "neutral" <-> (- float_0_1 <= polarity r <= float_0_1)%Q).
Proof.
  unfold NLPProcessor.analyze_sentiment.
  destruct (negb (truthy text)).
  - intros [= <-]. simpl. repeat split; try discriminate; try reflexivity.
  - destruct text as [|s| | |]; try discriminate.
    destruct (blob_polarity E s) as [p|e]; [|discriminate].
    intros [= <-]. simpl.
    destruct (Qlt_bool float_0_1 p) eqn:Hpos.
    + apply Qlt_bool_iff in Hpos.
      repeat split; try discriminate; try (intros; reflexivity); try (intros; assumption).
      * intros Hneg. exfalso.
        apply (Qlt_irrefl p). eapply Qlt_trans; [exact Hneg|].
        eapply Qlt_trans; [exact float_0_1_pos | exact Hpos].
      * intros [_ Hle]. exfalso. exact (Qlt_not_le _ _ Hpos Hle).
    + apply Qlt_bool_false_iff in Hpos.
      destruct (Qlt_bool p (- float_0_1)) eqn:Hneg.
      * apply Qlt_bool_iff in Hneg.
        repeat split; try discriminate; try (intros; reflexivity); try (intros; assumption).
        -- intros H. exfalso. exact (Qlt_not_le _ _ H Hpos).
        -- intros [Hle _]. exfalso. exact (Qlt_not_le _ _ Hneg Hle).
      * apply Qlt_bool_false_iff in Hneg.
        repeat split; try discriminate; try (intros; reflexivity); try (intros; assumption).
        -- intros H. exfalso. exact (Qlt_not_le _ _ H Hpos).
        -- intros H. exfalso. exact (Qlt_not_le _ _ H Hneg).
Qed.

Lemma analyze_sentiment_returns (E : env) (s language : string) (p : Q) :
  s <> "" -> blob_polarity E s = Returns p ->
  exists label,
    NLPProcessor.analyze_sentiment E (VStr s) language
    = Returns {| polarity := p; sentiment := label |}.
Proof.
  intros Hs Hp. unfold NLPProcessor.analyze_sentiment. simpl.
  destruct (String.eqb_spec s "") as [->|_]; [congruence|]. simpl.
  rewrite Hp. eexists. reflexivity.
Qed.

(** C3.  The label is decided by the polarity alone, with the two fixed
    thresholds: positive exactly when the polarity exceeds 0.1, negative
    exactly when it is below -0.1, neutral exactly in between, both bounds
    included.  So a polarity equal to 0.1 or to -0.1 is neutral and
    0.1000001 is positive, whether the numbers are read as decimals or as
    the floats nearest to them.  Empty content gives polarity 0 and the
    label neutral without consulting the model. *)
Theorem analyze_sentiment_thresholds (E : env) (language : string) :
  NLPProcessor.analyze_sentiment E (VStr "") language
  = Returns {| polarity := 0; sentiment := "neutral" |} /\
  (forall (text : value) (r : sentiment_result),
      NLPProcessor.analyze_sentiment E text language = Returns r ->
      (sentiment r = "positive" <-> (float_0_1 < polarity r)%Q) /\
      (sentiment r = "negative" <-> (polarity r < - float_0_1)%Q) /\
      (sentiment r = "neutral" <-> (- float_0_1 <= polarity r <= float_0_1)%Q)) /\
  (forall (s : string) (p : Q),
      s <> "" -> blob_polarity E s = Returns p ->
      exists label,
        NLPProcessor.analyze_sentiment E (VStr s) language
        = Returns {| polarity := p; sentiment := label |} /\
        ((p == float_0_1)%Q -> label = "neutral") /\
        ((p == - float_0_1)%Q -> label = "neutral") /\
        ((p == 1 # 10)%Q -> label = "neutral") /\
        ((p == - (1 # 10))%Q -> label = "neutral") /\
        ((p == 1000001 # 10000000)%Q -> label = "positive") /\
        ((p == 7205766609552197 # 72057594037927936)%Q -> label = "positive")).
Proof.
  split; [reflexivity|].
  split; [intros text r; apply analyze_sentiment_label|].
  intros s p Hs Hp.
  destruct (analyze_sentiment_returns E s language p Hs Hp) as [label Hr].
  exists label. split; [exact Hr|].
  destruct (analyze_sentiment_label E _ _ _ Hr) as (Hpos & _ & Hneu).
  simpl in Hpos, Hneu.
  repeat split; intros Heq.
  - apply Hneu. rewrite Heq. split; discriminate.
  - apply Hneu. rewrite Heq. split; discriminate.
  - apply Hneu. rewrite Heq. split; discriminate.
  - apply Hneu. rewrite Heq. split; discriminate.
  - apply Hpos. rewrite Heq. reflexivity.
  - apply Hpos. rewrite Heq. reflexivity.
Qed.

Lemma analyze_sentiment_thresholds_witness :
  exists label,
    NLPProcessor.analyze_sentiment quiet_env (VStr "fine words") "en"
    = Returns {| polarity := 0; sentiment := label |} /\ label = "neutral".
Proof.
  destruct (proj2 (proj2 (analyze_sentiment_thresholds quiet_env "en"))
              "fine words" 0%Q) as (label & Hr & _).
  - discriminate.
  - reflexivity.
  - exists label. split; [exact Hr|].
    destruct (proj1 (proj2 (analyze_sentiment_thresholds quiet_env "en")) _ _ Hr)
      as (_ & _ & Hneu).
    apply Hneu. simpl. split; discriminate.
Defined.

(** C9.  The language argument has no influence on the sentiment analysis:
    polarity and label are the same for any two languages. *)
Theorem analyze_sentiment_ignores_language (E : env) (text : value) (l1 l2 : string) :
  NLPProcessor.analyze_sentiment E text l1 = NLPProcessor.analyze_sentiment E text l2.
Proof.
  unfold NLPProcessor.analyze_sentiment.
  destruct (negb (truthy text)); [reflexivity|].
  destruct text; reflexivity.
Qed.

(** ** Language detection *)

Lemma prefix_length (n : nat) (s : string) :
  String.length (prefix n s) = Nat.min n (String.length s).
Proof.
  revert s. induction n as [|n IH]; intros [|c r]; cbn; try reflexivity.
  rewrite IH. reflexivity.
Qed.

Lemma prefix_is_prefix (n : nat) (s : string) :
  exists rest, s = (prefix n s ++ rest)%string.
Proof.
  revert s. induction n as [|n IH]; intros s.
  - exists s. destruct s; reflexivity.
  - destruct s as [|c r].
    + exists "". reflexivity.
    + destruct (IH r) as [rest Hr]. exists rest.
      change (String c r = String c (prefix n r ++ rest)%string). f_equal. exact Hr.
Qed.

Arguments prefix : simpl never.

Lemma truthy_long (s : string) : 3 <= String.length s -> truthy (VStr s) = true.
Proof. destruct s; simpl; [lia | reflexivity]. Qed.

Lemma detect_language_short (E : env) (s : string) (w : world) :
  String.length s < 3 ->
  NLPProcessor.detect_language E (VStr s) w = (Returns "unknown", w).
Proof.
  intros Hlen. unfold NLPProcessor.detect_language.
  destruct (truthy (VStr s)); simpl; [|reflexivity].
  destruct (Nat.ltb_spec (String.length s) 3); [reflexivity | lia].
Qed.

Lemma detect_language_long (E : env) (s : string) (w : world) :
  3 <= String.length s ->
  NLPProcessor.detect_language E (VStr s) w
  = (match detect E (length (detect_calls w)) (prefix 1000 s) with
     | Raises LangDetectException => Returns "unknown"
     | o => o
     end,
     with_detect_call (prefix 1000 s) w).
Proof.
  intros Hlen. unfold NLPProcessor.detect_language.
  rewrite (truthy_long s Hlen). simpl.
  destruct (Nat.ltb_spec (String.length s) 3); [lia|].
  unfold try_except_only, NLPProcessor.call_detect.
  destruct (detect E (length (detect_calls w)) (prefix 1000 s)) as [l|e]; [reflexivity|].
  destruct e; reflexivity.
Qed.

(** C4.  For content that is empty or shorter than 3 characters
    [detect_language] answers "unknown" and leaves the world as it was: the
    detector is not called.  For longer content the detector is called
    once, on the first 1000 characters of the content (the whole content
    when it is shorter), and a detection failure it raises is turned into
    "unknown". *)
Theorem detect_language_fallback (E : env) (s : string) (w : world) :
  (String.length s < 3 ->
     NLPProcessor.detect_language E (VStr s) w = (Returns "unknown", w)) /\
  (3 <= String.length s ->
     let arg := prefix 1000 s in
     detect_calls (snd (NLPProcessor.detect_language E (VStr s) w))
     = (detect_calls w ++ [arg])%list /\
     String.length arg = Nat.min 1000 (String.length s) /\
     (exists rest, s = (arg ++ rest)%string) /\
     (detect E (length (detect_calls w)) arg = Raises LangDetectException ->
        fst (NLPProcessor.detect_language E (VStr s) w) = Returns "unknown") /\
     (forall l, detect E (length (detect_calls w)) arg = Returns l ->
        fst (NLPProcessor.detect_language E (VStr s) w) = Returns l)).
Proof.
  split; [apply detect_language_short|].
  intros Hlen arg. rewrite (detect_language_long E s w Hlen). fold arg. simpl.
  split; [reflexivity|].
  split; [apply prefix_length|].
  split; [apply prefix_is_prefix|].
  split.
  - intros ->. reflexivity.
  - intros l ->. reflexivity.
Qed.

Lemma detect_language_fallback_witness :
  NLPProcessor.detect_language quiet_env (VStr "Hi") (initial_world [])
  = (Returns "unknown", initial_world []) /\
  fst (NLPProcessor.detect_language failing_detector_env (VStr "Error text")
         (initial_world [])) = Returns "unknown" /\
  detect_calls (snd (NLPProcessor.detect_language quiet_env
                       (VStr "This is English text") (initial_world [])))
  = ["This is English text"].
Proof.
  split; [|split].
  - apply (proj1 (detect_language_fallback quiet_env "Hi" (initial_world []))).
    simpl. lia.
  - destruct (proj2 (detect_language_fallback failing_detector_env "Error text"
                       (initial_world []))) as (_ & _ & _ & Hfail & _).
    + simpl. lia.
    + apply Hfail. reflexivity.
  - destruct (proj2 (detect_language_fallback quiet_env "This is English text"
                       (initial_world []))) as (Hcalls & _).
    + simpl. lia.
    + exact Hcalls.
Defined.

(** ** The projection of the Publisher *)

(** C10.  [transform_document] returns for every document, with exactly the
    nine fields of the destination schema.  A field missing from the input
    takes its default: "" for title, content and url, "unknown" for author
    and language, "neutral" for sentiment, 0 for the score; a missing date
    is replaced by the reading of the clock taken during the call; a
    polarity that is present is the score. *)
Theorem transform_document_total (E : env) (doc : document) (w : world) :
  exists es_doc : document,
    ElasticsearchIndexer.transform_document E doc w
    = (Returns es_doc, with_clock_read (with_clock_read w)) /\
    dom es_doc = ({[ "titre"; "contenu"; "auteur"; "date"; "url"; "langue";
                     "sentiment"; "score"; "indexed_at" ]} : gset string) /\
    (doc !! "title" = None -> es_doc !! "titre" = Some (VStr "")) /\
    (doc !! "content" = None -> es_doc !! "contenu" = Some (VStr "")) /\
    (doc !! "author" = None -> es_doc !! "auteur" = Some (VStr "unknown")) /\
    (doc !! "language" = None -> es_doc !! "langue" = Some (VStr "unknown")) /\
    (doc !! "sentiment" = None -> es_doc !! "sentiment" = Some (VStr "neutral")) /\
    (doc !! "url" = None -> es_doc !! "url" = Some (VStr "")) /\
    (doc !! "polarity" = None -> es_doc !! "score" = Some (VFloat 0)) /\
    (doc !! "date" = None ->
       es_doc !! "date" = Some (VDate (now E (clock_reads w)))) /\
    (forall p, doc !! "polarity" = Some p -> es_doc !! "score" = Some p) /\
    (forall d, doc !! "date" = Some d -> es_doc !! "date" = Some d).
Proof.
  eexists. split; [reflexivity|]. unfold ElasticsearchIndexer.es_doc.
  split.
  { rewrite !dom_insert_L, dom_singleton_L. set_solver. }
  unfold get_default.
  repeat split; intros; simplify_map_eq; try reflexivity.
Qed.

Lemma transform_document_total_witness :
  exists es_doc : document,
    ElasticsearchIndexer.transform_document quiet_env (∅ : document) (initial_world [])
    = (Returns es_doc, with_clock_read (with_clock_read (initial_world []))) /\
    es_doc !! "titre" = Some (VStr "") /\
    es_doc !! "auteur" = Some (VStr "unknown") /\
    es_doc !! "score" = Some (VFloat 0) /\
    es_doc !! "date" = Some (VDate 0).
Proof.
  destruct (transform_document_total quiet_env ∅ (initial_world []))
    as (es & Hrun & _ & Ht & _ & Ha & _ & _ & _ & Hs & Hd & _).
  exists es. split; [exact Hrun|].
  split; [apply Ht; reflexivity|].
  split; [apply Ha; reflexivity|].
  split; [apply Hs; reflexivity|].
  apply Hd. reflexivity.
Defined.

(** ** The store: upsert by url *)



Lemma set_first_Some (u : value) (upd : document) (c c' : collection) :
  set_first u upd c = Some c' ->
  exists pre x post,
    c = (pre ++ x :: post)%list /\ Forall (fun y => url_key y <> u) pre /\
    url_key x = u /\ c' = (pre ++ (upd ∪ x) :: post)%list.
Proof.
  revert c'. induction c as [|y r IH]; simpl; intros c' H; [discriminate|].
  destruct (decide (url_key y = u)) as [Heq|Hne].
  - injection H as <-. exists [], y, r. repeat split; [constructor | exact Heq].
  - destruct (set_first u upd r) as [r'|]; [|discriminate].
    injection H as <-. destruct (IH r' eq_refl) as (pre & x & post & -> & Hpre & Hx & ->).
    exists (y :: pre), x, post. repeat split; [constructor; assumption | exact Hx].
Qed.

Lemma changes_id_no_id (u : value) (upd : document) (c : collection) :
  upd !! "_id" = None -> changes_id u upd c = false.
Proof. intros H. unfold changes_id. rewrite H. reflexivity. Qed.

Lemma id_taken_no_id (upd : document) (c : collection) :
  upd !! "_id" = None -> id_taken upd c = false.
Proof. intros H. unfold id_taken. rewrite H. reflexivity. Qed.

(** A write whose [$set] document carries no [_id]: the store refuses it
    only by a fault of its own, and an insert answers a new ObjectId. *)
Lemma update_one_no_id (E : env) (c : coll_name) (u : value) (upd : document)
    (w : world) :
  upd !! "_id" = None ->
  update_one E c u upd w
  = let w1 := with_update_call {| uc_coll := c; uc_filter := u; uc_set := upd |} w in
    match update_fault E (length (update_calls w)) with
    | Some e => (Raises e, w1)
    | None =>
        match set_first u upd (coll_of c w1) with
        | Some docs' => (Returns VNone, with_coll c docs' w1)
        | None =>
            (Returns (VOid (next_oid w1)),
             with_coll c (coll_of c w1 ++ [upserted_doc u upd (next_oid w1)])
               (with_next_oid (S (next_oid w1)) w1))
        end
    end.
Proof.
  intros H. unfold update_one. cbv zeta.
  rewrite (changes_id_no_id _ _ _ H), (id_taken_no_id _ _ H).
  unfold get_default. rewrite H. reflexivity.
Qed.

(** What one turn of the loop of [save_to_mongodb] does to a document that
    has a url. *)
Lemma save_document_cases (E : env) (counts : nat * nat) (doc : document)
    (u : value) (w : world) :
  doc !! "url" = Some u ->
  TextPreprocessor.save_document E counts doc w
  = let w1 := with_update_call
                {| uc_coll := Preprocessed; uc_filter := u; uc_set := doc |} w in
    match update_fault E (length (update_calls w)) with
    | Some e => (Returns counts, with_log (ErrSaveDocument e) w1)
    | None =>
        match set_first u doc (preprocessed_posts w) with
        | Some docs' =>
            if changes_id u doc (preprocessed_posts w)
            then (Returns counts,
                  with_log (ErrSaveDocument (PyMongoError "WriteError: _id is immutable"))
                    w1)
            else (Returns (fst counts, S (snd counts)), with_coll Preprocessed docs' w1)
        | None =>
            if id_taken doc (preprocessed_posts w)
            then (Returns counts,
                  with_log (ErrSaveDocument (PyMongoError "E11000 duplicate key error"))
                    w1)
            else
              (Returns (if truthy (get_default doc "_id" (VOid (next_oid w)))
                        then (S (fst counts), snd counts)
                        else (fst counts, S (snd counts))),
               with_coll Preprocessed
                 (preprocessed_posts w ++ [upserted_doc u doc (next_oid w)])
                 (with_next_oid (S (next_oid w)) w1))
        end
    end.
Proof.
  intros Hu.
  unfold TextPreprocessor.save_document, try_except, getitem, mbind, M_bind, update_one.
  rewrite Hu. simpl.
  destruct (update_fault E (length (update_calls w))); [reflexivity|].
  destruct (set_first u doc (preprocessed_posts w)).
  - destruct (changes_id u doc (preprocessed_posts w)); reflexivity.
  - destruct (id_taken doc (preprocessed_posts w)); reflexivity.
Qed.

Lemma no_falsy_id_truthy (doc : document) (n : nat) :
  truthy (get_default doc "_id" (VOid n)) = no_falsy_id doc.
Proof.
  unfold no_falsy_id, get_default. destruct (doc !! "_id"); reflexivity.
Qed.

(** What one turn of the loop of [save_to_mongodb] does to a document that
    has a url and no [_id]. *)
Lemma save_document_run (E : env) (counts : nat * nat) (doc : document)
    (u : value) (w : world) :
  doc !! "url" = Some u ->
  doc !! "_id" = None ->
  TextPreprocessor.save_document E counts doc w
  = let w1 := with_update_call
                {| uc_coll := Preprocessed; uc_filter := u; uc_set := doc |} w in
    match update_fault E (length (update_calls w)) with
    | Some e => (Returns counts, with_log (ErrSaveDocument e) w1)
    | None =>
        match set_first u doc (preprocessed_posts w) with
        | Some docs' =>
            (Returns (fst counts, S (snd counts)), with_coll Preprocessed docs' w1)
        | None =>
            (Returns (S (fst counts), snd counts),
             with_coll Preprocessed
               (preprocessed_posts w ++ [upserted_doc u doc (next_oid w)])
               (with_next_oid (S (next_oid w)) w1))
        end
    end.
Proof.
  intros Hu Hid.
  unfold TextPreprocessor.save_document, try_except, getitem, mbind, M_bind.
  rewrite Hu. simpl. rewrite (update_one_no_id E Preprocessed u doc w Hid). simpl.
  destruct (update_fault E (length (update_calls w))); [reflexivity|].
  destruct (set_first u doc (preprocessed_posts w)); reflexivity.
Qed.

(** A document without url: the lookup fails inside the [try], the store is
    not called. *)
Lemma save_document_no_url (E : env) (counts : nat * nat) (doc : document) (w : world) :
  doc !! "url" = None ->
  TextPreprocessor.save_document E counts doc w
  = (Returns counts, with_log (ErrSaveDocument (KeyError "url")) w).
Proof.
  intros Hu.
  unfold TextPreprocessor.save_document, try_except, getitem, mbind, M_bind.
  rewrite Hu. reflexivity.
Qed.

(** ** Loops over a collection: a failed write does not stop the stage *)

Lemma for_each_cons {A B : Type} (body : B -> A -> M B) (x : A) (r : list A)
    (acc : B) (w : world) :
  for_each body (x :: r) acc w
  = match body acc x w with
    | (Returns acc', w') => for_each body r acc' w'
    | (Raises e, w') => (Raises e, w')
    end.
Proof. reflexivity. Qed.

Lemma faults_in_S (E : env) (start len : nat) :
  faults_in E start (S len)
  = match update_fault E start with Some e => [e] | None => [] end
    ++ faults_in E (S start) len.
Proof.
  unfold faults_in. simpl. destruct (update_fault E start); reflexivity.
Qed.

Lemma faults_in_length (E : env) (start len : nat) :
  length (faults_in E start len) <= len.
Proof.
  revert start. induction len as [|len IH]; intros start; [simpl; lia|].
  rewrite faults_in_S, length_app. specialize (IH (S start)).
  destruct (update_fault E start); simpl; lia.
Qed.

Lemma url_key_Some (d : document) (u : value) : d !! "url" = Some u -> url_key d = u.
Proof. intros H. unfold url_key, get, get_default. rewrite H. reflexivity. Qed.

Lemma save_call_url (d : document) (u : value) :
  d !! "url" = Some u ->
  save_call d = {| uc_coll := Preprocessed; uc_filter := u; uc_set := d |}.
Proof. intros H. unfold save_call. rewrite (url_key_Some d u H). reflexivity. Qed.

(** The loop of [save_to_mongodb] over documents that all have a url and
    no [_id]. *)
Lemma save_loop (E : env) (docs : list document) :
  Forall (fun d => is_Some (d !! "url") /\ d !! "_id" = None) docs ->
  forall (counts : nat * nat) (w : world),
  exists ins upd w',
    for_each (TextPreprocessor.save_document E) docs counts w = (Returns (ins, upd), w') /\
    ins + upd + length (faults_in E (length (update_calls w)) (length docs))
    = fst counts + snd counts + length docs /\
    update_calls w' = update_calls w ++ map save_call docs /\
    log w' = log w ++ map ErrSaveDocument
                        (faults_in E (length (update_calls w)) (length docs)).
Proof.
  induction 1 as [|d docs [[u Hu] Hid] _ IH]; intros counts w.
  - exists (fst counts), (snd counts), w. destruct counts. simpl.
    rewrite !app_nil_r. repeat split; lia.
  - rewrite for_each_cons, (save_document_run E counts d u w Hu Hid). cbv zeta.
    cbn [length map]. rewrite faults_in_S, (save_call_url d u Hu).
    destruct (update_fault E (length (update_calls w))) as [e|];
      [| destruct (set_first u d (preprocessed_posts w)) as [docs'|] ];
      match goal with
      | |- context [for_each _ docs ?c ?w1] =>
          destruct (IH c w1) as (ins & upd & w' & -> & Hcount & Hcalls & Hlog)
      end;
      exists ins, upd, w'; (split; [reflexivity|]);
      simpl in Hcount, Hcalls, Hlog; rewrite length_app in Hcount, Hlog;
      simpl in Hcount, Hlog; rewrite Nat.add_1_r in Hcount, Hlog;
      rewrite Hcalls, Hlog, <- !app_assoc; simpl;
      (split; [lia|]); split; reflexivity.
Qed.

(** [detect_language] touches nothing but the trace of detector calls. *)
Lemma detect_language_frame (E : env) (text : value) (w : world) :
  snd (NLPProcessor.detect_language E text w) = w \/
  exists s, snd (NLPProcessor.detect_language E text w) = with_detect_call s w.
Proof.
  unfold NLPProcessor.detect_language.
  destruct (negb (truthy text)); [left; reflexivity|].
  destruct text as [|s| | |]; try (left; reflexivity).
  destruct (String.length s <? 3); [left; reflexivity|].
  right. exists (prefix 1000 s).
  unfold try_except_only, NLPProcessor.call_detect.
  destruct (detect E (length (detect_calls w)) (prefix 1000 s)) as [l|e]; [reflexivity|].
  destruct e; reflexivity.
Qed.

(** One turn of the loop of the Enricher, when the models answer and the
    document has a url: the outcome of the write decides. *)
Lemma enrich_document_run (E : env) (n : nat) (doc : document) (u : value)
    (language : string) (sr : sentiment_result) (w : world) :
  let content := get_default doc "content" (VStr "") in
  fst (NLPProcessor.detect_language E content w) = Returns language ->
  NLPProcessor.analyze_sentiment E content language = Returns sr ->
  doc !! "url" = Some u ->
  NLPProcessor.enrich_document E n doc w
  = let wd := snd (NLPProcessor.detect_language E content w) in
    let d := NLPProcessor.enriched_doc doc content language sr
               (VDate (now E (clock_reads wd))) in
    match update_one E Enriched u d (with_clock_read wd) with
    | (Returns _, w2) => (Returns (S n), w2)
    | (Raises e, w2) => (Returns n, with_log (ErrSavingDocument e) w2)
    end.
Proof.
  intros content Hl Hs Hu.
  unfold NLPProcessor.enrich_document. fold content.
  unfold mbind at 1. unfold M_bind.
  destruct (NLPProcessor.detect_language E content w) as [o wd] eqn:Hd.
  simpl in Hl. subst o. simpl.
  unfold mbind at 1. unfold M_bind, lift. rewrite Hs.
  unfold mbind at 1. unfold M_bind, datetime_now.
  unfold try_except, getitem. rewrite Hu.
  unfold mbind at 1. unfold M_bind. unfold mret at 1. unfold M_ret.
  unfold mbind at 1. unfold M_bind.
  destruct (update_one E Enriched u _ (with_clock_read wd)) as [[o|e] w2]; reflexivity.
Qed.

Lemma enrich_document_no_url (E : env) (n : nat) (doc : document)
    (language : string) (sr : sentiment_result) (w : world) :
  let content := get_default doc "content" (VStr "") in
  fst (NLPProcessor.detect_language E content w) = Returns language ->
  NLPProcessor.analyze_sentiment E content language = Returns sr ->
  doc !! "url" = None ->
  NLPProcessor.enrich_document E n doc w
  = (Returns n,
     with_log (ErrSavingDocument (KeyError "url"))
       (with_clock_read (snd (NLPProcessor.detect_language E content w)))).
Proof.
  intros content Hl Hs Hu.
  unfold NLPProcessor.enrich_document. fold content.
  unfold mbind at 1. unfold M_bind.
  destruct (NLPProcessor.detect_language E content w) as [o wd] eqn:Hd.
  simpl in Hl. subst o. simpl.
  unfold mbind at 1. unfold M_bind, lift. rewrite Hs.
  unfold mbind at 1. unfold M_bind, datetime_now.
  unfold try_except, getitem. rewrite Hu. reflexivity.
Qed.

Lemma enriched_doc_no_id (doc : document) (content : value) (language : string)
    (sr : sentiment_result) (enriched_at : value) :
  NLPProcessor.enriched_doc doc content language sr enriched_at !! "_id" = None.
Proof. unfold NLPProcessor.enriched_doc. simplify_map_eq; reflexivity. Qed.

Lemma process_document_no_id (E : env) (doc : document) :
  TextPreprocessor.process_document E doc !! "_id" = None.
Proof. unfold TextPreprocessor.process_document. simplify_map_eq; reflexivity. Qed.

Lemma update_one_cases (E : env) (c : coll_name) (u : value) (d : document) (w : world) :
  d !! "_id" = None ->
  match update_fault E (length (update_calls w)) with
  | Some e =>
      update_one E c u d w
      = (Raises e, with_update_call {| uc_coll := c; uc_filter := u; uc_set := d |} w)
  | None =>
      exists o w2,
        update_one E c u d w = (Returns o, w2) /\
        update_calls w2
        = update_calls w ++ [ {| uc_coll := c; uc_filter := u; uc_set := d |} ] /\
        log w2 = log w
  end.
Proof.
  intros Hid. rewrite (update_one_no_id E c u d w Hid). cbv zeta.
  destruct (update_fault E (length (update_calls w))) as [e|]; [reflexivity|].
  destruct (set_first u d _) as [docs'|]; eexists _, _; repeat split; reflexivity.
Qed.

Lemma detect_language_update_calls (E : env) (text : value) (w : world) :
  update_calls (snd (NLPProcessor.detect_language E text w)) = update_calls w /\
  log (snd (NLPProcessor.detect_language E text w)) = log w.
Proof.
  destruct (detect_language_frame E text w) as [-> | [s ->]]; split; reflexivity.
Qed.

(** The loop of the Enricher over documents that have a url and for which
    the models answer. *)
Lemma enrich_loop (E : env) (docs : list document) :
  Forall (fun d => is_Some (d !! "url") /\ models_answer E d) docs ->
  forall (n : nat) (w : world),
  exists n' w',
    for_each (NLPProcessor.enrich_document E) docs n w = (Returns n', w') /\
    n' + length (faults_in E (length (update_calls w)) (length docs))
    = n + length docs /\
    map call_key (update_calls w')
    = map call_key (update_calls w) ++ map (fun d => (Enriched, url_key d)) docs /\
    log w' = log w ++ map ErrSavingDocument
                        (faults_in E (length (update_calls w)) (length docs)).
Proof.
  induction 1 as [|d docs [[u Hu] [Hl Hs]] _ IH]; intros n w.
  - exists n, w. simpl. rewrite !app_nil_r. repeat split; lia.
  - rewrite for_each_cons.
    destruct (Hl w) as [language Hlw]. destruct (Hs language) as [sr Hsr].
    rewrite (enrich_document_run E n d u language sr w Hlw Hsr Hu). cbv zeta.
    destruct (detect_language_update_calls E (get_default d "content" (VStr "")) w)
      as [Hcalls0 Hlog0].
    set (wd := snd (NLPProcessor.detect_language E (get_default d "content" (VStr "")) w))
      in *.
    set (ed := NLPProcessor.enriched_doc _ _ _ _ _).
    pose proof (update_one_cases E Enriched u ed (with_clock_read wd)
                  (enriched_doc_no_id _ _ _ _ _)) as Hone.
    cbn [length map]. rewrite faults_in_S, (url_key_Some d u Hu).
    change (update_calls (with_clock_read wd)) with (update_calls wd) in Hone.
    rewrite Hcalls0 in Hone.
    destruct (update_fault E (length (update_calls w))) as [e|].
    + rewrite Hone.
      match goal with
      | |- context [for_each _ docs ?c ?w1] =>
          destruct (IH c w1) as (n' & w' & -> & Hcount & Hcalls & Hlog)
      end.
      exists n', w'. split; [reflexivity|].
      simpl in Hcount, Hcalls, Hlog. rewrite Hcalls0, Hlog0 in *.
      rewrite length_app in Hcount, Hlog. simpl in Hcount, Hlog.
      rewrite Nat.add_1_r in Hcount, Hlog.
      rewrite Hcalls, Hlog, map_app, <- !app_assoc. simpl.
      split; [lia|]. split; reflexivity.
    + destruct Hone as (o & w2 & -> & Hc2 & Hl2).
      destruct (IH (S n) w2) as (n' & w' & -> & Hcount & Hcalls & Hlog).
      exists n', w'. split; [reflexivity|].
      rewrite Hc2 in Hcount, Hcalls, Hlog. rewrite Hl2 in Hlog.
      change (log (with_clock_read wd)) with (log wd) in Hlog. rewrite Hlog0 in Hlog.
      rewrite length_app in Hcount, Hlog. simpl in Hcount, Hlog.
      rewrite Nat.add_1_r in Hcount, Hlog.
      rewrite Hcalls, Hlog, map_app, <- !app_assoc. simpl.
      split; [lia|]. split; reflexivity.
Qed.

Lemma process_document_has_url (E : env) (doc : document) :
  is_Some (TextPreprocessor.process_document E doc !! "url").
Proof.
  unfold TextPreprocessor.process_document. eexists. simplify_map_eq. reflexivity.
Qed.

Lemma save_to_mongodb_nonempty (E : env) (docs : list document) (w : world) :
  docs <> [] ->
  TextPreprocessor.save_to_mongodb E docs w
  = match for_each (TextPreprocessor.save_document E) docs (0, 0) w with
    | (Returns counts, w') =>
        (Returns (fst counts), with_log (InfoSaveCompleted (fst counts) (snd counts)) w')
    | (Raises e, w') => (Raises e, w')
    end.
Proof.
  intros Hne. destruct docs as [|d r]; [contradiction|].
  unfold TextPreprocessor.save_to_mongodb. unfold mbind at 1. unfold M_bind.
  destruct (for_each _ _ _ w) as [[counts|e] w']; reflexivity.
Qed.

(** The loop of the Enricher ends early only where a model raises: neither
    a refused write nor a missing url stops it. *)
Lemma enrich_loop_raises (E : env) (docs : list document) :
  forall (n : nat) (w : world) (e : exn),
    fst (for_each (NLPProcessor.enrich_document E) docs n w) = Raises e ->
    Exists (fun d => ~ models_answer E d) docs.
Proof.
  induction docs as [|d docs IH]; intros n w e Hraise; [discriminate|].
  rewrite for_each_cons in Hraise.
  set (content := get_default d "content" (VStr "")).
  destruct (fst (NLPProcessor.detect_language E content w)) as [language|e1] eqn:Hl.
  - destruct (NLPProcessor.analyze_sentiment E content language) as [sr|e2] eqn:Hs.
    + apply Exists_cons_tl.
      destruct (d !! "url") as [u|] eqn:Hu.
      * rewrite (enrich_document_run E n d u language sr w Hl Hs Hu) in Hraise.
        cbv zeta in Hraise.
        destruct (update_one E Enriched u _ _) as [[o|e3] w2]; eapply IH, Hraise.
      * rewrite (enrich_document_no_url E n d language sr w Hl Hs Hu) in Hraise.
        eapply IH, Hraise.
    + apply Exists_cons_hd. intros [_ Hs']. fold content in Hs'.
      destruct (Hs' language) as [sr Hsr]. congruence.
  - apply Exists_cons_hd. intros [Hl' _]. fold content in Hl'.
    destruct (Hl' w) as [l' Hlw]. congruence.
Qed.

(** C6.  A write that the store refuses does not stop a stage.  The
    Normalizer, on any raw collection, issues exactly one write per
    document, in order, whatever writes fail; each failure is logged; the
    summary it logs counts as inserted or updated exactly the documents
    whose write did not fail.  The Enricher does the same on any
    preprocessed collection whose documents have a url and for which the
    models answer: one write per document, each failure logged, and the
    returned count is the number of writes that did not fail.  On any
    collection at all, the Enricher ends early only at a document on which
    a model raises, never because a write was refused. *)
Theorem write_failure_does_not_stop_stage (E : env) (w : world) :
  (let docs := map (TextPreprocessor.process_document E) (posts w) in
   let faults := faults_in E (length (update_calls w)) (length docs) in
   docs <> [] ->
   exists ins upd w',
     TextPreprocessor.run E w = (Returns ins, w') /\
     update_calls w' = update_calls w ++ map save_call docs /\
     ins + upd + length faults = length docs /\
     log w' = log w ++ map ErrSaveDocument faults ++ [InfoSaveCompleted ins upd]) /\
  (let docs := preprocessed_posts w in
   let faults := faults_in E (length (update_calls w)) (length docs) in
   Forall (fun d => is_Some (d !! "url") /\ models_answer E d) docs ->
   exists n w',
     NLPProcessor.process_documents E w = (Returns n, w') /\
     map call_key (update_calls w')
     = map call_key (update_calls w) ++ map (fun d => (Enriched, url_key d)) docs /\
     n + length faults = length docs /\
     log w' = log w ++ map ErrSavingDocument faults ++ [InfoNlpCompleted n]) /\
  (forall e,
     fst (NLPProcessor.process_documents E w) = Raises e ->
     Exists (fun d => ~ models_answer E d) (preprocessed_posts w)).
Proof.
  split; [|split].
  - intros docs faults Hne.
    unfold TextPreprocessor.run, TextPreprocessor.process_documents.
    unfold mbind at 1. unfold M_bind. fold docs.
    rewrite (save_to_mongodb_nonempty E docs w Hne).
    destruct (save_loop E docs) with (counts := (0, 0)) (w := w)
      as (ins & upd & w' & -> & Hcount & Hcalls & Hlog).
    { subst docs. apply Forall_map, Forall_forall. intros d _.
      split; [apply process_document_has_url|apply process_document_no_id]. }
    exists ins, upd, (with_log (InfoSaveCompleted ins upd) w').
    split; [reflexivity|]. split; [exact Hcalls|].
    split; [exact Hcount|]. simpl. rewrite Hlog, <- app_assoc. reflexivity.
  - intros docs faults Hall.
    unfold NLPProcessor.process_documents, find.
    unfold mbind at 1. unfold M_bind. unfold mbind at 1. unfold M_bind.
    destruct (enrich_loop E docs Hall 0 w) as (n & w' & Hrun & Hcount & Hcalls & Hlog).
    change (coll_of Preprocessed w) with docs. rewrite Hrun.
    exists n, (with_log (InfoNlpCompleted n) w').
    split; [reflexivity|]. split; [exact Hcalls|].
    split; [exact Hcount|]. simpl. rewrite Hlog, <- app_assoc. reflexivity.
  - intros e. unfold NLPProcessor.process_documents, find.
    unfold mbind at 1. unfold M_bind. unfold mbind at 1. unfold M_bind.
    change (coll_of Preprocessed w) with (preprocessed_posts w).
    destruct (for_each _ (preprocessed_posts w) 0 w) as [[n|e'] w'] eqn:Hloop;
      [discriminate|].
    intros [= ->]. apply (enrich_loop_raises E (preprocessed_posts w) 0 w e).
    rewrite Hloop. reflexivity.
Qed.

(** Three documents, the store refuses the second write only: both stages
    report 2 successes after 3 writes. *)
Lemma write_failure_does_not_stop_stage_witness :
  (exists ins upd w',
     TextPreprocessor.run second_write_fails_env (initial_world three_posts)
     = (Returns ins, w') /\
     ins + upd = 2 /\ length (update_calls w') = 3 /\
     ErrSaveDocument (PyMongoError "Test error") ∈ log w') /\
  (exists w',
     NLPProcessor.process_documents second_write_fails_env (preprocessed_world three_posts)
     = (Returns 2, w') /\
     length (update_calls w') = 3 /\
     ErrSavingDocument (PyMongoError "Test error") ∈ log w').
Proof.
  split.
  - destruct (proj1 (write_failure_does_not_stop_stage second_write_fails_env
                       (initial_world three_posts)))
      as (ins & upd & w' & Hrun & Hcalls & Hcount & Hlog).
    { discriminate. }
    exists ins, upd, w'. split; [exact Hrun|].
    split; [simpl in Hcount; lia|].
    split; [rewrite Hcalls; reflexivity|].
    rewrite Hlog. simpl. apply list_elem_of_here.
  - destruct (proj1 (proj2 (write_failure_does_not_stop_stage second_write_fails_env
                              (preprocessed_world three_posts))))
      as (n & w' & Hrun & Hcalls & Hcount & Hlog).
    { repeat constructor; try (eexists; vm_compute; reflexivity);
        exists "en", {| polarity := 0; sentiment := "neutral" |};
        (split; [intros w0; reflexivity | reflexivity]). }
    simpl in Hcount. assert (n = 2) as -> by lia.
    exists w'. split; [exact Hrun|].
    split.
    + rewrite <- (length_map call_key), Hcalls. reflexivity.
    + rewrite Hlog. simpl. apply list_elem_of_here.
Defined.

(** ** The Publisher: batches of 500 *)

Lemma bulk_index_run (E : env) (actions : list action) (w : world) :
  exists w2,
    ElasticsearchIndexer._bulk_index E actions w = (Returns tt, w2) /\
    bulk_calls w2 = bulk_calls w ++ [actions] /\
    log w2 = log w ++ batch_log (bulk E (length (bulk_calls w)) actions) /\
    clock_reads w2 = clock_reads w.
Proof.
  unfold ElasticsearchIndexer._bulk_index, try_except, ElasticsearchIndexer.call_bulk.
  unfold mbind at 1. unfold M_bind.
  destruct (bulk E (length (bulk_calls w)) actions) as [[success errors]|e].
  - unfold mbind, M_bind, logger. cbn [fst snd batch_log].
    destruct (errors =? 0); eexists; (split; [reflexivity|]);
      cbn [bulk_calls log clock_reads with_log with_bulk_call];
      rewrite <- ?app_assoc; repeat split; reflexivity.
  - eexists. split; [reflexivity|]. repeat split; reflexivity.
Qed.

Lemma index_document_run (E : env) (index_name : string) (cur : list action)
    (doc : document) (w : world) :
  let a := {| _index := index_name;
              _source := ElasticsearchIndexer.es_doc doc
                           (VDate (now E (clock_reads w)))
                           (VDate (now E (S (clock_reads w)))) |} in
  let w1 := with_clock_read (with_clock_read w) in
  ElasticsearchIndexer.index_document E index_name cur doc w
  = if 500 <=? length (cur ++ [a])
    then (Returns [], snd (ElasticsearchIndexer._bulk_index E (cur ++ [a]) w1))
    else (Returns (cur ++ [a]), w1).
Proof.
  intros a w1. unfold ElasticsearchIndexer.index_document.
  unfold mbind at 1. unfold M_bind.
  change (ElasticsearchIndexer.transform_document E doc w)
    with (Returns (_source a), w1).
  cbv iota beta.
  change {| _index := index_name; _source := _source a |} with a.
  destruct (500 <=? length (cur ++ [a])); [|reflexivity].
  unfold mbind, M_bind.
  destruct (bulk_index_run E (cur ++ [a]) w1) as (w2 & -> & _). reflexivity.
Qed.

(** The loop of [index_documents]: [cur] is the batch being filled. *)
Lemma index_loop (E : env) (index_name : string) (docs : list document) :
  forall (cur : list action) (w : world),
  length cur < 500 ->
  exists cur' w' full,
    for_each (ElasticsearchIndexer.index_document E index_name) docs cur w
    = (Returns cur', w') /\
    length cur' < 500 /\
    bulk_calls w' = bulk_calls w ++ full /\
    Forall (fun b => length b = 500) full /\
    concat full ++ cur' = cur ++ actions_from E index_name (clock_reads w) docs /\
    log w' = log w ++ bulk_log E (length (bulk_calls w)) full.
Proof.
  induction docs as [|d r IH]; intros cur w Hcur.
  - exists cur, w, []. cbn [for_each actions_from concat bulk_log].
    rewrite !app_nil_r. repeat split; try reflexivity; [exact Hcur | constructor].
  - rewrite for_each_cons, index_document_run. cbv zeta.
    cbn [actions_from].
    set (a := {| _index := index_name; _source := _ |}).
    assert (Hlen : length (cur ++ [a]) = S (length cur))
      by (rewrite length_app; simpl; lia).
    destruct (Nat.leb_spec 500 (length (cur ++ [a]))) as [Hfull|Hroom].
    + destruct (bulk_index_run E (cur ++ [a]) (with_clock_read (with_clock_read w)))
        as (w2 & Hrun & Hb2 & Hl2 & Hc2).
      rewrite Hrun. cbn [snd].
      destruct (IH [] w2) as (cur' & w' & full & -> & Hcur' & Hb & Hall & Hcat & Hlog);
        [simpl; lia|].
      exists cur', w', ((cur ++ [a]) :: full). split; [reflexivity|].
      split; [exact Hcur'|].
      rewrite Hb2 in Hb, Hlog. rewrite Hl2, Hc2 in *.
      cbn [bulk_calls log clock_reads with_clock_read] in *.
      split; [rewrite Hb, <- app_assoc; reflexivity|].
      split; [constructor; [lia | exact Hall]|].
      split.
      * cbn [concat]. rewrite <- !app_assoc, Hcat. reflexivity.
      * rewrite Hlog, length_app, <- app_assoc. cbn [length bulk_log].
        rewrite Nat.add_1_r. reflexivity.
    + destruct (IH (cur ++ [a]) (with_clock_read (with_clock_read w)))
        as (cur' & w' & full & -> & Hcur' & Hb & Hall & Hcat & Hlog); [exact Hroom|].
      exists cur', w', full. split; [reflexivity|].
      cbn [bulk_calls log clock_reads with_clock_read] in *.
      repeat split; try assumption.
      rewrite Hcat, <- app_assoc. reflexivity.
Qed.

Lemma bulk_log_app (E : env) (start : nat) (l1 l2 : list (list action)) :
  bulk_log E start (l1 ++ l2)
  = bulk_log E start l1 ++ bulk_log E (start + length l1) l2.
Proof.
  revert start. induction l1 as [|b r IH]; intros start; simpl.
  - rewrite Nat.add_0_r. reflexivity.
  - rewrite IH, <- app_assoc, Nat.add_succ_r. reflexivity.
Qed.

(** C8, as the code has it.  The Publisher always returns.  The batches it
    submits are, in order, consecutive segments of the projected documents:
    full batches of exactly 500, followed by one more batch when a
    remainder of fewer than 500 is left.  Every batch is submitted exactly
    once, whatever happened to the batches before it.  For each batch the
    log holds: the success count, and the error count when it is not zero,
    if the bulk call returned; the exception alone if the bulk call
    raised. *)
Theorem index_documents_batches (E : env) (index_name : string) (w : world) :
  let actions := actions_from E index_name (clock_reads w) (enriched_posts w) in
  exists w' full rest,
    ElasticsearchIndexer.index_documents E index_name w = (Returns tt, w') /\
    bulk_calls w' = bulk_calls w ++ full ++ rest /\
    Forall (fun b => length b = 500) full /\
    (rest = [] \/ exists b, rest = [b] /\ 0 < length b < 500) /\
    concat (full ++ rest) = actions /\
    log w' = log w ++ bulk_log E (length (bulk_calls w)) (full ++ rest)
                   ++ [InfoIndexingCompleted].
Proof.
  intros actions.
  unfold ElasticsearchIndexer.index_documents, find.
  unfold mbind at 1. unfold M_bind. unfold mbind at 1. unfold M_bind.
  change (coll_of Enriched w) with (enriched_posts w).
  destruct (index_loop E index_name (enriched_posts w) [] w)
    as (cur & w1 & full & -> & Hcur & Hb & Hall & Hcat & Hlog); [simpl; lia|].
  fold actions in Hcat. cbn [app] in Hcat.
  destruct cur as [|a cur].
  - exists (with_log InfoIndexingCompleted w1), full, [].
    rewrite !app_nil_r in *. cbn.
    split; [reflexivity|]. split; [exact Hb|]. split; [exact Hall|].
    split; [left; reflexivity|]. split; [exact Hcat|].
    rewrite Hlog, <- app_assoc. reflexivity.
  - unfold mbind at 1. unfold M_bind.
    destruct (bulk_index_run E (a :: cur) w1) as (w2 & -> & Hb2 & Hl2 & _).
    exists (with_log InfoIndexingCompleted w2), full, [a :: cur].
    split; [reflexivity|].
    cbn [bulk_calls log with_log].
    split; [rewrite Hb2, Hb, <- app_assoc; reflexivity|].
    split; [exact Hall|].
    split; [right; exists (a :: cur); split; [reflexivity | simpl in *; lia]|].
    split; [rewrite concat_app; cbn [concat]; rewrite app_nil_r; exact Hcat|].
    rewrite Hl2, Hlog, Hb, length_app, bulk_log_app, <- !app_assoc.
    cbn [bulk_log]. rewrite app_nil_r. reflexivity.
Qed.

(** The logging clause as worded fails: when the bulk loader raises, the
    only entry logged for the batch is the exception; no success or error
    count appears. *)
Lemma bulk_failure_logged_without_count :
  ~ (forall E index_name w, bulk_failures_logged_with_counts E index_name w).
Proof.
  intros H.
  destruct (H bulk_down_env "harcelement_posts"
              (enriched_world [ {[ "url" := VStr "u1"; "polarity" := VFloat 0 ]} ])
              0 _ (OtherException "ConnectionError") eq_refl)
    as (l & Hin & Hcount).
  - simpl. lia.
  - reflexivity.
  - vm_compute in Hin.
    apply elem_of_cons in Hin as [-> | Hin]; [discriminate|].
    apply elem_of_cons in Hin as [-> | Hin]; [discriminate|].
    inversion Hin.
Qed.

(** ** Model faults in the Enricher *)

(** C7 fails on the code.  An exception of the sentiment model is raised
    outside any [try]: on a collection of two documents where the model
    breaks on the first, [process_documents] raises, nothing is written,
    the second document is never reached, and the stage as main.py runs it
    reports 0.  An exception of the detector other than a detection
    failure escapes [detect_language] the same way. *)
Theorem model_fault_aborts_enricher :
  let run := NLPProcessor.process_documents sentiment_down_env
               (preprocessed_world two_posts) in
  fst run = Raises (OtherException "sentiment model error") /\
  update_calls (snd run) = [] /\
  enriched_posts (snd run) = [] /\
  fst (Main.process_nlp sentiment_down_env (preprocessed_world two_posts)) = Returns 0 /\
  fst (NLPProcessor.detect_language detector_crash_env (VStr "Error text")
         (initial_world []))
  = Raises (OtherException "Detection error") /\
  fst (NLPProcessor.process_documents detector_crash_env (preprocessed_world two_posts))
  = Raises (OtherException "Detection error").
Proof.
  vm_compute. repeat split; reflexivity.
Qed.

(** ** Re-running a stage: the algebra of upserts *)

Lemma url_key_union (d x : document) (u : value) :
  d !! "url" = Some u -> url_key (d ∪ x) = u.
Proof. intros H. apply url_key_Some, lookup_union_Some_l, H. Qed.

Lemma url_key_upserted (u : value) (d : document) (n : nat) :
  d !! "url" = Some u -> url_key (upserted_doc u d n) = u.
Proof.
  intros H. apply url_key_Some. unfold upserted_doc.
  apply lookup_union_Some_l, lookup_union_Some_l, H.
Qed.


















(** ** Re-running a stage: from the code to the algebra *)

(** A model that raises ends the turn, and with it the loop. *)
Lemma enrich_document_detect_raises (E : env) (n : nat) (doc : document)
    (e : exn) (w : world) :
  let content := get_default doc "content" (VStr "") in
  fst (NLPProcessor.detect_language E content w) = Raises e ->
  NLPProcessor.enrich_document E n doc w
  = (Raises e, snd (NLPProcessor.detect_language E content w)).
Proof.
  intros content Hl. unfold NLPProcessor.enrich_document. fold content.
  unfold mbind at 1. unfold M_bind.
  destruct (NLPProcessor.detect_language E content w) as [o wd].
  cbn [fst snd] in *. subst o. reflexivity.
Qed.

Lemma enrich_document_sentiment_raises (E : env) (n : nat) (doc : document)
    (language : string) (e : exn) (w : world) :
  let content := get_default doc "content" (VStr "") in
  fst (NLPProcessor.detect_language E content w) = Returns language ->
  NLPProcessor.analyze_sentiment E content language = Raises e ->
  NLPProcessor.enrich_document E n doc w
  = (Raises e, snd (NLPProcessor.detect_language E content w)).
Proof.
  intros content Hl Hs. unfold NLPProcessor.enrich_document. fold content.
  unfold mbind at 1. unfold M_bind.
  destruct (NLPProcessor.detect_language E content w) as [o wd].
  cbn [fst snd] in *. subst o.
  unfold mbind at 1. unfold M_bind, lift. rewrite Hs. reflexivity.
Qed.

Section FaultFree.
Variable E : env.
Hypothesis no_fault : forall n, update_fault E n = None.

Lemma update_one_store (c : coll_name) (u : value) (d : document) (w : world) :
  d !! "_id" = None ->
  exists o w2,
    update_one E c u d w = (Returns o, w2) /\
    (coll_of c w2, next_oid w2) = upsert (coll_of c w, next_oid w) (u, d) /\
    (c = Enriched -> preprocessed_posts w2 = preprocessed_posts w) /\
    clock_reads w2 = clock_reads w /\
    posts w2 = posts w.
Proof.
  intros Hid. rewrite (update_one_no_id E c u d w Hid). cbv zeta.
  unfold upsert. rewrite no_fault. cbn [fst snd].
  replace (coll_of c (with_update_call _ w)) with (coll_of c w) by (destruct c; reflexivity).
  destruct (set_first u d (coll_of c w)) as [docs'|];
    eexists _, _; (split; [reflexivity|]); destruct c; repeat split; try reflexivity;
    discriminate.
Qed.

(** The loop of [save_to_mongodb] applies the writes of the documents, in
    order, to the preprocessed collection, and leaves the raw one alone. *)
Lemma save_loop_store (docs : list document) :
  Forall (fun d => is_Some (d !! "url") /\ d !! "_id" = None) docs ->
  forall (counts : nat * nat) (w : world),
    let w' := snd (for_each (TextPreprocessor.save_document E) docs counts w) in
    (preprocessed_posts w', next_oid w')
    = upserts (map save_write docs) (preprocessed_posts w, next_oid w) /\
    posts w' = posts w.
Proof.
  induction 1 as [|d docs [[u Hu] Hid] _ IH]; intros counts w; [split; reflexivity|].
  cbv zeta. rewrite for_each_cons, (save_document_run E counts d u w Hu Hid), no_fault.
  cbv zeta. cbn [map upserts fold_left]. fold (upserts (map save_write docs)).
  unfold save_write at 2. rewrite (url_key_Some d u Hu). unfold upsert at 2.
  cbn [fst snd].
  destruct (set_first u d (preprocessed_posts w)) as [docs'|];
    match goal with
    | |- context [for_each _ docs ?c ?w1] => destruct (IH c w1) as [Hs Hp]
    end; cbv zeta in Hs, Hp; rewrite Hs, Hp; split; reflexivity.
Qed.

Lemma normalizer_run_store (w : world) :
  let w' := snd (TextPreprocessor.run E w) in
  (preprocessed_posts w', next_oid w')
  = upserts (map save_write (map (TextPreprocessor.process_document E) (posts w)))
      (preprocessed_posts w, next_oid w) /\
  posts w' = posts w.
Proof.
  set (docs := map (TextPreprocessor.process_document E) (posts w)).
  assert (Hrun : TextPreprocessor.run E w = TextPreprocessor.save_to_mongodb E docs w)
    by reflexivity.
  cbv zeta. rewrite Hrun. clear Hrun.
  destruct docs as [|d r] eqn:Hdocs; [split; reflexivity|].
  rewrite <- Hdocs. rewrite (save_to_mongodb_nonempty E docs w) by (rewrite Hdocs; discriminate).
  destruct (save_loop_store docs) with (counts := (0, 0)) (w := w) as [Hs Hp].
  { subst docs. apply Forall_map, Forall_forall. intros x _.
    split; [apply process_document_has_url|apply process_document_no_id]. }
  cbv zeta in Hs, Hp.
  destruct (for_each _ docs (0, 0) w) as [[counts|e] w1]; cbn [snd] in *;
    rewrite <- Hs, <- Hp; split; reflexivity.
Qed.

Lemma detect_language_outcome (text : value) (w w0 : world) :
  detect_calls w = detect_calls w0 ->
  fst (NLPProcessor.detect_language E text w)
  = fst (NLPProcessor.detect_language E text w0)
  /\ detect_calls (snd (NLPProcessor.detect_language E text w))
     = detect_calls (snd (NLPProcessor.detect_language E text w0)).
Proof.
  intros Hc. unfold NLPProcessor.detect_language.
  destruct (negb (truthy text)); [split; [reflexivity|exact Hc]|].
  destruct text as [|s| | |]; try (split; [reflexivity|exact Hc]).
  destruct (String.length s <? 3); [split; [reflexivity|exact Hc]|].
  unfold try_except_only, NLPProcessor.call_detect. rewrite Hc.
  destruct (detect E (length (detect_calls w0)) (prefix 1000 s)) as [l|e];
    [cbn; rewrite Hc; split; reflexivity|].
  destruct e; cbn; rewrite Hc; split; reflexivity.
Qed.

Lemma detect_language_store (text : value) (w : world) :
  let wd := snd (NLPProcessor.detect_language E text w) in
  enriched_posts wd = enriched_posts w /\ next_oid wd = next_oid w /\
  preprocessed_posts wd = preprocessed_posts w /\ clock_reads wd = clock_reads w /\
  update_calls wd = update_calls w.
Proof.
  cbv zeta. destruct (detect_language_frame E text w) as [-> | [s ->]];
    repeat split; reflexivity.
Qed.

Lemma update_one_detect_calls (c : coll_name) (u : value) (d : document) (w : world) :
  detect_calls (snd (update_one E c u d w)) = detect_calls w.
Proof.
  unfold update_one. destruct (update_fault E _);
    [|destruct (set_first u d _); [destruct (changes_id u d _)|destruct (id_taken d _)]];
    reflexivity.
Qed.

(** The loop of the Enricher applies [enricher_writes] to the enriched
    collection and leaves the preprocessed one alone. *)
Lemma enrich_loop_store (docs : list document) :
  forall (n : nat) (w : world) (calls : list string),
    calls = detect_calls w ->
    let w' := snd (for_each (NLPProcessor.enrich_document E) docs n w) in
    (enriched_posts w', next_oid w')
    = upserts (enricher_writes E (clock_reads w) calls docs)
        (enriched_posts w, next_oid w) /\
    preprocessed_posts w' = preprocessed_posts w.
Proof.
  induction docs as [|d docs IH]; intros n w calls ->; [split; reflexivity|].
  cbv zeta. rewrite for_each_cons. cbn [enricher_writes]. cbv zeta.
  set (content := get_default d "content" (VStr "")).
  destruct (detect_language_outcome content w (detector_world (detect_calls w)) eq_refl)
    as [Hout Hcalls].
  rewrite <- Hout, <- Hcalls.
  destruct (detect_language_store content w) as (He & Ho & Hp & Hc & Hu).
  cbv zeta in He, Ho, Hp, Hc, Hu.
  destruct (fst (NLPProcessor.detect_language E content w)) as [language|e] eqn:Hl.
  - destruct (NLPProcessor.analyze_sentiment E content language) as [sr|e] eqn:Hs.
    + destruct (d !! "url") as [u|] eqn:Hurl.
      * rewrite (enrich_document_run E n d u language sr w Hl Hs Hurl). cbv zeta.
        fold content.
        set (wd := snd (NLPProcessor.detect_language E content w)) in *.
        pose proof (update_one_detect_calls Enriched u
                      (NLPProcessor.enriched_doc d content language sr
                         (VDate (now E (clock_reads wd))))
                      (with_clock_read wd)) as Hdc.
        destruct (update_one_store Enriched u
                    (NLPProcessor.enriched_doc d content language sr
                       (VDate (now E (clock_reads wd))))
                    (with_clock_read wd) (enriched_doc_no_id _ _ _ _ _))
          as (o & w2 & Hupd & Hst & Hpre & Hclk & _).
        rewrite Hupd in Hdc |- *. cbn [snd] in Hdc.
        destruct (IH (S n) w2 (detect_calls wd)) as [Hs2 Hp2];
          [rewrite Hdc; reflexivity|].
        cbv zeta in Hs2, Hp2.
        rewrite Hs2, Hp2, Hclk, (Hpre eq_refl).
        change (coll_of Enriched w2) with (enriched_posts w2) in Hst.
        cbn [coll_of with_clock_read enriched_posts next_oid clock_reads
             preprocessed_posts] in *.
        rewrite Hst, He, Ho, Hc, Hp. split; reflexivity.
      * rewrite (enrich_document_no_url E n d language sr w Hl Hs Hurl).
        fold content.
        set (wd := snd (NLPProcessor.detect_language E content w)) in *.
        match goal with
        | |- context [for_each _ docs ?c ?w1] =>
            destruct (IH c w1 (detect_calls wd) eq_refl) as [Hs2 Hp2]
        end.
        cbv zeta in Hs2, Hp2. rewrite Hs2, Hp2.
        cbn [with_log with_clock_read enriched_posts next_oid clock_reads
             preprocessed_posts app].
        rewrite He, Ho, Hc, Hp. split; reflexivity.
    + rewrite (enrich_document_sentiment_raises E n d language e w Hl Hs).
      fold content. cbn [snd upserts fold_left].
      rewrite He, Ho, Hp. split; reflexivity.
  - rewrite (enrich_document_detect_raises E n d e w Hl).
    fold content. cbn [snd upserts fold_left].
    rewrite He, Ho, Hp. split; reflexivity.
Qed.

Lemma enricher_run_store (w : world) :
  let w' := snd (NLPProcessor.process_documents E w) in
  (enriched_posts w', next_oid w')
  = upserts (enricher_writes E (clock_reads w) (detect_calls w) (preprocessed_posts w))
      (enriched_posts w, next_oid w) /\
  preprocessed_posts w' = preprocessed_posts w.
Proof.
  assert (Hrun : NLPProcessor.process_documents E w
                 = match for_each (NLPProcessor.enrich_document E)
                           (preprocessed_posts w) 0 w with
                   | (Returns n, w1) => (Returns n, with_log (InfoNlpCompleted n) w1)
                   | (Raises e, w1) => (Raises e, w1)
                   end).
  { unfold NLPProcessor.process_documents, find.
    unfold mbind at 1. unfold M_bind. unfold mbind at 1. unfold M_bind.
    change (coll_of Preprocessed w) with (preprocessed_posts w).
    destruct (for_each _ (preprocessed_posts w) 0 w) as [[n|e] w1]; reflexivity. }
  cbv zeta. rewrite Hrun. clear Hrun.
  destruct (enrich_loop_store (preprocessed_posts w) 0 w (detect_calls w) eq_refl)
    as [Hs Hp].
  cbv zeta in Hs, Hp.
  destruct (for_each _ (preprocessed_posts w) 0 w) as [[n|e] w1]; cbn [snd] in *;
    rewrite <- Hs, <- Hp; split; reflexivity.
Qed.

End FaultFree.

(** ** Re-running the Enricher: everything but what the run draws *)

Section Erasing.
Variable erase : document -> document.
Variable erased : gset string.
Hypothesis erase_url_key : forall x, url_key (erase x) = url_key x.
Hypothesis erase_union : forall d x, erase (d ∪ x) = erase d ∪ erase x.
Hypothesis erase_upserted :
  forall u d n, erase (upserted_doc u d n) = upserted_doc u (erase d) n.
Hypothesis erase_keeps_url : forall d u, d !! "url" = Some u -> erase d !! "url" = Some u.
Hypothesis erase_dom : forall d, dom (erase d) = dom d ∖ erased.






End Erasing.

















(** ** The upsert of [save_to_mongodb] *)







(** With a detector that is not repeatable a second run of the Enricher
    changes [language] as well. *)
Lemma enricher_rerun_changes_language :
  let w := preprocessed_world [ {[ "content" := VStr "fine words";
                                   "url" := VStr "u1" ]} ] in
  let w1 := snd (NLPProcessor.process_documents wavering_detector_env w) in
  let w2 := snd (NLPProcessor.process_documents wavering_detector_env w1) in
  (fun d => d !! "language") <$> enriched_posts w1 = [Some (VStr "en")] /\
  (fun d => d !! "language") <$> enriched_posts w2 = [Some (VStr "fr")].
Proof. vm_compute. split; reflexivity. Qed.

(** * Further properties of the stages *)

(** ** What a loop preserves *)

Lemma for_each_preserves {A B : Type} (R : world -> world -> Prop)
    (body : B -> A -> M B) :
  (forall w, R w w) ->
  (forall a b c, R a b -> R b c -> R a c) ->
  (forall acc x w, R w (snd (body acc x w))) ->
  forall (l : list A) (acc : B) (w : world), R w (snd (for_each body l acc w)).
Proof.
  intros Hrefl Htrans Hbody. induction l as [|x r IH]; intros acc w; [apply Hrefl|].
  rewrite for_each_cons. specialize (Hbody acc x w).
  destruct (body acc x w) as [[acc'|e] w1]; cbn [snd] in *; [|exact Hbody].
  eapply Htrans; [exact Hbody | apply IH].
Qed.

(** ** The return value and the writes of [save_to_mongodb] *)

Lemma save_loop_growth (E : env) (docs : list document) :
  forall (counts : nat * nat) (w : world),
  exists ins upd w',
    for_each (TextPreprocessor.save_document E) docs counts w = (Returns (ins, upd), w') /\
    length (preprocessed_posts w) + ins <= length (preprocessed_posts w') + fst counts /\
    (forallb no_falsy_id docs = true ->
     length (preprocessed_posts w') + fst counts = length (preprocessed_posts w) + ins) /\
    update_calls w'
    = update_calls w ++ map save_call (List.filter has_url_field docs).
Proof.
  induction docs as [|d docs IH]; intros counts w.
  - exists (fst counts), (snd counts), w. destruct counts. cbn.
    rewrite app_nil_r. repeat split; lia.
  - rewrite for_each_cons. cbn [List.filter forallb]. unfold has_url_field at 1.
    destruct (d !! "url") as [u|] eqn:Hu.
    + rewrite (save_document_cases E counts d u w Hu). cbv zeta.
      cbn [map]. rewrite (save_call_url d u Hu), no_falsy_id_truthy.
      destruct (update_fault E (length (update_calls w))) as [e|];
        [| destruct (set_first u d (preprocessed_posts w)) as [docs'|] eqn:Hsf;
           [ destruct (changes_id u d (preprocessed_posts w))
           | destruct (id_taken d (preprocessed_posts w)) ] ];
        match goal with
        | |- context [for_each _ docs ?c ?w1] =>
            destruct (IH c w1) as (ins & upd & w' & -> & Hle & Hlen & Hcalls)
        end;
        exists ins, upd, w'; (split; [reflexivity|]);
        cbn [fst snd preprocessed_posts update_calls with_log with_update_call
             with_coll with_next_oid] in Hle, Hlen, Hcalls;
        rewrite Hcalls, <- app_assoc; (split; [|split; [|reflexivity]]);
        try exact Hle;
        try (intros Hall; apply andb_prop in Hall as [Hd Hall]; exact (Hlen Hall)).
      * apply set_first_Some in Hsf as (pre & x & post & Hc & _ & _ & ->).
        rewrite Hc. rewrite !length_app in *. cbn [length] in *. lia.
      * intros Hall. apply andb_prop in Hall as [Hd Hall]. specialize (Hlen Hall).
        apply set_first_Some in Hsf as (pre & x & post & Hc & _ & _ & ->).
        rewrite Hc. rewrite !length_app in *. cbn [length] in *. lia.
      * rewrite length_app in Hle. cbn [length] in Hle.
        destruct (no_falsy_id d); cbn [fst] in Hle; lia.
      * intros Hall. apply andb_prop in Hall as [Hd Hall]. specialize (Hlen Hall).
        rewrite Hd in Hlen. rewrite length_app in Hlen. cbn [length fst] in Hlen. lia.
    + rewrite (save_document_no_url E counts d w Hu).
      destruct (IH counts (with_log (ErrSaveDocument (KeyError "url")) w))
        as (ins & upd & w' & -> & Hle & Hlen & Hcalls).
      exists ins, upd, w'. split; [reflexivity|]. split; [exact Hle|].
      split; [|exact Hcalls].
      intros Hall. apply andb_prop in Hall as [_ Hall]. exact (Hlen Hall).
Qed.

(** X1.  [save_to_mongodb] never raises, and the store is called once for
    each document that has a url key and not at all for the others.  The
    number it returns counts the inserts whose [upserted_id] is true in a
    condition: it is at most the number of documents by which the
    preprocessed collection has grown, and exactly that number when no
    document carries an [_id] that is None, 0 or the empty string, as is
    the case of every document [process_documents] builds. *)
Theorem save_to_mongodb_returns_growth (E : env) (docs : list document) (w : world) :
  exists ins w',
    TextPreprocessor.save_to_mongodb E docs w = (Returns ins, w') /\
    length (preprocessed_posts w) + ins <= length (preprocessed_posts w') /\
    (forallb no_falsy_id docs = true ->
     length (preprocessed_posts w') = length (preprocessed_posts w) + ins) /\
    forallb no_falsy_id (map (TextPreprocessor.process_document E) (posts w)) = true /\
    update_calls w'
    = update_calls w ++ map save_call (List.filter has_url_field docs).
Proof.
  assert (Hbuilt : forallb no_falsy_id
                     (map (TextPreprocessor.process_document E) (posts w)) = true).
  { apply forallb_forall. intros d Hd. apply in_map_iff in Hd as (r & <- & _).
    unfold no_falsy_id, get_default. rewrite process_document_no_id. reflexivity. }
  destruct docs as [|d r] eqn:Hdocs.
  - exists 0, (with_log WarnNoDocuments w). cbn. rewrite app_nil_r.
    repeat split; try lia. exact Hbuilt.
  - rewrite <- Hdocs.
    rewrite (save_to_mongodb_nonempty E docs w) by (rewrite Hdocs; discriminate).
    destruct (save_loop_growth E docs (0, 0) w)
      as (ins & upd & w' & -> & Hle & Hlen & Hcalls).
    exists ins, (with_log (InfoSaveCompleted ins upd) w').
    split; [reflexivity|]. cbn [fst] in Hle, Hlen.
    split; [cbn; lia|]. split; [|split; [exact Hbuilt|exact Hcalls]].
    intros Hall. specialize (Hlen Hall). cbn. lia.
Qed.

(** ** Each stage keeps to its own collection *)

Lemma normalizer_frame_trans (a b c : world) :
  normalizer_frame a b -> normalizer_frame b c -> normalizer_frame a c.
Proof.
  unfold normalizer_frame. intros (? & ? & ? & ? & ?) (? & ? & ? & ? & ?).
  repeat split; congruence.
Qed.

Lemma enricher_frame_trans (a b c : world) :
  enricher_frame a b -> enricher_frame b c -> enricher_frame a c.
Proof.
  unfold enricher_frame. intros (? & ? & ?) (? & ? & ?). repeat split; congruence.
Qed.

Lemma publisher_frame_trans (a b c : world) :
  publisher_frame a b -> publisher_frame b c -> publisher_frame a c.
Proof.
  unfold publisher_frame. intros (? & ? & ? & ? & ? & ?) (? & ? & ? & ? & ? & ?).
  repeat split; congruence.
Qed.

Lemma save_document_frame (E : env) (counts : nat * nat) (d : document) (w : world) :
  normalizer_frame w (snd (TextPreprocessor.save_document E counts d w)).
Proof.
  destruct (d !! "url") as [u|] eqn:Hu.
  - rewrite (save_document_cases E counts d u w Hu). cbv zeta.
    destruct (update_fault E _);
      [|destruct (set_first u d _);
        [destruct (changes_id u d _)|destruct (id_taken d _)]];
      repeat split; reflexivity.
  - rewrite (save_document_no_url E counts d w Hu). repeat split; reflexivity.
Qed.

Lemma update_one_enriched_frame (E : env) (u : value) (d : document) (w : world) :
  enricher_frame w (snd (update_one E Enriched u d w)).
Proof.
  unfold update_one. destruct (update_fault E _);
    [|destruct (set_first u d _); [destruct (changes_id u d _)|destruct (id_taken d _)]];
    repeat split; reflexivity.
Qed.

Lemma detect_language_enricher_frame (E : env) (text : value) (w : world) :
  enricher_frame w (snd (NLPProcessor.detect_language E text w)).
Proof.
  destruct (detect_language_frame E text w) as [-> | [s ->]]; repeat split; reflexivity.
Qed.

Lemma enrich_document_frame (E : env) (n : nat) (d : document) (w : world) :
  enricher_frame w (snd (NLPProcessor.enrich_document E n d w)).
Proof.
  set (content := get_default d "content" (VStr "")).
  pose proof (detect_language_enricher_frame E content w) as Hd.
  destruct (fst (NLPProcessor.detect_language E content w)) as [language|e] eqn:Hl.
  - destruct (NLPProcessor.analyze_sentiment E content language) as [sr|e] eqn:Hs.
    + destruct (d !! "url") as [u|] eqn:Hu.
      * rewrite (enrich_document_run E n d u language sr w Hl Hs Hu). cbv zeta.
        fold content.
        set (wd := snd (NLPProcessor.detect_language E content w)) in *.
        set (ed := NLPProcessor.enriched_doc _ _ _ _ _).
        pose proof (update_one_enriched_frame E u ed (with_clock_read wd)) as Hu1.
        destruct (update_one E Enriched u ed (with_clock_read wd)) as [[o|e] w2];
          cbn [snd] in *; apply (enricher_frame_trans w wd); try exact Hd;
          destruct Hu1 as (? & ? & ?); repeat split; assumption.
      * rewrite (enrich_document_no_url E n d language sr w Hl Hs Hu). fold content.
        cbn [snd]. destruct Hd as (? & ? & ?). repeat split; assumption.
    + rewrite (enrich_document_sentiment_raises E n d language e w Hl Hs). exact Hd.
  - rewrite (enrich_document_detect_raises E n d e w Hl). exact Hd.
Qed.

Lemma bulk_index_frame (E : env) (actions : list action) (w : world) :
  publisher_frame w (snd (ElasticsearchIndexer._bulk_index E actions w)).
Proof.
  unfold ElasticsearchIndexer._bulk_index, try_except, ElasticsearchIndexer.call_bulk.
  unfold mbind at 1. unfold M_bind.
  destruct (bulk E (length (bulk_calls w)) actions) as [[success errors]|e].
  - unfold mbind, M_bind, logger. cbn [fst snd].
    destruct (errors =? 0); repeat split; reflexivity.
  - repeat split; reflexivity.
Qed.

Lemma index_document_frame (E : env) (index_name : string) (cur : list action)
    (d : document) (w : world) :
  publisher_frame w (snd (ElasticsearchIndexer.index_document E index_name cur d w)).
Proof.
  rewrite index_document_run. cbv zeta.
  destruct (500 <=? _); [|repeat split; reflexivity].
  cbn [snd].
  apply (publisher_frame_trans w (with_clock_read (with_clock_read w)));
    [repeat split; reflexivity | apply bulk_index_frame].
Qed.

(** X2.  Stage isolation, whatever the faults.  A run of the Normalizer changes
    neither the raw nor the enriched collection and consults neither clock,
    detector nor bulk loader; a run of the Enricher changes neither the raw
    nor the preprocessed collection; a run of the Publisher leaves the
    whole document store as it is and issues no write to it. *)
Theorem stages_keep_to_their_collection (E : env) (index_name : string) (w : world) :
  normalizer_frame w (snd (TextPreprocessor.run E w)) /\
  enricher_frame w (snd (NLPProcessor.process_documents E w)) /\
  publisher_frame w (snd (ElasticsearchIndexer.index_documents E index_name w)).
Proof.
  split; [|split].
  - set (docs := map (TextPreprocessor.process_document E) (posts w)).
    change (TextPreprocessor.run E w) with (TextPreprocessor.save_to_mongodb E docs w).
    destruct docs as [|d r] eqn:Hdocs; [repeat split; reflexivity|].
    rewrite <- Hdocs.
    rewrite (save_to_mongodb_nonempty E docs w) by (rewrite Hdocs; discriminate).
    pose proof (for_each_preserves normalizer_frame (TextPreprocessor.save_document E)
                  (fun w0 => ltac:(repeat split; reflexivity))
                  normalizer_frame_trans (save_document_frame E) docs (0, 0) w) as Hloop.
    destruct (for_each _ docs (0, 0) w) as [[counts|e] w1]; cbn [snd] in *;
      destruct Hloop as (? & ? & ? & ? & ?); repeat split; assumption.
  - pose proof (for_each_preserves enricher_frame (NLPProcessor.enrich_document E)
                  (fun w0 => ltac:(repeat split; reflexivity))
                  enricher_frame_trans (enrich_document_frame E)
                  (preprocessed_posts w) 0 w) as Hloop.
    unfold NLPProcessor.process_documents, find.
    unfold mbind at 1. unfold M_bind. unfold mbind at 1. unfold M_bind.
    change (coll_of Preprocessed w) with (preprocessed_posts w).
    destruct (for_each _ (preprocessed_posts w) 0 w) as [[n|e] w1]; cbn [snd] in *;
      destruct Hloop as (? & ? & ?); repeat split; assumption.
  - pose proof (for_each_preserves publisher_frame
                  (ElasticsearchIndexer.index_document E index_name)
                  (fun w0 => ltac:(repeat split; reflexivity))
                  publisher_frame_trans (index_document_frame E index_name)
                  (enriched_posts w) [] w) as Hloop.
    unfold ElasticsearchIndexer.index_documents, find.
    unfold mbind at 1. unfold M_bind. unfold mbind at 1. unfold M_bind.
    change (coll_of Enriched w) with (enriched_posts w).
    destruct (for_each _ (enriched_posts w) [] w) as [[cur|e] w1]; cbn [snd] in *;
      [|exact Hloop].
    destruct cur as [|a cur].
    + destruct Hloop as (? & ? & ? & ? & ? & ?). repeat split; assumption.
    + unfold mbind at 1. unfold M_bind.
      pose proof (bulk_index_frame E (a :: cur) w1) as Hb.
      destruct (bulk_index_run E (a :: cur) w1) as (w2 & Hrun & _).
      rewrite Hrun in *. cbn [snd] in *.
      apply (publisher_frame_trans w w1 _ Hloop).
      destruct Hb as (? & ? & ? & ? & ? & ?). repeat split; assumption.
Qed.

(** ** Looking up what was written *)

Lemma upsert_stores (s : collection * nat) (u : value) (d : document) :
  d !! "url" = Some u ->
  exists x, x ∈ fst (upsert s (u, d)) /\ url_key x = u /\ d ⊆ x.
Proof.
  intros Hd. destruct s as [c n]. unfold upsert. cbn [fst snd].
  destruct (set_first u d c) as [c'|] eqn:Hc; cbn [fst].
  - apply set_first_Some in Hc as (pre & x & post & -> & _ & Hx & ->).
    exists (d ∪ x). split; [|split].
    + apply elem_of_app. right. apply list_elem_of_here.
    + apply (url_key_union d x u Hd).
    + apply map_union_subseteq_l.
  - exists (upserted_doc u d n). split; [|split].
    + apply elem_of_app. right. apply list_elem_of_here.
    + apply (url_key_upserted u d n Hd).
    + unfold upserted_doc. etransitivity; apply map_union_subseteq_l.
Qed.

(** A write leaves the documents of every other url as they are. *)
Lemma upsert_keeps_other (s : collection * nat) (wr : value * document) (x : document) :
  fst wr <> url_key x -> x ∈ fst s -> x ∈ fst (upsert s wr).
Proof.
  intros Hne Hx. destruct s as [c n], wr as [u d]. unfold upsert. cbn [fst snd] in *.
  destruct (set_first u d c) as [c'|] eqn:Hc; cbn [fst].
  - apply set_first_Some in Hc as (pre & y & post & -> & _ & Hy & ->).
    apply elem_of_app in Hx as [Hx|Hx]; apply elem_of_app; [left; exact Hx|].
    right. apply elem_of_cons in Hx as [->|Hx]; [congruence|].
    apply list_elem_of_further, Hx.
  - apply elem_of_app. left. exact Hx.
Qed.

Lemma upserts_keeps_other (ws : list (value * document)) (x : document) :
  Forall (fun wr => fst wr <> url_key x) ws ->
  forall s, x ∈ fst s -> x ∈ fst (upserts ws s).
Proof.
  induction 1 as [|wr ws Hne _ IH]; intros s Hx; [exact Hx|].
  apply IH. apply upsert_keeps_other; assumption.
Qed.

(** After a run of writes, the last document written for a url is found
    under that url. *)
Lemma upserts_stores_last (ws1 ws2 : list (value * document)) (u : value)
    (d : document) (s : collection * nat) :
  d !! "url" = Some u ->
  Forall (fun wr => fst wr <> u) ws2 ->
  exists x, x ∈ fst (upserts (ws1 ++ (u, d) :: ws2) s) /\ url_key x = u /\ d ⊆ x.
Proof.
  intros Hd Hne. unfold upserts. rewrite fold_left_app. cbn [fold_left].
  fold (upserts ws1 s). fold (upserts ws2).
  destruct (upsert_stores (upserts ws1 s) u d Hd) as (x & Hx & Hk & Hsub).
  exists x. split; [|split; assumption].
  apply upserts_keeps_other; [|exact Hx]. rewrite Hk. exact Hne.
Qed.

Lemma save_write_process_document (E : env) (r : document) :
  save_write (TextPreprocessor.process_document E r)
  = (get_default r "url" (VStr ""), TextPreprocessor.process_document E r).
Proof.
  unfold save_write. f_equal.
Qed.

(** X3.  Round trip through the Normalizer, with a store that accepts every
    write: for a raw document that is the last of its url in the raw
    collection, the preprocessed collection holds, under that url, a
    document whose title and content are the cleaned texts and whose author
    and date are those of the raw document. *)
Theorem normalizer_stores_last_version (E : env) (w : world)
    (before after : collection) (r : document) :
  (forall n, update_fault E n = None) ->
  posts w = before ++ r :: after ->
  Forall (fun r' => get_default r' "url" (VStr "") <> get_default r "url" (VStr ""))
    after ->
  exists x,
    x ∈ preprocessed_posts (snd (TextPreprocessor.run E w)) /\
    url_key x = get_default r "url" (VStr "") /\
    x !! "title"
    = Some (VStr (TextPreprocessor.preprocess_text E (get_default r "title" (VStr "")))) /\
    x !! "content"
    = Some (VStr (TextPreprocessor.preprocess_text E (get_default r "content" (VStr "")))) /\
    x !! "author" = Some (get_default r "author" (VStr "unknown")) /\
    x !! "date" = Some (get r "date").
Proof.
  intros Hok Hposts Hafter.
  destruct (normalizer_run_store E Hok w) as [Hs _]. cbv zeta in Hs.
  rewrite Hposts, !map_app in Hs. cbn [map] in Hs.
  rewrite save_write_process_document in Hs.
  destruct (upserts_stores_last
              (map save_write (map (TextPreprocessor.process_document E) before))
              (map save_write (map (TextPreprocessor.process_document E) after))
              (get_default r "url" (VStr "")) (TextPreprocessor.process_document E r)
              (preprocessed_posts w, next_oid w))
    as (x & Hx & Hk & Hsub).
  { unfold TextPreprocessor.process_document. simplify_map_eq; try reflexivity. }
  { apply Forall_map, Forall_map. eapply Forall_impl; [exact Hafter|].
    intros r' Hr'. rewrite save_write_process_document. exact Hr'. }
  rewrite <- Hs in Hx. cbn [fst] in Hx.
  exists x. split; [exact Hx|]. split; [exact Hk|].
  repeat split; (eapply lookup_weaken; [|exact Hsub]);
    unfold TextPreprocessor.process_document; simplify_map_eq; try reflexivity.
Qed.

Lemma normalizer_stores_last_version_witness :
  exists x,
    x ∈ preprocessed_posts
          (snd (TextPreprocessor.run quiet_env
                  (initial_world
                     [ {[ "title" := VStr "Old <b>title</b>"; "url" := VStr "u1" ]};
                       {[ "title" := VStr "Newer title!"; "url" := VStr "u1" ]} ]))) /\
    x !! "title" = Some (VStr "newer title") /\
    x !! "author" = Some (VStr "unknown").
Proof.
  destruct (normalizer_stores_last_version quiet_env
              (initial_world
                 [ {[ "title" := VStr "Old <b>title</b>"; "url" := VStr "u1" ]};
                   {[ "title" := VStr "Newer title!"; "url" := VStr "u1" ]} ])
              [ {[ "title" := VStr "Old <b>title</b>"; "url" := VStr "u1" ]} ] []
              {[ "title" := VStr "Newer title!"; "url" := VStr "u1" ]})
    as (x & Hx & _ & Ht & _ & Ha & _).
  - intros n. reflexivity.
  - reflexivity.
  - constructor.
  - exists x. split; [exact Hx|]. split; [exact Ht | exact Ha].
Defined.

(** ** From the Normalizer to the Enricher *)

Lemma for_each_preserves_on {A B : Type} (P : A -> Prop) (R : world -> world -> Prop)
    (body : B -> A -> M B) :
  (forall w, R w w) ->
  (forall a b c, R a b -> R b c -> R a c) ->
  (forall acc x w, P x -> R w (snd (body acc x w))) ->
  forall (l : list A), Forall P l ->
  forall (acc : B) (w : world), R w (snd (for_each body l acc w)).
Proof.
  intros Hrefl Htrans Hbody l Hl.
  induction Hl as [|x r Hx _ IH]; intros acc w; [apply Hrefl|].
  rewrite for_each_cons. specialize (Hbody acc x w Hx).
  destruct (body acc x w) as [[acc'|e] w1]; cbn [snd] in *; [|exact Hbody].
  eapply Htrans; [exact Hbody | apply IH].
Qed.

Lemma process_document_wf (E : env) (r : document) :
  preprocessed_wf (TextPreprocessor.process_document E r).
Proof.
  unfold preprocessed_wf, TextPreprocessor.process_document. split.
  - eexists. simplify_map_eq; try reflexivity.
  - eexists. simplify_map_eq; try reflexivity.
Qed.

Lemma preprocessed_wf_union (d x : document) :
  preprocessed_wf d -> preprocessed_wf (d ∪ x).
Proof.
  intros [[u Hu] [s Hs]]. split.
  - exists u. apply lookup_union_Some_l, Hu.
  - exists s. apply lookup_union_Some_l, Hs.
Qed.

Lemma save_document_wf (E : env) (counts : nat * nat) (d : document) (w : world) :
  preprocessed_wf d ->
  Forall preprocessed_wf (preprocessed_posts w) ->
  Forall preprocessed_wf
    (preprocessed_posts (snd (TextPreprocessor.save_document E counts d w))).
Proof.
  intros Hd Hw. destruct Hd as [[u Hu] Hc].
  rewrite (save_document_cases E counts d u w Hu). cbv zeta.
  destruct (update_fault E _); [exact Hw|].
  destruct (set_first u d (preprocessed_posts w)) as [docs'|] eqn:Hsf;
    [destruct (changes_id u d _); [exact Hw|]
    |destruct (id_taken d _); [exact Hw|]]; cbn.
  - apply set_first_Some in Hsf as (pre & x & post & Hsplit & _ & _ & ->).
    rewrite Hsplit in Hw. apply Forall_app in Hw as [Hpre Hpost].
    inversion Hpost as [|? ? Hx Hpost']; subst.
    apply Forall_app. split; [exact Hpre|]. constructor; [|exact Hpost'].
    apply preprocessed_wf_union. split; [eexists; exact Hu | exact Hc].
  - apply Forall_app. split; [exact Hw|]. constructor; [|constructor].
    unfold upserted_doc. apply preprocessed_wf_union, preprocessed_wf_union.
    split; [eexists; exact Hu | exact Hc].
Qed.

Lemma normalizer_run_wf (E : env) (w : world) :
  Forall preprocessed_wf (preprocessed_posts w) ->
  Forall preprocessed_wf (preprocessed_posts (snd (TextPreprocessor.run E w))).
Proof.
  set (docs := map (TextPreprocessor.process_document E) (posts w)).
  change (TextPreprocessor.run E w) with (TextPreprocessor.save_to_mongodb E docs w).
  destruct docs as [|d r] eqn:Hdocs; [intros H; exact H|].
  rewrite <- Hdocs.
  rewrite (save_to_mongodb_nonempty E docs w) by (rewrite Hdocs; discriminate).
  pose proof (for_each_preserves_on preprocessed_wf
                (fun w0 w1 => Forall preprocessed_wf (preprocessed_posts w0) ->
                              Forall preprocessed_wf (preprocessed_posts w1))
                (TextPreprocessor.save_document E)
                (fun w0 H => H) (fun a b c H1 H2 H => H2 (H1 H))
                (fun acc x w0 Hx => save_document_wf E acc x w0 Hx) docs) as Hloop.
  intros Hw. specialize (Hloop ltac:(subst docs; apply Forall_map, Forall_forall;
                                     intros; apply process_document_wf) (0, 0) w Hw).
  destruct (for_each _ docs (0, 0) w) as [[counts|e] w1]; exact Hloop.
Qed.

Lemma models_behave_answer (E : env) (d : document) :
  models_behave E -> preprocessed_wf d -> models_answer E d.
Proof.
  intros [Hdet Hblob] [_ [s Hs]]. unfold models_answer, get_default. rewrite Hs. cbn.
  split.
  - intros w. destruct (Nat.lt_ge_cases (String.length s) 3) as [Hshort|Hlong].
    + rewrite (detect_language_short E s _ Hshort). eauto.
    + rewrite (detect_language_long E s _ Hlong). cbn [fst].
      destruct (detect E (length (detect_calls w)) (prefix 1000 s)) as [l|e] eqn:Hdet';
        [eauto|].
      rewrite (Hdet _ _ _ Hdet'). eauto.
  - intros language. unfold NLPProcessor.analyze_sentiment.
    destruct (negb (truthy (VStr s))); [eauto|].
    destruct (Hblob s) as [p ->]. eauto.
Qed.

(** X4.  What the Normalizer stores, the Enricher can process.  A run of the
    Normalizer, whatever writes fail, keeps the preprocessed collection made
    of documents that have a url and a text content; on such a collection,
    with a detector that raises nothing but detection failures and a
    sentiment model that answers, the Enricher returns, and its count is
    the number of documents less the number of writes the store refused. *)
Theorem normalizer_output_feeds_enricher (E : env) (w : world) :
  models_behave E ->
  Forall preprocessed_wf (preprocessed_posts w) ->
  let w1 := snd (TextPreprocessor.run E w) in
  Forall preprocessed_wf (preprocessed_posts w1) /\
  exists n w2,
    NLPProcessor.process_documents E w1 = (Returns n, w2) /\
    n + length (faults_in E (length (update_calls w1)) (length (preprocessed_posts w1)))
    = length (preprocessed_posts w1).
Proof.
  intros Hmodels Hw w1.
  pose proof (normalizer_run_wf E w Hw) as Hwf. fold w1 in Hwf.
  split; [exact Hwf|].
  destruct (enrich_loop E (preprocessed_posts w1)) with (n := 0) (w := w1)
    as (n & w2 & Hrun & Hcount & _).
  { eapply Forall_impl; [exact Hwf|]. intros d Hd. split; [apply Hd|].
    apply models_behave_answer; assumption. }
  exists n, (with_log (InfoNlpCompleted n) w2). split; [|exact Hcount].
  unfold NLPProcessor.process_documents, find.
  unfold mbind at 1. unfold M_bind. unfold mbind at 1. unfold M_bind.
  change (coll_of Preprocessed w1) with (preprocessed_posts w1).
  rewrite Hrun. reflexivity.
Qed.

Lemma normalizer_output_feeds_enricher_witness :
  exists w2,
    NLPProcessor.process_documents quiet_env
      (snd (TextPreprocessor.run quiet_env (initial_world three_posts)))
    = (Returns 3, w2).
Proof.
  destruct (normalizer_output_feeds_enricher quiet_env (initial_world three_posts))
    as (_ & n & w2 & Hrun & Hcount).
  - split; [intros s e; discriminate | intros s; exists 0%Q; reflexivity].
  - constructor.
  - vm_compute in Hcount. rewrite Nat.add_0_r in Hcount. subst n.
    exists w2. exact Hrun.
Defined.

(** ** What the Enricher stores for a document *)

(** One turn of the loop of the Enricher on a document for which the
    models answer: it returns, and the detector has been called as
    [detect_language] calls it. *)
Lemma enrich_document_answers (E : env) (n : nat) (d : document) (w : world) :
  models_answer E d ->
  exists n' w1,
    NLPProcessor.enrich_document E n d w = (Returns n', w1) /\
    detect_calls w1
    = detect_calls (snd (NLPProcessor.detect_language E
                           (get_default d "content" (VStr "")) w)).
Proof.
  intros [Hl Hs]. destruct (Hl w) as [language Hlw]. destruct (Hs language) as [sr Hsr].
  destruct (d !! "url") as [u|] eqn:Hu.
  - rewrite (enrich_document_run E n d u language sr w Hlw Hsr Hu). cbv zeta.
    match goal with
    | |- context [update_one E Enriched u ?ed ?w0] =>
        pose proof (update_one_detect_calls E Enriched u ed w0) as Hdc;
        destruct (update_one E Enriched u ed w0) as [[o|e] w2]
    end; cbn [snd] in Hdc; eexists _, _; (split; [reflexivity|]); exact Hdc.
  - rewrite (enrich_document_no_url E n d language sr w Hlw Hsr Hu).
    eexists _, _. split; reflexivity.
Qed.

Lemma enricher_writes_app (E : env) (before rest : list document) :
  Forall (models_answer E) before ->
  forall (reads n : nat) (w : world),
    enricher_writes E reads (detect_calls w) (before ++ rest)
    = enricher_writes E reads (detect_calls w) before
      ++ enricher_writes E (reads + length before)
           (detect_calls (snd (for_each (NLPProcessor.enrich_document E) before n w)))
           rest.
Proof.
  induction 1 as [|d before Hd _ IH]; intros reads n w.
  - cbn. rewrite Nat.add_0_r. reflexivity.
  - destruct (enrich_document_answers E n d w Hd) as (n' & w1 & Hrun & Hcalls).
    rewrite for_each_cons, Hrun.
    destruct (detect_language_outcome E (get_default d "content" (VStr "")) w
                (detector_world (detect_calls w)) eq_refl) as [Hout Hdc].
    rewrite Hdc in Hcalls.
    destruct Hd as [Hl Hs].
    destruct (Hl (detector_world (detect_calls w))) as [language Hlw].
    destruct (Hs language) as [sr Hsr].
    cbn [app enricher_writes length]. cbv zeta.
    rewrite Hlw, Hsr, <- Hcalls, (IH (S reads) n' w1), app_assoc.
    rewrite Nat.add_succ_r. reflexivity.
Qed.

Lemma enricher_writes_urls (E : env) (u : value) (docs : list document) :
  Forall (fun d => url_key d <> u) docs ->
  forall reads calls,
    Forall (fun wr => fst wr <> u) (enricher_writes E reads calls docs).
Proof.
  induction 1 as [|d docs Hd _ IH]; intros reads calls; [constructor|].
  cbn [enricher_writes]. cbv zeta.
  destruct (fst (NLPProcessor.detect_language E _ _)) as [language|]; [|constructor].
  destruct (NLPProcessor.analyze_sentiment E _ language) as [sr|]; [|constructor].
  apply Forall_app. split; [|apply IH].
  destruct (d !! "url") as [v|] eqn:Hv; [|constructor].
  constructor; [|constructor]. cbn [fst]. rewrite <- (url_key_Some d v Hv). exact Hd.
Qed.

(** X5.  With a store that accepts every write: when the models answer for the
    documents before a preprocessed document, the detector answers for it
    when the run comes to it, the sentiment model answers for it, and no
    later document has its url, the enriched collection holds under that
    url a document with the title, content, author and date of the
    preprocessed one, the language detected in that run, the polarity and
    label computed, and a time stamp. *)
Theorem enricher_stores_enrichment (E : env) (w : world)
    (before after : collection) (d : document) (u : value)
    (language : string) (sr : sentiment_result) :
  (forall n, update_fault E n = None) ->
  preprocessed_posts w = before ++ d :: after ->
  Forall (models_answer E) before ->
  d !! "url" = Some u ->
  fst (NLPProcessor.detect_language E (get_default d "content" (VStr ""))
         (snd (for_each (NLPProcessor.enrich_document E) before 0 w)))
  = Returns language ->
  NLPProcessor.analyze_sentiment E (get_default d "content" (VStr "")) language
  = Returns sr ->
  Forall (fun d' => url_key d' <> u) after ->
  exists x,
    x ∈ enriched_posts (snd (NLPProcessor.process_documents E w)) /\
    url_key x = u /\
    x !! "title" = Some (get_default d "title" (VStr "")) /\
    x !! "content" = Some (get_default d "content" (VStr "")) /\
    x !! "author" = Some (get_default d "author" (VStr "unknown")) /\
    x !! "date" = Some (get d "date") /\
    x !! "language" = Some (VStr language) /\
    x !! "sentiment" = Some (VStr (sentiment sr)) /\
    x !! "polarity" = Some (VFloat (polarity sr)) /\
    x !! "enriched_at"
    = Some (VDate (now E (clock_reads w + length before))).
Proof.
  intros Hok Hpre Hbefore Hu Hl Hs Hafter.
  destruct (enricher_run_store E Hok w) as [Hst _]. cbv zeta in Hst.
  rewrite Hpre, (enricher_writes_app E before (d :: after) Hbefore _ 0 w) in Hst.
  cbn [enricher_writes] in Hst. cbv zeta in Hst.
  destruct (detect_language_outcome E (get_default d "content" (VStr ""))
              (snd (for_each (NLPProcessor.enrich_document E) before 0 w))
              (detector_world
                 (detect_calls (snd (for_each (NLPProcessor.enrich_document E)
                                       before 0 w)))) eq_refl) as [Hout Hdc].
  rewrite <- Hout, Hl, Hs, Hu in Hst.
  cbn [app] in Hst.
  set (ed := NLPProcessor.enriched_doc d (get_default d "content" (VStr "")) language sr
               (VDate (now E (clock_reads w + length before)))) in *.
  match type of Hst with
  | _ = upserts (?ws1 ++ _ :: ?ws2) _ =>
      destruct (upserts_stores_last ws1 ws2 u ed (enriched_posts w, next_oid w))
        as (x & Hx & Hk & Hsub)
  end.
  { subst ed. unfold NLPProcessor.enriched_doc, get_default. rewrite Hu.
    simplify_map_eq; try reflexivity. }
  { apply enricher_writes_urls, Hafter. }
  rewrite <- Hst in Hx. cbn [fst] in Hx.
  exists x. split; [exact Hx|]. split; [exact Hk|].
  repeat split; (eapply lookup_weaken; [|exact Hsub]);
    subst ed; unfold NLPProcessor.enriched_doc; simplify_map_eq; try reflexivity.
Qed.

Lemma enricher_stores_enrichment_witness :
  exists x,
    x ∈ enriched_posts
          (snd (NLPProcessor.process_documents quiet_env
                  (preprocessed_world
                     [ {[ "title" := VStr "second"; "content" := VStr "fine words";
                          "url" := VStr "u2" ]} ]))) /\
    x !! "language" = Some (VStr "en") /\
    x !! "sentiment" = Some (VStr "neutral") /\
    x !! "title" = Some (VStr "second").
Proof.
  destruct (enricher_stores_enrichment quiet_env
              (preprocessed_world
                 [ {[ "title" := VStr "second"; "content" := VStr "fine words";
                      "url" := VStr "u2" ]} ])
              [] []
              {[ "title" := VStr "second"; "content" := VStr "fine words";
                 "url" := VStr "u2" ]}
              (VStr "u2") "en" {| polarity := 0; sentiment := "neutral" |})
    as (x & Hx & _ & Ht & _ & _ & _ & Hlang & Hsent & _).
  - intros n. reflexivity.
  - reflexivity.
  - constructor.
  - reflexivity.
  - reflexivity.
  - reflexivity.
  - constructor.
  - exists x. split; [exact Hx|]. split; [exact Hlang|]. split; [exact Hsent | exact Ht].
Defined.

(** ** How many bulk calls the Publisher makes *)

Lemma actions_from_length (E : env) (index_name : string) (docs : list document) :
  forall reads, length (actions_from E index_name reads docs) = length docs.
Proof.
  induction docs as [|d r IH]; intros reads; [reflexivity|].
  cbn [actions_from length]. rewrite IH. reflexivity.
Qed.

Lemma concat_full_length (full : list (list action)) :
  Forall (fun b => length b = 500) full ->
  length (concat full) = 500 * length full.
Proof.
  induction 1 as [|b full Hb _ IH]; [cbn [concat length]; lia|].
  cbn [concat length]. rewrite length_app, Hb, IH. lia.
Qed.

Lemma index_documents_calls (E : env) (index_name : string) (w : world) :
  exists w' batches,
    ElasticsearchIndexer.index_documents E index_name w = (Returns tt, w') /\
    bulk_calls w' = bulk_calls w ++ batches /\
    length batches = (length (enriched_posts w) + 499) / 500 /\
    length (concat batches) = length (enriched_posts w).
Proof.
  unfold ElasticsearchIndexer.index_documents, find.
  unfold mbind at 1. unfold M_bind. unfold mbind at 1. unfold M_bind.
  change (coll_of Enriched w) with (enriched_posts w).
  destruct (index_loop E index_name (enriched_posts w) [] w)
    as (cur & w1 & full & -> & Hcur & Hb & Hall & Hcat & _); [cbn [length]; lia|].
  cbn [app] in Hcat.
  apply (f_equal (@length action)) in Hcat.
  rewrite length_app, (concat_full_length full Hall), actions_from_length in Hcat.
  destruct cur as [|a cur].
  - exists (with_log InfoIndexingCompleted w1), full.
    split; [reflexivity|]. split; [exact Hb|].
    cbn [length] in Hcat. split.
    + apply (Nat.div_unique _ 500 _ 499); lia.
    + rewrite (concat_full_length full Hall). lia.
  - unfold mbind at 1. unfold M_bind.
    destruct (bulk_index_run E (a :: cur) w1) as (w2 & -> & Hb2 & _).
    exists (with_log InfoIndexingCompleted w2), (full ++ [a :: cur]).
    split; [reflexivity|].
    split; [cbn [bulk_calls with_log]; rewrite Hb2, Hb, <- app_assoc; reflexivity|].
    rewrite concat_app, !length_app, (concat_full_length full Hall).
    cbn [concat length app] in *. rewrite app_nil_r. cbn [length]. split.
    + rewrite Nat.add_1_r. apply (Nat.div_unique _ 500 _ (length cur)); lia.
    + lia.
Qed.

(** X6.  For an enriched collection of n documents the Publisher calls the bulk
    loader exactly ceil(n / 500) times, not at all when the collection is
    empty, and the batches of the run hold n actions in total. *)
Theorem index_documents_call_count (E : env) (index_name : string) (w : world) :
  let n := length (enriched_posts w) in
  let w' := snd (ElasticsearchIndexer.index_documents E index_name w) in
  length (bulk_calls w') = length (bulk_calls w) + (n + 499) / 500 /\
  length (concat (drop (length (bulk_calls w)) (bulk_calls w'))) = n.
Proof.
  intros n w'. subst n w'.
  destruct (index_documents_calls E index_name w) as (w' & batches & -> & Hb & Hlen & Hcat).
  cbn [snd]. rewrite Hb, length_app, drop_app_length, Hlen, Hcat. split; reflexivity.
Qed.

(** * Further properties of the text transform *)

Lemma sub_scan_length (m : string -> option nat) (s : string) :
  forall k, String.length (Text.sub_scan m k s) <= String.length s.
Proof.
  induction s as [|c r IH]; intros k; [cbn; lia|].
  cbn [Text.sub_scan String.length]. destruct k as [|k].
  - destruct (m (String c r)) as [[|j]|]; cbn [String.length];
      try (specialize (IH 0); lia). specialize (IH j). lia.
  - specialize (IH k). lia.
Qed.

(** A substitution deletes characters, it adds or changes none. *)
Lemma sub_scan_all_chars (p : ascii -> bool) (m : string -> option nat) (s : string) :
  all_chars p s = true -> forall k, all_chars p (Text.sub_scan m k s) = true.
Proof.
  induction s as [|c r IH]; intros Hs k; [reflexivity|].
  cbn [all_chars] in Hs. apply andb_true_iff in Hs as [Hc Hr].
  cbn [Text.sub_scan]. destruct k as [|k]; [|apply IH, Hr].
  destruct (m (String c r)) as [[|j]|]; cbn [all_chars];
    rewrite ?Hc; cbn [andb]; apply IH, Hr.
Qed.

Lemma sub_scan_unmatched (m : string -> option nat) (s : string) :
  unmatched m s -> Text.sub_scan m 0 s = s.
Proof.
  induction s as [|c r IH]; [reflexivity|].
  cbn [unmatched Text.sub_scan]. intros [Hm Hr].
  destruct (m (String c r)) as [[|j]|]; try contradiction; rewrite (IH Hr); reflexivity.
Qed.

Lemma keep_chars_all (p : ascii -> bool) (s : string) :
  all_chars p (keep_chars p s) = true.
Proof.
  induction s as [|c r IH]; [reflexivity|].
  cbn [keep_chars]. destruct (p c) eqn:Hc; [|exact IH].
  cbn [all_chars]. rewrite Hc, IH. reflexivity.
Qed.

Lemma keep_chars_id (p : ascii -> bool) (s : string) :
  all_chars p s = true -> keep_chars p s = s.
Proof.
  induction s as [|c r IH]; [reflexivity|]. cbn [all_chars keep_chars].
  intros H. apply andb_true_iff in H as [Hc Hr]. rewrite Hc, (IH Hr). reflexivity.
Qed.

(** X7.  [remove_special_chars] leaves ASCII letters and white space only, is
    the identity on a text made of those, hence idempotent; it returns the
    empty string for anything that is not a string. *)
Theorem remove_special_chars_letters_only (text : value) :
  let keep := fun c => Text.is_ascii_letter c || Text.is_space c in
  let out := TextPreprocessor.remove_special_chars text in
  all_chars keep out = true /\
  TextPreprocessor.remove_special_chars (VStr out) = out /\
  (forall s, text = VStr s -> all_chars keep s = true -> out = s) /\
  (forall s, text = VStr s -> String.length out <= String.length s) /\
  ((forall s, text <> VStr s) -> out = "").
Proof.
  intros keep out. subst out.
  assert (Hstr : forall s, TextPreprocessor.remove_special_chars (VStr s) = keep_chars keep s).
  { intros s. unfold TextPreprocessor.remove_special_chars, Text.re_sub_empty.
    apply sub_scan_special. }
  destruct text as [|s| | |].
  2: { rewrite !Hstr. split; [apply keep_chars_all|].
    split; [apply keep_chars_id, keep_chars_all|].
    split; [intros s' [= <-] Hall; apply keep_chars_id, Hall|].
    split.
    - intros s' [= <-]. rewrite <- Hstr.
      unfold TextPreprocessor.remove_special_chars, Text.re_sub_empty.
      apply sub_scan_length.
    - intros H. exfalso. apply (H s). reflexivity. }
  all: cbn; repeat split; try reflexivity; intros s Hs; discriminate Hs.
Qed.

Lemma remove_special_chars_letters_only_witness :
  TextPreprocessor.remove_special_chars (VStr "Hello world") = "Hello world".
Proof.
  apply (proj1 (proj2 (proj2 (remove_special_chars_letters_only (VStr "Hello world"))))
           "Hello world"); reflexivity.
Defined.

(** ** Tags *)

(** Where no [>] closes the line, none does after the tags that follow
    have been removed. *)
Lemma tag_close_scan (r : string) :
  Text.tag_close r = None -> Text.tag_close (Text.sub_scan Text.match_tag 0 r) = None.
Proof.
  induction r as [|c r IH]; [reflexivity|].
  cbn [Text.tag_close]. destruct (Ascii.eqb c ">") eqn:Hgt; [discriminate|].
  destruct (Ascii.eqb c "010") eqn:Hnl.
  - intros _. apply Ascii.eqb_eq in Hnl. subst c. reflexivity.
  - intros Hr. destruct (Text.tag_close r) as [j|] eqn:Hc; [discriminate|].
    cbn [Text.sub_scan Text.match_tag]. rewrite Hc.
    destruct (Ascii.eqb c "<"); cbn [fmap option_fmap option_map Text.tag_close];
      rewrite Hgt, Hnl, (IH eq_refl); reflexivity.
Qed.

Lemma remove_html_unmatched (s : string) :
  forall k, unmatched Text.match_tag (Text.sub_scan Text.match_tag k s).
Proof.
  induction s as [|c r IH]; intros k; [exact I|].
  cbn [Text.sub_scan]. destruct k as [|k]; [|apply IH].
  destruct (Text.match_tag (String c r)) as [[|j]|] eqn:Hm; try apply IH.
  - cbn [Text.match_tag] in Hm. destruct (Ascii.eqb c "<"); [|discriminate].
    destruct (Text.tag_close r); discriminate.
  - cbn [unmatched]. split; [|apply IH].
    cbn [Text.match_tag] in *. destruct (Ascii.eqb c "<"); [|exact I].
    destruct (Text.tag_close r) as [j|] eqn:Hc; [discriminate|].
    rewrite (tag_close_scan r Hc). exact I.
Qed.

Lemma no_lt_unmatched (s : string) :
  all_chars (fun c => negb (Ascii.eqb c "<")) s = true -> unmatched Text.match_tag s.
Proof.
  induction s as [|c r IH]; [intros _; exact I|].
  cbn [all_chars unmatched]. intros H. apply andb_true_iff in H as [Hc Hr].
  split; [|apply IH, Hr]. cbn [Text.match_tag].
  apply negb_true_iff in Hc. rewrite Hc. exact I.
Qed.

(** X8.  [remove_html] leaves no complete tag behind: applying it twice is
    applying it once.  A text without the character [<] comes back
    unchanged, and the result is never longer than the text. *)
Theorem remove_html_idempotent (text : value) :
  let out := TextPreprocessor.remove_html text in
  TextPreprocessor.remove_html (VStr out) = out /\
  unmatched Text.match_tag out /\
  (forall s, text = VStr s ->
     all_chars (fun c => negb (Ascii.eqb c "<")) s = true -> out = s) /\
  (forall s, text = VStr s -> String.length out <= String.length s).
Proof.
  intros out. subst out. destruct text as [|s| | |].
  2: { unfold TextPreprocessor.remove_html, Text.re_sub_empty.
       pose proof (remove_html_unmatched s 0) as Hun.
       split; [apply sub_scan_unmatched, Hun|]. split; [exact Hun|].
       split.
       - intros s' [= <-] Hall. apply sub_scan_unmatched, no_lt_unmatched, Hall.
       - intros s' [= <-]. apply sub_scan_length. }
  all: cbn; repeat split; try reflexivity; intros s Hs; discriminate Hs.
Qed.

Lemma remove_html_idempotent_witness :
  TextPreprocessor.remove_html (VStr "no tags here") = "no tags here".
Proof.
  apply (proj1 (proj2 (proj2 (remove_html_idempotent (VStr "no tags here"))))
           "no tags here"); reflexivity.
Defined.

(** ** The tokens that reach the lemmatizer *)

Lemma lower_char_not_upper (c : ascii) :
  negb (Text.between 65 90 (Text.code (Text.lower_char c))) = true.
Proof. destruct c as [[] [] [] [] [] [] [] []]; reflexivity. Qed.

Lemma lower_not_upper (s : string) :
  all_chars (fun c => negb (Text.between 65 90 (Text.code c))) (Text.lower s) = true.
Proof.
  induction s as [|c r IH]; [reflexivity|].
  cbn [Text.lower all_chars]. rewrite lower_char_not_upper, IH. reflexivity.
Qed.

Lemma all_chars_and (p q : ascii -> bool) (s : string) :
  all_chars p s = true -> all_chars q s = true ->
  all_chars (fun c => p c && q c) s = true.
Proof.
  induction s as [|c r IH]; [reflexivity|]. cbn [all_chars].
  intros Hp Hq. apply andb_true_iff in Hp as [Hp1 Hp2].
  apply andb_true_iff in Hq as [Hq1 Hq2]. rewrite Hp1, Hq1, (IH Hp2 Hq2). reflexivity.
Qed.

Lemma all_chars_impl (p q : ascii -> bool) (s : string) :
  (forall c, p c = true -> q c = true) -> all_chars p s = true -> all_chars q s = true.
Proof.
  intros Hpq. induction s as [|c r IH]; [reflexivity|]. cbn [all_chars].
  intros H. apply andb_true_iff in H as [H1 H2]. rewrite (Hpq c H1), (IH H2). reflexivity.
Qed.

Lemma all_chars_snoc (p : ascii -> bool) (s : string) (c : ascii) :
  all_chars p s = true -> p c = true ->
  all_chars p (s ++ String c "")%string = true.
Proof.
  intros Hs Hc. induction s as [|a r IH].
  - change (all_chars p (String c "") = true). cbn [all_chars]. rewrite Hc. reflexivity.
  - change (all_chars p (String a (r ++ String c "")%string) = true).
    cbn [all_chars] in *. apply andb_true_iff in Hs as [Ha Hr].
    rewrite Ha, (IH Hr). reflexivity.
Qed.

(** The tokens of [split] are made of the characters of the text that are
    not white space. *)
Lemma split_from_all_chars (p : ascii -> bool) (s : string) :
  all_chars p s = true ->
  forall cur,
    all_chars (fun c => p c && negb (Text.is_space c)) cur = true ->
    Forall (fun t => all_chars (fun c => p c && negb (Text.is_space c)) t = true)
      (Text.split_from cur s).
Proof.
  induction s as [|c r IH]; intros Hs cur Hcur.
  - cbn [Text.split_from]. destruct (String.eqb cur ""); repeat constructor. exact Hcur.
  - cbn [all_chars] in Hs. apply andb_true_iff in Hs as [Hc Hr].
    cbn [Text.split_from]. destruct (Text.is_space c) eqn:Hsp.
    + destruct (String.eqb cur ""); [apply (IH Hr); reflexivity|].
      constructor; [exact Hcur | apply (IH Hr); reflexivity].
    + apply (IH Hr). apply all_chars_snoc; [exact Hcur|]. rewrite Hc, Hsp. reflexivity.
Qed.

Lemma lower_letter_of_kept (c : ascii) :
  ((Text.is_ascii_letter c || Text.is_space c)
   && negb (Text.between 65 90 (Text.code c))) && negb (Text.is_space c) = true ->
  is_lower_letter c = true.
Proof.
  unfold Text.is_ascii_letter, is_lower_letter.
  destruct (Text.is_space c), (Text.between 65 90 (Text.code c)),
    (Text.between 97 122 (Text.code c)); cbn; congruence.
Qed.

(** X10.  Whatever the text, [preprocess_text] is the join of the lemmatized
    surviving tokens, and every token that reaches the lemmatizer is made
    of the letters a to z only, is at least 3 characters long and is not a
    stop word. *)
Theorem surviving_tokens_shape (E : env) (s : string) :
  TextPreprocessor.preprocess_text E (VStr s)
  = Text.join_space (map (lemmatize E) (surviving_tokens E s)) /\
  Forall (fun t => all_chars is_lower_letter t = true /\
                   2 < String.length t /\ t ∉ stop_words E)
    (surviving_tokens E s).
Proof.
  split.
  - unfold TextPreprocessor.preprocess_text, surviving_tokens.
    destruct (String.eqb_spec s "") as [->|_]; reflexivity.
  - unfold surviving_tokens. cbv zeta.
    set (cleaned := TextPreprocessor.remove_special_chars _).
    assert (Hclean : all_chars
                       (fun c => (Text.is_ascii_letter c || Text.is_space c)
                                 && negb (Text.between 65 90 (Text.code c)))
                       cleaned = true).
    { subst cleaned. apply all_chars_and.
      - unfold TextPreprocessor.remove_special_chars, Text.re_sub_empty.
        rewrite sub_scan_special. apply keep_chars_all.
      - unfold TextPreprocessor.remove_special_chars, TextPreprocessor.remove_urls,
          TextPreprocessor.remove_html, Text.re_sub_empty.
        do 3 apply sub_scan_all_chars. apply lower_not_upper. }
    pose proof (split_from_all_chars _ cleaned Hclean "" eq_refl) as Htok.
    fold (Text.split cleaned) in Htok.
    induction Htok as [|t ts Ht _ IH]; [constructor|].
    cbn [List.filter]. destruct (TextPreprocessor.keep_token E t) eqn:Hk; [|exact IH].
    constructor; [|exact IH].
    unfold TextPreprocessor.keep_token in Hk. apply andb_true_iff in Hk as [Hstop Hlen].
    split; [|split].
    + eapply all_chars_impl; [|exact Ht]. exact lower_letter_of_kept.
    + apply Nat.ltb_lt, Hlen.
    + apply bool_decide_eq_true in Hstop. exact Hstop.
Qed.

(** ** URLs *)

Lemma strip_prefix_space (lit : string) (c : ascii) (r : string) :
  all_chars (fun a => negb (Text.is_space a)) lit = true ->
  lit <> "" -> Text.is_space c = true ->
  Text.strip_prefix lit (String c r) = None.
Proof.
  intros Hlit Hne Hc. destruct lit as [|a lit']; [contradiction|].
  cbn [Text.strip_prefix all_chars] in *. apply andb_true_iff in Hlit as [Ha _].
  destruct (Ascii.eqb a c) eqn:Hac; [|reflexivity].
  apply Ascii.eqb_eq in Hac. subst a. rewrite Hc in Ha. discriminate.
Qed.

Lemma match_url_space (c : ascii) (r : string) :
  Text.is_space c = true -> Text.match_url (String c r) = None.
Proof.
  intros Hc. unfold Text.match_url, Text.match_lit_run.
  rewrite !(strip_prefix_space _ c r) by (reflexivity || discriminate || exact Hc).
  reflexivity.
Qed.

Lemma match_lit_run_Some (lit s : string) (n : nat) :
  Text.match_lit_run lit s = Some n ->
  exists rest k,
    Text.strip_prefix lit s = Some rest /\ Text.nonspace_run rest = S k /\
    n = String.length lit + S k.
Proof.
  unfold Text.match_lit_run.
  destruct (Text.strip_prefix lit s) as [rest|]; [|discriminate].
  destruct (Text.nonspace_run rest) as [|k] eqn:Hk; [discriminate|].
  intros [= <-]. eauto.
Qed.

Lemma match_url_Some (s : string) (n : nat) :
  Text.match_url s = Some n ->
  exists lit rest k,
    Text.strip_prefix lit s = Some rest /\ Text.nonspace_run rest = S k /\
    n = String.length lit + S k.
Proof.
  unfold Text.match_url.
  destruct (Text.match_lit_run "http" s) as [n1|] eqn:H1.
  { intros [= <-]. apply match_lit_run_Some in H1 as (rest & k & ? & ? & ?). eauto 6. }
  destruct (Text.match_lit_run "www" s) as [n2|] eqn:H2.
  { intros [= <-]. apply match_lit_run_Some in H2 as (rest & k & ? & ? & ?). eauto 6. }
  intros H3. apply match_lit_run_Some in H3 as (rest & k & ? & ? & ?). eauto 6.
Qed.

(** Skipping a literal that is there. *)
Lemma sub_scan_skip_prefix (m : string -> option nat) (lit : string) :
  forall s rest k,
    Text.strip_prefix lit s = Some rest ->
    Text.sub_scan m (String.length lit + k) s
    = match k with
      | O => Text.sub_scan m 0 rest
      | S _ => Text.sub_scan m k rest
      end.
Proof.
  induction lit as [|a lit IH]; intros s rest k H.
  - cbn in H. injection H as <-. destruct k; reflexivity.
  - destruct s as [|b s]; [discriminate|]. cbn [Text.strip_prefix] in H.
    destruct (Ascii.eqb a b); [|discriminate].
    cbn [String.length Nat.add Text.sub_scan]. apply IH, H.
Qed.

(** After the deletion of a run of non-space characters comes white space
    or the end of the text. *)
Lemma sub_scan_after_run (r : string) :
  let o := Text.sub_scan Text.match_url (Text.nonspace_run r) r in
  o = "" \/ exists c o', o = String c o' /\ Text.is_space c = true.
Proof.
  induction r as [|c r IH]; [left; reflexivity|].
  cbn [Text.nonspace_run]. destruct (Text.is_space c) eqn:Hc.
  - right. cbn [Text.sub_scan]. rewrite (match_url_space c r Hc). eauto.
  - cbn [Text.sub_scan]. exact IH.
Qed.

Lemma sub_scan_after_match (c : ascii) (r : string) (j : nat) :
  Text.match_url (String c r) = Some (S j) ->
  let o := Text.sub_scan Text.match_url j r in
  o = "" \/ exists a o', o = String a o' /\ Text.is_space a = true.
Proof.
  intros Hm. apply match_url_Some in Hm as (lit & rest & k & Hp & Hk & Hn).
  pose proof (sub_scan_skip_prefix Text.match_url lit (String c r) rest (S k) Hp) as Hskip.
  rewrite <- Hn in Hskip. cbn [Text.sub_scan] in Hskip. cbv zeta. rewrite Hskip, <- Hk.
  apply sub_scan_after_run.
Qed.

(** A non-space character at the head of the result was at the head of the
    text. *)
Lemma sub_scan_head (s : string) (c : ascii) (o' : string) :
  Text.sub_scan Text.match_url 0 s = String c o' ->
  Text.is_space c = false ->
  exists r, s = String c r /\ o' = Text.sub_scan Text.match_url 0 r.
Proof.
  destruct s as [|a r]; [discriminate|]. cbn [Text.sub_scan].
  destruct (Text.match_url (String a r)) as [[|j]|] eqn:Hm.
  - intros [= -> <-] _. eauto.
  - intros Ho Hc. destruct (sub_scan_after_match a r j Hm) as [Hnil | (b & o2 & Hb & Hsp)].
    + rewrite Hnil in Ho. discriminate.
    + rewrite Hb in Ho. injection Ho as -> ->. congruence.
  - intros [= -> <-] _. eauto.
Qed.

Lemma strip_prefix_transfer (lit : string) :
  all_chars (fun a => negb (Text.is_space a)) lit = true ->
  forall s rest_o,
    Text.strip_prefix lit (Text.sub_scan Text.match_url 0 s) = Some rest_o ->
    exists rest,
      Text.strip_prefix lit s = Some rest /\
      rest_o = Text.sub_scan Text.match_url 0 rest.
Proof.
  induction lit as [|a lit IH]; intros Hlit s rest_o H.
  - cbn in H. injection H as <-. exists s. split; reflexivity.
  - cbn [all_chars] in Hlit. apply andb_true_iff in Hlit as [Ha Hlit].
    destruct (Text.sub_scan Text.match_url 0 s) as [|b o'] eqn:Ho; [discriminate|].
    cbn [Text.strip_prefix] in H. destruct (Ascii.eqb a b) eqn:Hab; [|discriminate].
    apply Ascii.eqb_eq in Hab. subst b. apply negb_true_iff in Ha.
    destruct (sub_scan_head s a o' Ho Ha) as (r & -> & ->).
    destruct (IH Hlit r rest_o H) as (rest & Hr & ->).
    exists rest. cbn [Text.strip_prefix]. rewrite Ascii.eqb_refl. split; [exact Hr | reflexivity].
Qed.

Lemma match_lit_run_transfer (lit s : string) (n : nat) :
  all_chars (fun a => negb (Text.is_space a)) lit = true ->
  Text.match_lit_run lit (Text.sub_scan Text.match_url 0 s) = Some n ->
  exists n', Text.match_lit_run lit s = Some n'.
Proof.
  intros Hlit H. apply match_lit_run_Some in H as (rest_o & k & Hp & Hk & _).
  destruct (strip_prefix_transfer lit Hlit s rest_o Hp) as (rest & Hr & ->).
  unfold Text.match_lit_run. rewrite Hr.
  destruct (Text.sub_scan Text.match_url 0 rest) as [|c o'] eqn:Ho; [discriminate|].
  cbn [Text.nonspace_run] in Hk. destruct (Text.is_space c) eqn:Hc; [discriminate|].
  destruct (sub_scan_head rest c o' Ho Hc) as (r & -> & _).
  cbn [Text.nonspace_run]. rewrite Hc. eauto.
Qed.

Lemma match_url_transfer (s : string) (n : nat) :
  Text.match_url (Text.sub_scan Text.match_url 0 s) = Some n ->
  exists n', Text.match_url s = Some n'.
Proof.
  unfold Text.match_url at 1.
  destruct (Text.match_lit_run "http" (Text.sub_scan Text.match_url 0 s)) as [n1|] eqn:H1.
  { intros _. apply match_lit_run_transfer in H1 as [n' Hn']; [|reflexivity].
    unfold Text.match_url. rewrite Hn'. eauto. }
  destruct (Text.match_lit_run "www" (Text.sub_scan Text.match_url 0 s)) as [n2|] eqn:H2.
  { intros _. apply match_lit_run_transfer in H2 as [n' Hn']; [|reflexivity].
    unfold Text.match_url. rewrite Hn'.
    destruct (Text.match_lit_run "http" s); eauto. }
  intros H3. apply match_lit_run_transfer in H3 as [n' Hn']; [|reflexivity].
  unfold Text.match_url. rewrite Hn'.
  destruct (Text.match_lit_run "http" s); [eauto|].
  destruct (Text.match_lit_run "www" s); eauto.
Qed.

Lemma remove_urls_unmatched (s : string) :
  forall k, unmatched Text.match_url (Text.sub_scan Text.match_url k s).
Proof.
  induction s as [|c r IH]; intros k; [exact I|].
  cbn [Text.sub_scan]. destruct k as [|k]; [|apply IH].
  destruct (Text.match_url (String c r)) as [[|j]|] eqn:Hm; try apply IH.
  - apply match_url_Some in Hm as (lit & rest & k & _ & _ & Hn). lia.
  - cbn [unmatched]. split; [|apply IH].
    destruct (Text.match_url (String c (Text.sub_scan Text.match_url 0 r)))
      as [[|j]|] eqn:Hm'; try exact I.
    assert (Ho : Text.sub_scan Text.match_url 0 (String c r)
                 = String c (Text.sub_scan Text.match_url 0 r)).
    { cbn [Text.sub_scan]. rewrite Hm. reflexivity. }
    rewrite <- Ho in Hm'. apply match_url_transfer in Hm' as [n' Hn']. congruence.
Qed.

(** X9.  [remove_urls] leaves no URL-shaped substring behind: applying it twice
    is applying it once; the result is never longer than the text. *)
Theorem remove_urls_idempotent (text : value) :
  let out := TextPreprocessor.remove_urls text in
  TextPreprocessor.remove_urls (VStr out) = out /\
  unmatched Text.match_url out /\
  (forall s, text = VStr s -> String.length out <= String.length s).
Proof.
  intros out. subst out. destruct text as [|s| | |].
  2: { unfold TextPreprocessor.remove_urls, Text.re_sub_empty.
       pose proof (remove_urls_unmatched s 0) as Hun.
       split; [apply sub_scan_unmatched, Hun|]. split; [exact Hun|].
       intros s' [= <-]. apply sub_scan_length. }
  all: cbn; repeat split; try reflexivity; intros s Hs; discriminate Hs.
Qed.

Lemma remove_urls_idempotent_witness :
  String.length (TextPreprocessor.remove_urls (VStr "see http://x.co now")) <= 19.
Proof.
  apply (proj2 (proj2 (remove_urls_idempotent (VStr "see http://x.co now")))
           "see http://x.co now"). reflexivity.
Defined.

(** * The entry points *)

(** ** Credentials *)

Lemma is_set_spec (environ : gmap string string) (var : string) :
  Scraper.is_set environ var = true <->
  exists s, environ !! var = Some s /\ s <> "".
Proof.
  unfold Scraper.is_set. destruct (environ !! var) as [s|].
  - destruct (String.eqb_spec s "") as [->|Hne]; cbn.
    + split; [discriminate|]. intros (s & [= <-] & H). contradiction.
    + split; [eauto|reflexivity].
  - split; [discriminate|]. intros (s & H & _). discriminate.
Qed.

(** X11.  [validate_credentials] answers True exactly when each of the seven
    variables is set to a non-empty string (a variable set to the empty
    string counts as missing); it logs one warning for each platform that
    lacks a variable, in the order Reddit, Twitter, Telegram; and [main]
    gives up, after those warnings, exactly when the answer is False. *)
Theorem validate_credentials_all_set (environ : gmap string string) :
  let r := Scraper.validate_credentials environ in
  (fst r = true <->
   Forall (fun var => exists s, environ !! var = Some s /\ s <> "")
     (flat_map snd Scraper.required)) /\
  snd r
  = map (fun pv => Scraper.WarnCredentialsMissing (fst pv) (snd pv))
      (List.filter (fun pv => negb (forallb (Scraper.is_set environ) (snd pv)))
         Scraper.required) /\
  Scraper.main environ
  = [Scraper.InfoStartingScraping] ++ snd r
    ++ [if fst r then Scraper.InfoScrapingCompleted else Scraper.ErrMissingCredentials].
Proof.
  cbv zeta. split; [|split].
  - rewrite Forall_forall.
    assert (Hall : fst (Scraper.validate_credentials environ)
                   = forallb (Scraper.is_set environ) (flat_map snd Scraper.required)).
    { unfold Scraper.validate_credentials, Scraper.required, Scraper.check_platform.
      cbn [fold_left flat_map snd fst app forallb].
      repeat (destruct (Scraper.is_set environ _); cbn [andb fst snd]; try reflexivity). }
    rewrite Hall, forallb_forall. split.
    + intros H var Hin. apply is_set_spec, H, list_elem_of_In, Hin.
    + intros H var Hin. apply is_set_spec, H, list_elem_of_In, Hin.
  - unfold Scraper.validate_credentials, Scraper.required, Scraper.check_platform.
    cbn [fold_left List.filter map snd fst].
    repeat (destruct (forallb (Scraper.is_set environ) _); cbn [negb map snd fst app];
            try reflexivity).
  - unfold Scraper.main. destruct (fst (Scraper.validate_credentials environ)); reflexivity.
Qed.

(** ** The index of the Publisher *)

Lemma es_doc_fields (doc : document) (date_default indexed_at : value) :
  dom (ElasticsearchIndexer.es_doc doc date_default indexed_at)
  = dom (Elasticsearch.ix_properties Elasticsearch.fresh_index).
Proof.
  unfold ElasticsearchIndexer.es_doc, Elasticsearch.fresh_index, Elasticsearch.properties.
  cbn [Elasticsearch.ix_properties]. rewrite !dom_insert_L, !dom_singleton_L. reflexivity.
Qed.

(** X12.  [create_index], when it returns, leaves under the index name a new
    empty index with the fixed mapping, 1 shard and 0 replicas, whatever
    the index held before, and leaves every other index alone; it deletes
    exactly when the index existed.  The fields of the mapping are exactly
    the fields of the documents [transform_document] builds. *)
Theorem create_index_rebuilds (fault : nat -> option exn) (index_name : string)
    (es es' : Elasticsearch.cluster) :
  Elasticsearch.create_index fault index_name es = (Returns tt, es') ->
  Elasticsearch.indices es' !! index_name = Some Elasticsearch.fresh_index /\
  (forall other, other <> index_name ->
     Elasticsearch.indices es' !! other = Elasticsearch.indices es !! other) /\
  Elasticsearch.admin_calls es'
  = Elasticsearch.admin_calls es
    ++ [Elasticsearch.IndicesExists index_name]
    ++ (if Elasticsearch.indices es !! index_name is Some _
        then [Elasticsearch.IndicesDelete index_name] else [])
    ++ [Elasticsearch.IndicesCreate index_name] /\
  (forall doc date_default indexed_at,
     dom (ElasticsearchIndexer.es_doc doc date_default indexed_at)
     = dom (Elasticsearch.ix_properties Elasticsearch.fresh_index)).
Proof.
  unfold Elasticsearch.create_index. cbv zeta.
  destruct (fault (length (Elasticsearch.admin_calls es))); [discriminate|].
  cbn [Elasticsearch.indices Elasticsearch.record_call Elasticsearch.admin_calls].
  destruct (Elasticsearch.indices es !! index_name) as [old|] eqn:Hold.
  - match goal with |- context [fault ?n] => destruct (fault n) end; [discriminate|].
    cbn [Elasticsearch.indices Elasticsearch.record_call Elasticsearch.admin_calls].
    match goal with |- context [fault ?n] => destruct (fault n) end; [discriminate|].
    intros [= <-]. cbn [Elasticsearch.indices Elasticsearch.admin_calls].
    split; [apply lookup_insert_eq|]. split.
    + intros other Hne.
      rewrite lookup_insert_ne, lookup_delete_ne by congruence. reflexivity.
    + split; [rewrite <- !app_assoc; reflexivity | apply es_doc_fields].
  - match goal with |- context [fault ?n] => destruct (fault n) end; [discriminate|].
    intros [= <-]. cbn [Elasticsearch.indices Elasticsearch.admin_calls].
    split; [apply lookup_insert_eq|]. split.
    + intros other Hne. rewrite lookup_insert_ne by congruence. reflexivity.
    + split; [rewrite <- !app_assoc; reflexivity | apply es_doc_fields].
Qed.

Lemma create_index_rebuilds_witness :
  let es := {| Elasticsearch.indices :=
                 {[ "harcelement_posts" :=
                      {| Elasticsearch.ix_properties := ∅; Elasticsearch.ix_shards := 5;
                         Elasticsearch.ix_replicas := 1;
                         Elasticsearch.ix_docs := [ {[ "titre" := VStr "old" ]} ] |} ]};
               Elasticsearch.admin_calls := [] |} in
  exists es',
    Elasticsearch.create_index (fun _ => None) "harcelement_posts" es = (Returns tt, es') /\
    Elasticsearch.indices es' !! "harcelement_posts" = Some Elasticsearch.fresh_index.
Proof.
  intros es. eexists. split; [reflexivity|].
  refine (proj1 (create_index_rebuilds (fun _ => None) "harcelement_posts" es _ _)).
  reflexivity.
Defined.

(** ** Nothing is fatal to the pipeline *)

Lemma try_except_returns {A : Type} (body : M A) (handler : exn -> M A) (w : world) :
  (forall e w0, exists a w', handler e w0 = (Returns a, w')) ->
  exists a w', try_except body handler w = (Returns a, w').
Proof.
  intros Hh. unfold try_except. destruct (body w) as [[a|e] w1]; [eauto|apply Hh].
Qed.

Lemma save_to_mongodb_never_raises (E : env) (docs : list document) (w : world) :
  exists ins w', TextPreprocessor.save_to_mongodb E docs w = (Returns ins, w').
Proof.
  destruct docs as [|d r] eqn:Hdocs; [eexists _, _; reflexivity|].
  rewrite <- Hdocs.
  rewrite (save_to_mongodb_nonempty E docs w) by (rewrite Hdocs; discriminate).
  destruct (save_loop_growth E docs (0, 0) w) as (ins & upd & w' & -> & _).
  eexists _, _. reflexivity.
Qed.

Lemma preprocess_data_run (E : env) (setup : option exn)
    (reads : Orchestration.read_fault) (w : world) :
  Orchestration.preprocess_data E setup reads w
  = match setup with
    | Some e => (Returns 0, with_log (ErrStage "data preprocessing" e) w)
    | None =>
        if decide (NoDup (url_key <$> preprocessed_posts w))
        then match reads with
             | None => (Returns (length (posts w)), snd (TextPreprocessor.run E w))
             | Some (_, e) =>
                 (Returns 0, with_log (ErrStage "data preprocessing" e) w)
             end
        else (Returns 0,
              with_log (ErrStage "data preprocessing"
                          (PyMongoError "E11000 duplicate key error")) w)
    end.
Proof.
  unfold Orchestration.preprocess_data, try_except, Orchestration.construct.
  destruct setup as [e|]; [reflexivity|].
  unfold mbind at 1. unfold M_bind, Orchestration.create_unique_index.
  change (coll_of Preprocessed w) with (preprocessed_posts w).
  destruct (decide (NoDup (url_key <$> preprocessed_posts w))); [|reflexivity].
  destruct reads as [[k e]|]; [reflexivity|].
  unfold Orchestration.reading_raw.
  unfold mbind at 1. unfold M_bind, TextPreprocessor.process_documents.
  unfold mbind at 1. unfold M_bind.
  change (TextPreprocessor.run E w)
    with (TextPreprocessor.save_to_mongodb E
            (map (TextPreprocessor.process_document E) (posts w)) w).
  destruct (save_to_mongodb_never_raises E
              (map (TextPreprocessor.process_document E) (posts w)) w)
    as (ins & w' & ->).
  cbn. rewrite length_map. reflexivity.
Qed.

Lemma process_nlp_returns (E : env) (setup : option exn)
    (reads : Orchestration.read_fault) (w : world) :
  exists n w', Orchestration.process_nlp E setup reads w = (Returns n, w').
Proof.
  apply try_except_returns. intros e w0. eexists _, _. reflexivity.
Qed.

Lemma construct_cases (setup : option exn) (index_on : option coll_name) (w : world) :
  (exists e, Orchestration.construct setup index_on w = (Raises e, w))
  \/ Orchestration.construct setup index_on w = (Returns tt, w).
Proof.
  unfold Orchestration.construct. destruct setup as [e|]; [left; eexists; reflexivity|].
  destruct index_on as [c|]; [|right; reflexivity].
  unfold Orchestration.create_unique_index.
  destruct (decide _); [right|left; eexists]; reflexivity.
Qed.

(** A read that fails leaves the stage through its exception. *)
Lemma reading_preprocessed_raises (E : env) (k : nat) (e : exn) (w : world) :
  exists e' w', Orchestration.reading_preprocessed E (Some (k, e)) w = (Raises e', w').
Proof.
  unfold Orchestration.reading_preprocessed, find.
  unfold mbind at 1. unfold M_bind. unfold mbind at 1. unfold M_bind.
  destruct (for_each _ _ 0 w) as [[n|e'] w']; eexists _, _; reflexivity.
Qed.

Lemma reading_enriched_raises (E : env) (k : nat) (e : exn) (w : world) :
  exists e' w', Orchestration.reading_enriched E (Some (k, e)) w = (Raises e', w').
Proof.
  unfold Orchestration.reading_enriched, find.
  unfold mbind at 1. unfold M_bind. unfold mbind at 1. unfold M_bind.
  destruct (for_each _ _ [] w) as [[n|e'] w']; eexists _, _; reflexivity.
Qed.

Lemma migrate_run (E : env) (setup : option exn) (reads : Orchestration.read_fault)
    (es_fault : nat -> option exn) (es : Elasticsearch.cluster) (w : world) :
  exists b es' w',
    Orchestration.migrate_to_elasticsearch E setup reads es_fault es w
    = (Returns (b, es'), w') /\
    (b = true <->
     setup = None /\
     fst (Elasticsearch.create_index es_fault "harcelement_posts" es) = Returns tt /\
     reads = None).
Proof.
  unfold Orchestration.migrate_to_elasticsearch, Orchestration.construct.
  unfold try_except at 1.
  destruct setup as [e|].
  - eexists _, _, _. split; [reflexivity|]. split; [discriminate|]. intros [H _].
    discriminate.
  - unfold mbind at 1. unfold M_bind. cbn [mret M_ret].
    destruct (Elasticsearch.create_index es_fault "harcelement_posts" es)
      as [[[]|e] es'].
    + unfold try_except. unfold mbind at 1. unfold M_bind.
      destruct reads as [[k e]|].
      * destruct (reading_enriched_raises E k e w) as (e' & w' & ->).
        eexists _, _, _. split; [reflexivity|]. split; [discriminate|].
        intros (_ & _ & H). discriminate.
      * unfold Orchestration.reading_enriched.
        destruct (index_documents_calls E "harcelement_posts" w) as (w' & bs & -> & _).
        eexists _, _, _. split; [reflexivity|].
        split; [repeat split; reflexivity | reflexivity].
    + eexists _, _, _. split; [reflexivity|]. split; [discriminate|].
      intros (_ & H & _). discriminate.
Qed.

(** X13.  No fault stops the pipeline.  Each of [preprocess_data], [process_nlp]
    and [migrate_to_elasticsearch] returns, whatever the set-up, the reads
    and the writes of the store, the models, the bulk loader or the cluster
    do, and so does [main].  [preprocess_data] answers 0 and stores nothing
    when its set-up fails, the unique index cannot be built or the raw
    collection cannot be read; otherwise it answers the number of raw
    documents, even when writes were refused.  [process_nlp] answers 0 when
    the preprocessed collection cannot be read to its end.
    [migrate_to_elasticsearch] answers True exactly when its set-up and
    [create_index] succeed and the enriched collection is read to its
    end. *)
Theorem stage_wrappers_never_raise (E : env) (setup1 setup2 setup3 : option exn)
    (reads1 reads2 reads3 : Orchestration.read_fault)
    (es_fault : nat -> option exn) (es : Elasticsearch.cluster) (w : world) :
  (exists n w',
     Orchestration.preprocess_data E setup1 reads1 w = (Returns n, w') /\
     (setup1 = None -> NoDup (url_key <$> preprocessed_posts w) -> reads1 = None ->
      n = length (posts w)) /\
     (setup1 <> None \/ ~ NoDup (url_key <$> preprocessed_posts w) \/ reads1 <> None ->
      n = 0 /\ preprocessed_posts w' = preprocessed_posts w)) /\
  (exists n w',
     Orchestration.process_nlp E setup2 reads2 w = (Returns n, w') /\
     (reads2 <> None -> n = 0)) /\
  (exists b es' w',
     Orchestration.migrate_to_elasticsearch E setup3 reads3 es_fault es w
     = (Returns (b, es'), w') /\
     (b = true <->
      setup3 = None /\
      fst (Elasticsearch.create_index es_fault "harcelement_posts" es) = Returns tt /\
      reads3 = None)) /\
  (exists r w',
     Orchestration.main E setup1 setup2 setup3 reads1 reads2 reads3 es_fault es w
     = (Returns r, w')).
Proof.
  split; [|split; [|split]].
  - rewrite preprocess_data_run. destruct setup1 as [e|].
    + eexists _, _. split; [reflexivity|]. split; [discriminate|].
      intros _. split; reflexivity.
    + destruct (decide (NoDup (url_key <$> preprocessed_posts w))) as [Hnd|Hnd].
      * destruct reads1 as [[k e]|].
        -- eexists _, _. split; [reflexivity|]. split; [discriminate|].
           intros _. split; reflexivity.
        -- eexists _, _. split; [reflexivity|]. split; [reflexivity|].
           intros [H|[H|H]]; contradiction.
      * eexists _, _. split; [reflexivity|]. split; [intros _ H; contradiction|].
        intros _. split; reflexivity.
  - unfold Orchestration.process_nlp, try_except.
    unfold mbind at 1. unfold M_bind.
    destruct (construct_cases setup2 (Some Enriched) w) as [[e ->]| ->].
    + eexists _, _. split; reflexivity.
    + unfold mbind at 1. unfold M_bind.
      destruct reads2 as [[k e]|].
      * destruct (reading_preprocessed_raises E k e w) as (e' & w' & ->).
        eexists _, _. split; reflexivity.
      * destruct (Orchestration.reading_preprocessed E None w) as [[n|e] w'];
          eexists _, _; (split; [reflexivity|]); intros H; contradiction.
  - apply migrate_run.
  - unfold Orchestration.main. unfold mbind at 1. unfold M_bind.
    assert (H1 : exists n w',
               Orchestration.preprocess_data E setup1 reads1 w = (Returns n, w')).
    { rewrite preprocess_data_run. destruct setup1; [eauto|].
      destruct (decide _); [destruct reads1 as [[? ?]|]|]; eauto. }
    destruct H1 as (n1 & w1 & ->).
    unfold mbind at 1. unfold M_bind.
    destruct (process_nlp_returns E setup2 reads2 w1) as (n2 & w2 & ->).
    destruct (migrate_run E setup3 reads3 es_fault es w2) as (b & es' & w3 & -> & _).
    eauto.
Qed.

Lemma stage_wrappers_never_raise_witness :
  (exists w',
     Orchestration.preprocess_data second_write_fails_env None None
       (initial_world three_posts)
     = (Returns 3, w')) /\
  (exists es' w',
     Orchestration.migrate_to_elasticsearch quiet_env None
       (Some (0, PyMongoError "ServerSelectionTimeoutError")) (fun _ => None)
       {| Elasticsearch.indices := ∅; Elasticsearch.admin_calls := [] |}
       (enriched_world three_posts)
     = (Returns (false, es'), w')).
Proof.
  split.
  - destruct (proj1 (stage_wrappers_never_raise second_write_fails_env None None None
                       None None None (fun _ => None)
                       {| Elasticsearch.indices := ∅; Elasticsearch.admin_calls := [] |}
                       (initial_world three_posts)))
      as (n & w' & Hrun & Hn & _).
    rewrite (Hn eq_refl) in Hrun; [|constructor|reflexivity].
    exists w'. exact Hrun.
  - destruct (proj1 (proj2 (proj2
               (stage_wrappers_never_raise quiet_env None None None None None
                  (Some (0, PyMongoError "ServerSelectionTimeoutError")) (fun _ => None)
                  {| Elasticsearch.indices := ∅; Elasticsearch.admin_calls := [] |}
                  (enriched_world three_posts)))))
      as (b & es' & w' & Hrun & Hb).
    destruct b.
    + destruct (proj1 Hb eq_refl) as (_ & _ & H). discriminate H.
    + exists es', w'. exact Hrun.
Defined.

(** * The collectors *)

Lemma fold_left_map_items {A B C : Type} (f : A -> B -> A) (g : C -> B) (l : list C) (a : A) :
  fold_left f (map g l) a = fold_left (fun a c => f a (g c)) l a.
Proof. revert a. induction l as [|c l IH]; intros a; simpl; [reflexivity|apply IH]. Qed.

Lemma fold_left_ext_items {A B : Type} (f g : A -> B -> A) (l : list B) (a : A) :
  (forall a b, f a b = g a b) -> fold_left f l a = fold_left g l a.
Proof.
  intros H. revert a. induction l as [|b l IH]; intros a; simpl; [reflexivity|].
  rewrite H. apply IH.
Qed.

Lemma covered_collides (st : Collector.raw_store) (d : document) :
  Collector.collides st d = true <-> Collector.covered st d.
Proof.
  unfold Collector.collides, Collector.covered. rewrite existsb_exists. split.
  - intros (ix & Hix & H). apply existsb_exists in H as (d' & Hd' & Hk).
    apply bool_decide_eq_true in Hk. exists ix, d'.
    rewrite !list_elem_of_In. auto.
  - intros (ix & d' & Hix & Hd' & Hk). exists ix.
    split; [apply list_elem_of_In; exact Hix|].
    apply existsb_exists. exists d'.
    split; [apply list_elem_of_In; exact Hd'|].
    apply bool_decide_eq_true. exact Hk.
Qed.

Lemma covered_ext (st st' : Collector.raw_store) (d : document) :
  Collector.rs_indexes st' = Collector.rs_indexes st ->
  (exists new, Collector.rs_docs st' = Collector.rs_docs st ++ new) ->
  Collector.covered st d -> Collector.covered st' d.
Proof.
  intros Hix (new & Hdocs) (ix & d' & H1 & H2 & H3).
  exists ix, d'. rewrite Hix, Hdocs. repeat split; try assumption.
  apply elem_of_app. left. exact H2.
Qed.

Lemma collect_item_step (E : env) (fault : nat -> option exn) (shown : string)
    (build : value -> document) (posts : list document) (st : Collector.raw_store)
    (log : list Collector.collector_log) :
  exists st' log' new,
    Collector.collect_item E fault shown build (posts, st, log) = (posts ++ new, st', log')
    /\ Collector.rs_docs st' = Collector.rs_docs st ++ new
    /\ Collector.rs_indexes st' = Collector.rs_indexes st
    /\ Collector.rs_inserts st' = S (Collector.rs_inserts st)
    /\ Collector.rs_clock_reads st' = S (Collector.rs_clock_reads st)
    /\ Collector.rs_next_oid st' = S (Collector.rs_next_oid st)
    /\ (exists more, log' = log ++ more)
    /\ let d := <["_id" := VOid (Collector.rs_next_oid st)]>
                  (build (VDate (now E (Collector.rs_clock_reads st)))) in
       ((new = [d] /\ fault (Collector.rs_inserts st) = None /\ ~ Collector.covered st d)
        \/ (new = [] /\ (fault (Collector.rs_inserts st) <> None \/ Collector.covered st d))).
Proof.
  destruct st as [docs ixs oid clk ins].
  unfold Collector.collect_item, Collector.try_insert, Collector.insert_one.
  cbn [fst snd Collector.rs_docs Collector.rs_indexes Collector.rs_next_oid
       Collector.rs_clock_reads Collector.rs_inserts].
  destruct (fault ins) as [e|] eqn:Hf.
  - eexists _, _, []. rewrite app_nil_r. split; [reflexivity|]. cbn.
    rewrite app_nil_r. repeat split; eauto.
    all: try (right; split; [reflexivity|]; left; discriminate).
  - match goal with |- context [Collector.collides ?s ?d] =>
      change (Collector.collides s d)
        with (Collector.collides
                {| Collector.rs_docs := docs; Collector.rs_indexes := ixs;
                   Collector.rs_next_oid := oid; Collector.rs_clock_reads := clk;
                   Collector.rs_inserts := ins |} d);
      destruct (Collector.collides
                {| Collector.rs_docs := docs; Collector.rs_indexes := ixs;
                   Collector.rs_next_oid := oid; Collector.rs_clock_reads := clk;
                   Collector.rs_inserts := ins |} d) eqn:Hc
    end.
    + apply covered_collides in Hc.
      eexists _, _, []. rewrite app_nil_r. split; [reflexivity|]. cbn.
      rewrite app_nil_r. repeat split; eauto.
    + eexists _, _, [_]. split; [reflexivity|]. cbn.
      repeat split; eauto.
      all: try (left; repeat split; intros Hcov; apply covered_collides in Hcov;
                congruence).
Qed.

Lemma indexes_hold_insert (st st' : Collector.raw_store) (d : document) :
  Collector.rs_docs st' = Collector.rs_docs st ++ [d] ->
  Collector.rs_indexes st' = Collector.rs_indexes st ->
  ~ Collector.covered st d ->
  Collector.indexes_hold st -> Collector.indexes_hold st'.
Proof.
  unfold Collector.indexes_hold. intros Hdocs Hix Hnc H.
  rewrite Hix, Hdocs. rewrite Forall_forall in H |- *.
  intros ix Hin. rewrite map_app. apply NoDup_app.
  split; [apply H; exact Hin|]. split; [|apply NoDup_singleton].
  intros k Hk Hk'. apply list_elem_of_singleton in Hk'. subst k.
  apply list_elem_of_In, in_map_iff in Hk as (d' & Heq & Hd').
  apply Hnc. exists ix, d'. split; [exact Hin|]. split; [|exact Heq].
  apply list_elem_of_In. exact Hd'.
Qed.

Lemma indexes_hold_ext (st st' : Collector.raw_store) :
  Collector.rs_docs st' = Collector.rs_docs st ->
  Collector.rs_indexes st' = Collector.rs_indexes st ->
  Collector.indexes_hold st -> Collector.indexes_hold st'.
Proof. unfold Collector.indexes_hold. intros -> ->. exact id. Qed.

Lemma collect_all_grows (E : env) (fault : nat -> option exn)
    (items : list (option (string * (value -> document))))
    (posts : list document) (st : Collector.raw_store)
    (log : list Collector.collector_log) :
  exists st' log' new,
    Collector.collect_all E fault items (posts, st, log) = (posts ++ new, st', log')
    /\ Collector.rs_docs st' = Collector.rs_docs st ++ new
    /\ Collector.rs_indexes st' = Collector.rs_indexes st
    /\ Collector.rs_inserts st' = Collector.rs_inserts st + length (omap id items)
    /\ Collector.rs_clock_reads st'
       = Collector.rs_clock_reads st + length (omap id items)
    /\ (exists more, log' = log ++ more)
    /\ (Collector.indexes_hold st -> Collector.indexes_hold st')
    /\ Forall (fun d => exists shown build t oid,
                          Some (shown, build) ∈ items
                          /\ d = <["_id" := VOid oid]> (build t)) new.
Proof.
  revert posts st log. induction items as [|item items IH]; intros posts st log.
  - exists st, log, []. cbn. rewrite !app_nil_r, !Nat.add_0_r.
    repeat split; try reflexivity; try (exact id); try constructor.
    exists []. rewrite app_nil_r. reflexivity.
  - unfold Collector.collect_all. cbn [fold_left].
    destruct item as [[shown build]|].
    + destruct (collect_item_step E fault shown build posts st log)
        as (st1 & log1 & new1 & -> & Hd1 & Hi1 & Hn1 & Hc1 & _ & (more1 & ->) & Hcase).
      destruct (IH (posts ++ new1) st1 (log ++ more1))
        as (st2 & log2 & new2 & Hrun & Hd2 & Hi2 & Hn2 & Hc2 & (more2 & ->) & Hh2 & Hall).
      unfold Collector.collect_all in Hrun. rewrite Hrun.
      exists st2, (log ++ more1 ++ more2), (new1 ++ new2).
      rewrite !app_assoc. split; [reflexivity|].
      rewrite Hd2, Hd1, Hi2, Hi1, Hn2, Hn1, Hc2, Hc1.
      change (omap id (Some (shown, build) :: items))
        with ((shown, build) :: omap id items).
      cbn [length].
      rewrite <- !app_assoc.
      repeat split; try reflexivity; try lia.
      * eexists. reflexivity.
      * intros H. apply Hh2. cbn zeta in Hcase.
        destruct Hcase as [(-> & _ & Hnc)|(-> & _)].
        -- exact (indexes_hold_insert st st1 _ Hd1 Hi1 Hnc H).
        -- rewrite app_nil_r in Hd1. exact (indexes_hold_ext st st1 Hd1 Hi1 H).
      * apply Forall_app. split.
        -- cbn zeta in Hcase. destruct Hcase as [(-> & _)|(-> & _)]; constructor;
             [|constructor].
           eexists _, _, _, _. split; [apply list_elem_of_here|reflexivity].
        -- eapply Forall_impl; [exact Hall|].
           intros d (sh & b & t & o & Hin & ->).
           eexists _, _, _, _. split; [apply list_elem_of_further; exact Hin|reflexivity].
    + destruct (IH posts st log)
        as (st2 & log2 & new2 & Hrun & Hd2 & Hi2 & Hn2 & Hc2 & Hm & Hh2 & Hall).
      unfold Collector.collect_all in Hrun. rewrite Hrun.
      exists st2, log2, new2.
      change (omap id (None :: items)) with (omap id items).
      repeat split; try assumption.
      eapply Forall_impl; [exact Hall|].
      intros d (sh & b & t & o & Hin & ->).
      eexists _, _, _, _. split; [apply list_elem_of_further; exact Hin|reflexivity].
Qed.

Lemma index_key_agree (ix : list string) (d d' : document) :
  (forall f, f ∈ ix -> d !! f = d' !! f) ->
  Collector.index_key ix d = Collector.index_key ix d'.
Proof.
  unfold Collector.index_key. induction ix as [|f ix IH]; intros H; [reflexivity|].
  cbn [map]. f_equal.
  - unfold get, get_default. rewrite (H f); [reflexivity|apply list_elem_of_here].
  - apply IH. intros g Hg. apply H, list_elem_of_further, Hg.
Qed.

Lemma covered_transfer (st : Collector.raw_store) (d d' : document) :
  Forall (fun ix => forall f, f ∈ ix -> d !! f = d' !! f) (Collector.rs_indexes st) ->
  Collector.covered st d -> Collector.covered st d'.
Proof.
  intros H (ix & d0 & Hix & Hd0 & Hk). exists ix, d0.
  split; [exact Hix|]. split; [exact Hd0|]. rewrite Hk.
  apply index_key_agree. rewrite Forall_forall in H. apply H, Hix.
Qed.

Lemma known_ext (st st' : Collector.raw_store) (build : value -> document) :
  Collector.rs_indexes st' = Collector.rs_indexes st ->
  (exists new, Collector.rs_docs st' = Collector.rs_docs st ++ new) ->
  Collector.known st build -> Collector.known st' build.
Proof. intros Hix Hd H t oid. eapply covered_ext; eauto. Qed.

Lemma keyed_by_content_ext (st st' : Collector.raw_store) :
  Collector.rs_indexes st' = Collector.rs_indexes st ->
  Collector.keyed_by_content st -> Collector.keyed_by_content st'.
Proof. unfold Collector.keyed_by_content. intros ->. exact id. Qed.

Lemma stamped_agree (st : Collector.raw_store) (build : value -> document)
    (t t' : value) (oid oid' : nat) :
  Collector.keyed_by_content st -> Collector.stamped build ->
  Forall (fun ix => forall f, f ∈ ix ->
            <["_id" := VOid oid]> (build t) !! f = <["_id" := VOid oid']> (build t') !! f)
    (Collector.rs_indexes st).
Proof.
  intros [_ Hk] Hs. eapply Forall_impl; [exact Hk|].
  intros ix [Hid Hst] f Hf.
  rewrite !lookup_insert_ne by (intros <-; contradiction).
  apply Hs. intros ->. contradiction.
Qed.

Lemma collect_item_learns (E : env) (fault : nat -> option exn) (shown : string)
    (build : value -> document) (posts : list document) (st : Collector.raw_store)
    (log : list Collector.collector_log) :
  Collector.keyed_by_content st -> Collector.stamped build ->
  fault (Collector.rs_inserts st) = None ->
  Collector.known (snd (fst (Collector.collect_item E fault shown build (posts, st, log))))
    build.
Proof.
  intros Hk Hs Hf.
  destruct (collect_item_step E fault shown build posts st log)
    as (st1 & log1 & new1 & -> & Hd1 & Hi1 & _ & _ & _ & _ & Hcase).
  cbn [fst snd]. cbn zeta in Hcase. intros t oid.
  destruct Hcase as [(-> & _ & _)|(-> & [Hne|Hcov])].
  - destruct Hk as [Hne Hall]. destruct (Collector.rs_indexes st) as [|ix ixs] eqn:Hix;
      [contradiction|].
    exists ix, (<["_id" := VOid (Collector.rs_next_oid st)]>
                  (build (VDate (now E (Collector.rs_clock_reads st))))).
    rewrite Hi1, Hd1. split; [apply list_elem_of_here|].
    split; [apply elem_of_app; right; apply list_elem_of_here|].
    apply index_key_agree. apply Forall_inv in Hall. destruct Hall as [Hid Hst].
    intros f Hf'. rewrite !lookup_insert_ne by (intros <-; contradiction).
    apply Hs. intros ->. contradiction.
  - congruence.
  - apply (covered_ext st st1); [exact Hi1|eauto|].
    eapply covered_transfer; [|exact Hcov].
    apply stamped_agree; assumption.
Qed.

Lemma collect_item_known (E : env) (fault : nat -> option exn) (shown : string)
    (build : value -> document) (posts : list document) (st : Collector.raw_store)
    (log : list Collector.collector_log) :
  Collector.known st build ->
  exists st' log',
    Collector.collect_item E fault shown build (posts, st, log) = (posts, st', log')
    /\ Collector.rs_docs st' = Collector.rs_docs st
    /\ Collector.rs_indexes st' = Collector.rs_indexes st.
Proof.
  intros Hk.
  destruct (collect_item_step E fault shown build posts st log)
    as (st1 & log1 & new1 & Hrun & Hd1 & Hi1 & _ & _ & _ & _ & Hcase).
  cbn zeta in Hcase. destruct Hcase as [(_ & _ & Hnc)|(-> & _)].
  - exfalso. apply Hnc, Hk.
  - rewrite app_nil_r in Hrun, Hd1. eauto.
Qed.

Lemma collect_all_learns (E : env) (fault : nat -> option exn)
    (items : list (option (string * (value -> document))))
    (posts : list document) (st : Collector.raw_store)
    (log : list Collector.collector_log) :
  Collector.keyed_by_content st ->
  (forall n, fault n = None) ->
  (forall shown build, Some (shown, build) ∈ items -> Collector.stamped build) ->
  forall shown build, Some (shown, build) ∈ items ->
    Collector.known (snd (fst (Collector.collect_all E fault items (posts, st, log))))
      build.
Proof.
  intros Hk Hf. revert posts st log Hk.
  induction items as [|item items IH]; intros posts st log Hk Hs shown build Hin.
  - apply elem_of_nil in Hin. contradiction.
  - unfold Collector.collect_all. cbn [fold_left].
    destruct item as [[shown0 build0]|].
    + pose proof (collect_item_learns E fault shown0 build0 posts st log Hk
                    (Hs shown0 build0 (list_elem_of_here _ _)) (Hf _)) as Hlearn.
      destruct (collect_item_step E fault shown0 build0 posts st log)
        as (st1 & log1 & new1 & Hrun & Hd1 & Hi1 & _).
      rewrite Hrun in Hlearn |- *. cbn [fst snd] in Hlearn.
      apply elem_of_cons in Hin as [Heq|Hin].
      * injection Heq as -> ->.
        destruct (collect_all_grows E fault items (posts ++ new1) st1 log1)
          as (st2 & log2 & new2 & Hrun2 & Hd2 & Hi2 & _).
        unfold Collector.collect_all in Hrun2. rewrite Hrun2. cbn [fst snd].
        eapply known_ext; [exact Hi2|eauto|exact Hlearn].
      * refine (IH (posts ++ new1) st1 log1 _ _ shown build Hin).
        -- eapply keyed_by_content_ext; eauto.
        -- intros sh b Hb. apply (Hs sh b). apply list_elem_of_further, Hb.
    + apply elem_of_cons in Hin as [Heq|Hin]; [discriminate|].
      refine (IH posts st log Hk _ shown build Hin).
      intros sh b Hb. apply (Hs sh b). apply list_elem_of_further, Hb.
Qed.

Lemma collect_all_known (E : env) (fault : nat -> option exn)
    (items : list (option (string * (value -> document))))
    (posts : list document) (st : Collector.raw_store)
    (log : list Collector.collector_log) :
  (forall shown build, Some (shown, build) ∈ items -> Collector.known st build) ->
  exists st' log',
    Collector.collect_all E fault items (posts, st, log) = (posts, st', log')
    /\ Collector.rs_docs st' = Collector.rs_docs st
    /\ Collector.rs_indexes st' = Collector.rs_indexes st.
Proof.
  revert st log. induction items as [|item items IH]; intros st log Hk.
  - exists st, log. repeat split.
  - unfold Collector.collect_all. cbn [fold_left].
    destruct item as [[shown build]|].
    + destruct (collect_item_known E fault shown build posts st log
                  (Hk shown build (list_elem_of_here _ _)))
        as (st1 & log1 & -> & Hd1 & Hi1).
      destruct (IH st1 log1) as (st2 & log2 & Hrun & Hd2 & Hi2).
      { intros sh b Hb. eapply known_ext; [exact Hi1| |].
        - exists []. rewrite app_nil_r. exact Hd1.
        - apply (Hk sh b), list_elem_of_further, Hb. }
      unfold Collector.collect_all in Hrun. rewrite Hrun.
      exists st2, log2. rewrite Hd2, Hi2. auto.
    + destruct (IH st log) as (st2 & log2 & Hrun & Hd2 & Hi2).
      { intros sh b Hb. apply (Hk sh b), list_elem_of_further, Hb. }
      unfold Collector.collect_all in Hrun. rewrite Hrun. eauto.
Qed.

Lemma reddit_loop (E : env) (fault : nat -> option exn) (name : string)
    (submissions : list Reddit.submission)
    (acc : list document * Collector.raw_store * list Collector.collector_log) :
  fold_left
    (fun acc s =>
       Collector.collect_item E fault (prefix 50 (Reddit.s_title s))
         (Reddit.post name s) acc)
    submissions acc
  = Collector.collect_all E fault (reddit_items name submissions) acc.
Proof.
  unfold Collector.collect_all, reddit_items. rewrite fold_left_map_items. reflexivity.
Qed.

Lemma telegram_loop (E : env) (fault : nat -> option exn) (group : string)
    (messages : list Telegram.message)
    (acc : list document * Collector.raw_store * list Collector.collector_log) :
  fold_left
    (fun acc m =>
       if Telegram.has_text m
       then Collector.collect_item E fault (prefix 50 (default "" (Telegram.m_message m)))
              (Telegram.post group m) acc
       else acc)
    messages acc
  = Collector.collect_all E fault (telegram_items group messages) acc.
Proof.
  unfold Collector.collect_all, telegram_items. rewrite fold_left_map_items.
  apply fold_left_ext_items. intros a m. destruct (Telegram.has_text m); reflexivity.
Qed.

Lemma reddit_items_elem (name : string) (submissions : list Reddit.submission)
    (shown : string) (build : value -> document) :
  Some (shown, build) ∈ reddit_items name submissions ->
  exists s, s ∈ submissions /\ build = Reddit.post name s.
Proof.
  unfold reddit_items. intros H.
  apply list_elem_of_In, in_map_iff in H as (s & Heq & Hs).
  injection Heq as _ <-. exists s. split; [apply list_elem_of_In, Hs|reflexivity].
Qed.

Lemma reddit_items_count (name : string) (submissions : list Reddit.submission) :
  length (omap id (reddit_items name submissions)) = length submissions.
Proof.
  induction submissions as [|s l IH]; [reflexivity|].
  cbn. f_equal. exact IH.
Qed.

Lemma telegram_items_elem (group : string) (messages : list Telegram.message)
    (shown : string) (build : value -> document) :
  Some (shown, build) ∈ telegram_items group messages ->
  exists m, m ∈ messages /\ Telegram.has_text m = true /\ build = Telegram.post group m.
Proof.
  unfold telegram_items. intros H.
  apply list_elem_of_In, in_map_iff in H as (m & Heq & Hm).
  destruct (Telegram.has_text m) eqn:Ht; [|discriminate].
  injection Heq as _ <-. exists m.
  split; [apply list_elem_of_In, Hm|]. split; [exact Ht|reflexivity].
Qed.

Lemma telegram_items_count (group : string) (messages : list Telegram.message) :
  length (omap id (telegram_items group messages))
  = length (List.filter Telegram.has_text messages).
Proof.
  induction messages as [|m l IH]; [reflexivity|].
  cbn. destruct (Telegram.has_text m); cbn; [f_equal|]; exact IH.
Qed.

Lemma reddit_post_stamped (name : string) (s : Reddit.submission) :
  Collector.stamped (Reddit.post name s).
Proof.
  intros t t' f Hf. unfold Reddit.post.
  rewrite !lookup_insert, !lookup_singleton.
  repeat (case_decide; [reflexivity|]). case_decide; [congruence|reflexivity].
Qed.

Lemma telegram_post_stamped (group : string) (m : Telegram.message) :
  Collector.stamped (Telegram.post group m).
Proof.
  intros t t' f Hf. unfold Telegram.post.
  rewrite !lookup_insert, !lookup_singleton.
  repeat (case_decide; [reflexivity|]). case_decide; [congruence|reflexivity].
Qed.

(** X14 (scrapers/reddit_scraper.py, [scrape_subreddit]).  A scrape only adds
    documents to the collection, each the post of a submission of the
    listing with its ObjectId, and keeps every unique index valid.  When
    the look-up of the subreddit fails or [sort_by] is not one of hot, new,
    top and rising, nothing is stored and the result is empty.  Otherwise
    one [insert_one] is made per submission; the result is the list of the
    documents added when the listing ends normally, and the empty list when
    the listing ends with an exception, although the documents stored
    before it stay in the collection. *)
Theorem scrape_subreddit_outcome (P : Reddit.api) (E : env) (fault : nat -> option exn)
    (name : string) (limit : nat) (sort_by : string) (st : Collector.raw_store) :
  let r := Reddit.scrape_subreddit P E fault name limit sort_by st in
  let submissions := Reddit.listing P name sort_by limit in
  exists new,
    Collector.rs_docs (snd (fst r)) = Collector.rs_docs st ++ new
    /\ Collector.rs_indexes (snd (fst r)) = Collector.rs_indexes st
    /\ (Collector.indexes_hold st -> Collector.indexes_hold (snd (fst r)))
    /\ Forall (fun d => exists s t oid,
                 s ∈ fst submissions
                 /\ d = <["_id" := VOid oid]> (Reddit.post name s t)) new
    /\ (Reddit.subreddit P name <> None \/ Reddit.valid_sort sort_by = false ->
        fst (fst r) = [] /\ snd (fst r) = st)
    /\ (Reddit.subreddit P name = None -> Reddit.valid_sort sort_by = true ->
        Collector.rs_inserts (snd (fst r))
        = Collector.rs_inserts st + length (fst submissions)
        /\ (snd submissions = None -> fst (fst r) = new)
        /\ (snd submissions <> None -> fst (fst r) = [])).
Proof.
  intros r submissions. subst r submissions. unfold Reddit.scrape_subreddit.
  destruct (Reddit.subreddit P name) as [e|] eqn:Hsub.
  { exists []. cbn [fst snd]. rewrite app_nil_r.
    repeat split; try reflexivity; try (exact id); try constructor; discriminate. }
  destruct (Reddit.valid_sort sort_by) eqn:Hsort.
  2:{ exists []. cbn [fst snd]. rewrite app_nil_r.
      repeat split; try reflexivity; try (exact id); try constructor; discriminate. }
  rewrite reddit_loop.
  destruct (collect_all_grows E fault
              (reddit_items name (fst (Reddit.listing P name sort_by limit)))
              [] st [Collector.InfoScraping limit name])
    as (st' & log' & new & Hrun & Hd & Hi & Hn & _ & _ & Hh & Hall).
  rewrite Hrun. cbn [app] in *. rewrite reddit_items_count in Hn.
  exists new.
  assert (Hnew : Forall (fun d => exists s t oid,
                   s ∈ fst (Reddit.listing P name sort_by limit)
                   /\ d = <["_id" := VOid oid]> (Reddit.post name s t)) new).
  { eapply Forall_impl; [exact Hall|].
    intros d (sh & b & t & oid & Hin & ->).
    apply reddit_items_elem in Hin as (s & Hs & ->). eauto. }
  destruct (snd (Reddit.listing P name sort_by limit)) as [e|]; cbn [fst snd].
  - repeat (split; [assumption|]). split.
    + intros [Hx|Hx]; [congruence|discriminate].
    + intros _ _. split; [exact Hn|]. split; [discriminate|reflexivity].
  - repeat (split; [assumption|]). split.
    + intros [Hx|Hx]; [congruence|discriminate].
    + intros _ _. split; [exact Hn|]. split; [reflexivity|congruence].
Qed.

Lemma scrape_subreddit_outcome_witness :
  fst (fst (Reddit.scrape_subreddit reddit_breaks quiet_env no_fault "rust" 50 "hot"
              (empty_store [["url"]]))) = []
  /\ Collector.indexes_hold
       (snd (fst (Reddit.scrape_subreddit reddit_breaks quiet_env no_fault "rust" 50 "hot"
                    (empty_store [["url"]])))).
Proof.
  destruct (scrape_subreddit_outcome reddit_breaks quiet_env no_fault "rust" 50 "hot"
              (empty_store [["url"]]))
    as (new & _ & _ & Hh & _ & _ & Hret).
  destruct (Hret eq_refl eq_refl) as (_ & _ & Hempty).
  split.
  - apply Hempty. discriminate.
  - apply Hh. repeat constructor.
Defined.

Lemma reddit_items_intro (name : string) (submissions : list Reddit.submission)
    (s : Reddit.submission) :
  s ∈ submissions ->
  Some (prefix 50 (Reddit.s_title s), Reddit.post name s) ∈ reddit_items name submissions.
Proof.
  intros H. apply list_elem_of_In. unfold reddit_items.
  apply in_map_iff. exists s. split; [reflexivity|apply list_elem_of_In, H].
Qed.

Lemma reddit_items_stamped (name : string) (submissions : list Reddit.submission)
    (shown : string) (build : value -> document) :
  Some (shown, build) ∈ reddit_items name submissions -> Collector.stamped build.
Proof.
  intros H. apply reddit_items_elem in H as (s & _ & ->). apply reddit_post_stamped.
Qed.

(** X15 (scrapers/reddit_scraper.py, [scrape_subreddit]).  Collecting again
    is idle: when the collection has a unique index and none on [_id] or
    [scraped_at], and no [insert_one] of a first scrape fails for another
    reason than a duplicate key, a later scrape of the same subreddit whose
    listing yields only submissions that the first listing yielded returns
    the empty list and leaves the documents of the collection as they are,
    whatever the clock, the limit, the order and the faults of the later
    scrape. *)
Theorem rescrape_subreddit_stores_nothing (P P' : Reddit.api) (E E' : env)
    (fault fault' : nat -> option exn) (name : string) (limit limit' : nat)
    (sort_by sort_by' : string) (st : Collector.raw_store) :
  Collector.keyed_by_content st ->
  (forall n, fault n = None) ->
  Reddit.subreddit P name = None ->
  Reddit.valid_sort sort_by = true ->
  (forall s, s ∈ fst (Reddit.listing P' name sort_by' limit') ->
             s ∈ fst (Reddit.listing P name sort_by limit)) ->
  let st1 := snd (fst (Reddit.scrape_subreddit P E fault name limit sort_by st)) in
  let r2 := Reddit.scrape_subreddit P' E' fault' name limit' sort_by' st1 in
  fst (fst r2) = [] /\ Collector.rs_docs (snd (fst r2)) = Collector.rs_docs st1.
Proof.
  intros Hk Hf Hsub Hsort Hincl st1 r2.
  assert (Hknown : forall s, s ∈ fst (Reddit.listing P name sort_by limit) ->
                     Collector.known st1 (Reddit.post name s)).
  { intros s Hs. subst st1. unfold Reddit.scrape_subreddit.
    rewrite Hsub, Hsort, reddit_loop.
    pose proof (collect_all_learns E fault
                  (reddit_items name (fst (Reddit.listing P name sort_by limit)))
                  [] st ([Collector.InfoScraping limit name]) Hk Hf
                  (reddit_items_stamped name _) _ _ (reddit_items_intro name _ s Hs))
      as Hl.
    destruct (snd (Reddit.listing P name sort_by limit)); exact Hl. }
  clearbody st1. subst r2. unfold Reddit.scrape_subreddit.
  destruct (Reddit.subreddit P' name); [split; reflexivity|].
  destruct (Reddit.valid_sort sort_by'); [|split; reflexivity].
  rewrite reddit_loop.
  destruct (collect_all_known E' fault'
              (reddit_items name (fst (Reddit.listing P' name sort_by' limit')))
              [] st1 ([Collector.InfoScraping limit' name]))
    as (st2 & log2 & Hrun & Hd & _).
  { intros sh b Hin. apply reddit_items_elem in Hin as (s & Hs & ->).
    apply Hknown, Hincl, Hs. }
  rewrite Hrun.
  destruct (snd (Reddit.listing P' name sort_by' limit')); cbn [fst snd];
    split; [reflexivity|exact Hd|reflexivity|exact Hd].
Qed.

Lemma rescrape_subreddit_stores_nothing_witness :
  fst (fst (Reddit.scrape_subreddit reddit_breaks sentiment_down_env no_fault "rust" 10 "new"
              (snd (fst (Reddit.scrape_subreddit reddit_up quiet_env no_fault "rust" 50
                           "hot" (empty_store [["url"]])))))) = [].
Proof.
  refine (proj1 (rescrape_subreddit_stores_nothing reddit_up reddit_breaks quiet_env
                   sentiment_down_env no_fault no_fault "rust" 50 10 "hot" "new"
                   (empty_store [["url"]]) _ _ _ _ _)).
  - split; [discriminate|]. repeat constructor.
    + intros H. apply list_elem_of_singleton in H. discriminate.
    + intros H. apply list_elem_of_singleton in H. discriminate.
  - reflexivity.
  - reflexivity.
  - reflexivity.
  - intros s Hs. apply list_elem_of_singleton in Hs. subst s. apply list_elem_of_here.
Defined.

Lemma telegram_items_intro (group : string) (messages : list Telegram.message)
    (m : Telegram.message) :
  m ∈ messages -> Telegram.has_text m = true ->
  Some (prefix 50 (default "" (Telegram.m_message m)), Telegram.post group m)
    ∈ telegram_items group messages.
Proof.
  intros H Ht. apply list_elem_of_In. unfold telegram_items.
  apply in_map_iff. exists m. rewrite Ht. split; [reflexivity|apply list_elem_of_In, H].
Qed.

Lemma telegram_items_stamped (group : string) (messages : list Telegram.message)
    (shown : string) (build : value -> document) :
  Some (shown, build) ∈ telegram_items group messages -> Collector.stamped build.
Proof.
  intros H. apply telegram_items_elem in H as (m & _ & _ & ->).
  apply telegram_post_stamped.
Qed.

Lemma has_text_spec (m : Telegram.message) :
  Telegram.has_text m = true <->
  exists text, Telegram.m_message m = Some text /\ text <> "".
Proof.
  unfold Telegram.has_text. destruct (Telegram.m_message m) as [s|].
  - rewrite negb_true_iff, String.eqb_neq. split.
    + intros H. exists s. auto.
    + intros (text & [= ->] & H). exact H.
  - split; [discriminate|]. intros (text & H & _). discriminate.
Qed.

Lemma scrape_connected_grows (P : Telegram.api) (E : env) (fault : nat -> option exn)
    (group : string) (limit : nat) (st : Collector.raw_store) :
  let r := Telegram.scrape_connected P E fault group limit st in
  exists new,
    Collector.rs_docs (snd (fst r)) = Collector.rs_docs st ++ new
    /\ Collector.rs_indexes (snd (fst r)) = Collector.rs_indexes st
    /\ (Collector.indexes_hold st -> Collector.indexes_hold (snd (fst r)))
    /\ match Telegram.history P group limit with
       | Raises _ => fst (fst r) = [] /\ snd (fst r) = st
       | Returns messages =>
           fst (fst r) = new
           /\ Collector.rs_inserts (snd (fst r))
              = Collector.rs_inserts st + length (List.filter Telegram.has_text messages)
           /\ Forall (fun d => exists m text t oid,
                        m ∈ messages /\ Telegram.m_message m = Some text /\ text <> ""
                        /\ d = <["_id" := VOid oid]> (Telegram.post group m t)) new
       end.
Proof.
  intros r. subst r. unfold Telegram.scrape_connected.
  destruct (Telegram.history P group limit) as [messages|e].
  - rewrite telegram_loop.
    destruct (collect_all_grows E fault (telegram_items group messages)
                [] st [Collector.InfoScraping limit group])
      as (st' & log' & new & Hrun & Hd & Hi & Hn & _ & _ & Hh & Hall).
    rewrite Hrun. cbn [app fst snd] in *. rewrite telegram_items_count in Hn.
    exists new. repeat (split; [assumption|]). split; [reflexivity|].
    split; [exact Hn|].
    eapply Forall_impl; [exact Hall|].
    intros d (sh & b & t & oid & Hin & ->).
    apply telegram_items_elem in Hin as (m & Hm & Ht & ->).
    apply has_text_spec in Ht as (text & Ht & Hne).
    exists m, text, t, oid. auto.
  - exists []. cbn [fst snd]. rewrite app_nil_r.
    repeat split; try reflexivity. exact id.
Qed.

(** X16 (main/scrapers/telegram_scraper.py, [connect], [scrape_group]).
    [scrape_group] raises only when the client is not set and connecting
    fails, and then the collection is untouched; [self.client] stays set
    after a failure of [start], so that a later call does not connect
    again.  Otherwise it returns: the empty list with the collection
    untouched when the history cannot be fetched; else exactly the
    documents it has added to the collection, one [insert_one] being made
    per message with a text, and each document stored being the post of a
    message whose text is not empty.  Every unique index stays valid. *)
Theorem scrape_group_outcome (P : Telegram.api) (E : env) (fault : nat -> option exn)
    (client : bool) (group : string) (limit : nat) (st : Collector.raw_store) :
  let r := Telegram.scrape_group P E fault client group limit st in
  let result := fst (fst (fst r)) in
  let client' := snd (fst (fst r)) in
  let st' := snd (fst r) in
  match (if client then Telegram.Connected else Telegram.connecting P) with
  | Telegram.ClientFailed e => result = Raises e /\ client' = false /\ st' = st
  | Telegram.StartFailed e => result = Raises e /\ client' = true /\ st' = st
  | Telegram.Connected =>
      client' = true
      /\ (Collector.indexes_hold st -> Collector.indexes_hold st')
      /\ Collector.rs_indexes st' = Collector.rs_indexes st
      /\ match Telegram.history P group limit with
         | Raises _ => result = Returns [] /\ st' = st
         | Returns messages =>
             exists new,
               result = Returns new
               /\ Collector.rs_docs st' = Collector.rs_docs st ++ new
               /\ Collector.rs_inserts st'
                  = Collector.rs_inserts st
                    + length (List.filter Telegram.has_text messages)
               /\ Forall (fun d => exists m text t oid,
                            m ∈ messages /\ Telegram.m_message m = Some text
                            /\ text <> ""
                            /\ d = <["_id" := VOid oid]> (Telegram.post group m t)) new
         end
  end.
Proof.
  intros r result client' st'. subst r result client' st'.
  unfold Telegram.scrape_group, Telegram.ensure_client, Telegram.connect.
  assert (Hconn : forall (c : bool) (log : list Collector.collector_log),
            let r := Telegram.scrape_connected P E fault group limit st in
            let out := (Returns (fst (fst r)), c, snd (fst r), log ++ snd r) in
            (Collector.indexes_hold st -> Collector.indexes_hold (snd (fst out)))
            /\ Collector.rs_indexes (snd (fst out)) = Collector.rs_indexes st
            /\ match Telegram.history P group limit with
               | Raises _ => fst (fst (fst out)) = Returns [] /\ snd (fst out) = st
               | Returns messages =>
                   exists new,
                     fst (fst (fst out)) = Returns new
                     /\ Collector.rs_docs (snd (fst out)) = Collector.rs_docs st ++ new
                     /\ Collector.rs_inserts (snd (fst out))
                        = Collector.rs_inserts st
                          + length (List.filter Telegram.has_text messages)
                     /\ Forall (fun d => exists m text t oid,
                                  m ∈ messages /\ Telegram.m_message m = Some text
                                  /\ text <> ""
                                  /\ d = <["_id" := VOid oid]> (Telegram.post group m t))
                          new
               end).
  { intros c log. cbn zeta. cbn [fst snd].
    destruct (scrape_connected_grows P E fault group limit st)
      as (new & Hd & Hi & Hh & Hcase). cbn zeta in Hcase.
    split; [exact Hh|]. split; [exact Hi|].
    destruct (Telegram.history P group limit) as [messages|e].
    - destruct Hcase as (Hr & Hn & Hall). exists new. rewrite Hr. auto.
    - destruct Hcase as (-> & ->). auto. }
  destruct client; cbn [fst snd].
  - split; [reflexivity|]. apply (Hconn true []).
  - destruct (Telegram.connecting P) as [|e|e]; cbn [fst snd].
    + split; [reflexivity|]. apply (Hconn true [Collector.InfoConnected]).
    + auto.
    + auto.
Qed.

Lemma scrape_group_outcome_witness :
  fst (fst (fst (Telegram.scrape_group telegram_down quiet_env no_fault false
                   "first_group" 50 (empty_store [["source"; "post_id"]]))))
  = Raises (OtherException "no network")
  /\ fst (fst (fst (Telegram.scrape_group telegram_down quiet_env no_fault true
                      "first_group" 50 (empty_store [["source"; "post_id"]]))))
     = Returns [].
Proof.
  split.
  - exact (proj1 (scrape_group_outcome telegram_down quiet_env no_fault false
                    "first_group" 50 (empty_store [["source"; "post_id"]]))).
  - exact (proj1 (proj2 (proj2 (proj2
             (scrape_group_outcome telegram_down quiet_env no_fault true
                "first_group" 50 (empty_store [["source"; "post_id"]])))))).
Defined.

Lemma telegram_post_same_id (group group' : string) (m m' : Telegram.message)
    (t t' : value) (oid oid' : nat) (f : string) :
  Telegram.m_id m = Telegram.m_id m' ->
  f ∈ ["title"; "source"; "post_id"] ->
  <["_id" := VOid oid]> (Telegram.post group m t) !! f
  = <["_id" := VOid oid']> (Telegram.post group' m' t') !! f.
Proof.
  intros Hid Hf. unfold Telegram.post. rewrite Hid.
  repeat (apply elem_of_cons in Hf as [->|Hf]);
    [| | |apply elem_of_nil in Hf; contradiction];
    repeat (rewrite lookup_insert_ne by discriminate);
    rewrite !lookup_insert_eq; reflexivity.
Qed.

Lemma scrape_group_store (P : Telegram.api) (E : env) (fault : nat -> option exn)
    (client : bool) (group : string) (limit : nat) (st : Collector.raw_store) :
  snd (fst (Telegram.scrape_group P E fault client group limit st)) = st
  \/ snd (fst (Telegram.scrape_group P E fault client group limit st))
     = snd (fst (Telegram.scrape_connected P E fault group limit st)).
Proof.
  unfold Telegram.scrape_group.
  destruct (snd (fst (Telegram.ensure_client P client))); [left|right]; reflexivity.
Qed.

Lemma telegram_first_scrape (P : Telegram.api) (E : env) (fault : nat -> option exn)
    (client : bool) (group : string) (limit : nat) (st : Collector.raw_store)
    (messages : list Telegram.message) (m : Telegram.message) :
  Collector.keyed_by_content st ->
  (forall n, fault n = None) ->
  client = true \/ Telegram.connecting P = Telegram.Connected ->
  Telegram.history P group limit = Returns messages ->
  m ∈ messages -> Telegram.has_text m = true ->
  Collector.known (snd (fst (Telegram.scrape_group P E fault client group limit st)))
    (Telegram.post group m)
  /\ Collector.rs_indexes (snd (fst (Telegram.scrape_group P E fault client group limit st)))
     = Collector.rs_indexes st.
Proof.
  intros Hk Hf Hc Hh Hm Ht.
  assert (Hs : snd (fst (Telegram.scrape_group P E fault client group limit st))
               = snd (fst (Telegram.scrape_connected P E fault group limit st))).
  { unfold Telegram.scrape_group, Telegram.ensure_client, Telegram.connect.
    destruct Hc as [->| ->]; [reflexivity|]. destruct client; reflexivity. }
  rewrite Hs. split.
  - unfold Telegram.scrape_connected. rewrite Hh, telegram_loop. cbn [fst snd].
    exact (collect_all_learns E fault (telegram_items group messages)
             [] st ([Collector.InfoScraping limit group]) Hk Hf
             (telegram_items_stamped group _) _ _
             (telegram_items_intro group _ m Hm Ht)).
  - destruct (scrape_connected_grows P E fault group limit st) as (new & _ & Hi & _).
    exact Hi.
Qed.

Lemma telegram_second_scrape (P : Telegram.api) (E : env) (fault : nat -> option exn)
    (client : bool) (group : string) (limit : nat) (st : Collector.raw_store) :
  (forall messages m, Telegram.history P group limit = Returns messages ->
     m ∈ messages -> Telegram.has_text m = true ->
     Collector.known st (Telegram.post group m)) ->
  Collector.rs_docs (snd (fst (Telegram.scrape_group P E fault client group limit st)))
  = Collector.rs_docs st
  /\ forall posts,
       fst (fst (fst (Telegram.scrape_group P E fault client group limit st)))
       = Returns posts -> posts = [].
Proof.
  intros Hknown. unfold Telegram.scrape_group.
  destruct (snd (fst (Telegram.ensure_client P client))); cbn [fst snd].
  { split; [reflexivity|discriminate]. }
  unfold Telegram.scrape_connected.
  destruct (Telegram.history P group limit) as [messages|e] eqn:Hh; cbn [fst snd].
  2:{ split; [reflexivity|]. intros posts [= <-]. reflexivity. }
  rewrite telegram_loop.
  destruct (collect_all_known E fault (telegram_items group messages)
              [] st ([Collector.InfoScraping limit group]))
    as (st2 & log2 & Hrun & Hd & _).
  { intros sh b Hin. apply telegram_items_elem in Hin as (m & Hm & Ht & ->).
    exact (Hknown messages m eq_refl Hm Ht). }
  rewrite Hrun. cbn [fst snd]. split; [exact Hd|]. intros posts [= <-]. reflexivity.
Qed.

(** X17 (main/scrapers/telegram_scraper.py, [scrape_group]).  Let the
    collection have a unique index and none on [_id] or [scraped_at], and
    let a first scrape of a group go through without a failure of
    [insert_one] other than a duplicate key.  Then a later scrape of the
    same group whose history only has messages with a text that the first
    history had stores nothing and returns no post.  When every unique
    index is on fields among [title], [source] and [post_id], as the index
    on (source, post_id) that the collector creates, the same holds for a
    later scrape of any group, as soon as each of its messages with a text
    has the id of a message with a text of the first history: the key does
    not tell the groups apart. *)
Theorem telegram_duplicates_dropped (P P' : Telegram.api) (E E' : env)
    (fault fault' : nat -> option exn) (client client' : bool) (group group' : string)
    (limit limit' : nat) (st : Collector.raw_store) (messages : list Telegram.message) :
  Collector.keyed_by_content st ->
  (forall n, fault n = None) ->
  client = true \/ Telegram.connecting P = Telegram.Connected ->
  Telegram.history P group limit = Returns messages ->
  let st1 := snd (fst (Telegram.scrape_group P E fault client group limit st)) in
  let same_group := Telegram.scrape_group P' E' fault' client' group limit' st1 in
  let other_group := Telegram.scrape_group P' E' fault' client' group' limit' st1 in
  ((forall messages' m', Telegram.history P' group limit' = Returns messages' ->
      m' ∈ messages' -> Telegram.has_text m' = true -> m' ∈ messages) ->
   Collector.rs_docs (snd (fst same_group)) = Collector.rs_docs st1
   /\ forall posts, fst (fst (fst same_group)) = Returns posts -> posts = [])
  /\ (keyed_by_message_id st ->
      (forall messages' m', Telegram.history P' group' limit' = Returns messages' ->
         m' ∈ messages' -> Telegram.has_text m' = true ->
         exists m, m ∈ messages /\ Telegram.has_text m = true
                   /\ Telegram.m_id m = Telegram.m_id m') ->
      Collector.rs_docs (snd (fst other_group)) = Collector.rs_docs st1
      /\ forall posts, fst (fst (fst other_group)) = Returns posts -> posts = []).
Proof.
  intros Hk Hf Hc Hh st1 same_group other_group.
  subst same_group other_group. split.
  - intros Hincl. apply telegram_second_scrape.
    intros messages' m' Hh' Hm' Ht'.
    exact (proj1 (telegram_first_scrape P E fault client group limit st messages m'
                    Hk Hf Hc Hh (Hincl messages' m' Hh' Hm' Ht') Ht')).
  - intros [_ Hkm] Hids. apply telegram_second_scrape.
    intros messages' m' Hh' Hm' Ht'.
    destruct (Hids messages' m' Hh' Hm' Ht') as (m & Hm & Ht & Hid).
    destruct (telegram_first_scrape P E fault client group limit st messages m
                Hk Hf Hc Hh Hm Ht) as [Hknown Hix].
    fold st1 in Hknown, Hix. intros t oid.
    apply (covered_transfer st1 (<["_id" := VOid oid]> (Telegram.post group m t))).
    + rewrite Hix. eapply Forall_impl; [exact Hkm|].
      intros ix Hsub f Hfin. apply telegram_post_same_id; [exact Hid|].
      apply Hsub, Hfin.
    + apply Hknown.
Qed.

Lemma telegram_duplicates_dropped_witness :
  Collector.rs_docs
    (snd (fst (Telegram.scrape_group telegram_up quiet_env no_fault true "second_group" 50
                 (snd (fst (Telegram.scrape_group telegram_up quiet_env no_fault false
                              "first_group" 50
                              (empty_store [["source"; "post_id"]])))))))
  = Collector.rs_docs
      (snd (fst (Telegram.scrape_group telegram_up quiet_env no_fault false
                   "first_group" 50 (empty_store [["source"; "post_id"]])))).
Proof.
  refine (proj1 (proj2 (telegram_duplicates_dropped telegram_up telegram_up quiet_env
                          quiet_env no_fault no_fault false true
                          "first_group" "second_group" 50 50
                          (empty_store [["source"; "post_id"]])
                          [message_1; message_joined] _ _ _ _) _ _)).
  - split; [discriminate|]. repeat constructor.
    + intros H. repeat (apply elem_of_cons in H as [H|H]; [discriminate|]).
      apply elem_of_nil in H. exact H.
    + intros H. repeat (apply elem_of_cons in H as [H|H]; [discriminate|]).
      apply elem_of_nil in H. exact H.
  - reflexivity.
  - right. reflexivity.
  - reflexivity.
  - split; [discriminate|]. constructor; [|constructor].
    intros f Hf. repeat (apply elem_of_cons in Hf as [->|Hf]).
    + apply list_elem_of_further, list_elem_of_here.
    + apply list_elem_of_further, list_elem_of_further, list_elem_of_here.
    + apply elem_of_nil in Hf. contradiction.
  - intros messages' m' [= <-] Hm' _.
    apply list_elem_of_singleton in Hm'. subst m'.
    exists message_1. split; [apply list_elem_of_here|]. split; reflexivity.
Defined.

Lemma scrape_subreddit_grows (P : Reddit.api) (E : env) (fault : nat -> option exn)
    (name : string) (limit : nat) (sort_by : string) (st : Collector.raw_store) :
  let r := Reddit.scrape_subreddit P E fault name limit sort_by st in
  exists new,
    Collector.rs_docs (snd (fst r)) = Collector.rs_docs st ++ new
    /\ Collector.rs_indexes (snd (fst r)) = Collector.rs_indexes st
    /\ (Collector.indexes_hold st -> Collector.indexes_hold (snd (fst r)))
    /\ (fst (fst r) = new \/ fst (fst r) = []).
Proof.
  intros r. subst r. unfold Reddit.scrape_subreddit.
  destruct (Reddit.subreddit P name) as [e|].
  { exists []. cbn [fst snd]. rewrite app_nil_r. repeat split; auto. }
  destruct (Reddit.valid_sort sort_by).
  2:{ exists []. cbn [fst snd]. rewrite app_nil_r. repeat split; auto. }
  rewrite reddit_loop.
  destruct (collect_all_grows E fault
              (reddit_items name (fst (Reddit.listing P name sort_by limit)))
              [] st [Collector.InfoScraping limit name])
    as (st' & log' & new & Hrun & Hd & Hi & _ & _ & _ & Hh & _).
  rewrite Hrun. exists new.
  destruct (snd (Reddit.listing P name sort_by limit)); cbn [fst snd app]; auto.
Qed.

Lemma posts_stay_stored (results : gmap string (list document))
    (docs new : list document) :
  map_Forall (fun _ posts => forall d : document, d ∈ posts -> d ∈ docs) results ->
  map_Forall (fun _ posts => forall d : document, d ∈ posts -> d ∈ docs ++ new) results.
Proof.
  intros H k posts Hk d Hd. apply elem_of_app. left. exact (H k posts Hk d Hd).
Qed.

Lemma scrape_subreddits_loop (P : Reddit.api) (E : env) (fault : nat -> option exn)
    (names : list string) (limit : nat) (sort_by : string)
    (results : gmap string (list document)) (st : Collector.raw_store)
    (log : list Collector.collector_log) :
  map_Forall (fun _ posts => forall d : document, d ∈ posts -> d ∈ Collector.rs_docs st)
    results ->
  let r :=
    fold_left
      (fun acc subreddit_name =>
         let r := Reddit.scrape_subreddit P E fault subreddit_name limit sort_by
                    (snd (fst acc)) in
         (<[subreddit_name := fst (fst r)]> (fst (fst acc)), snd (fst r),
          snd acc ++ [Collector.InfoScrapingOne subreddit_name] ++ snd r))
      names (results, st, log) in
  dom (fst (fst r)) = dom results ∪ list_to_set names
  /\ (exists new, Collector.rs_docs (snd (fst r)) = Collector.rs_docs st ++ new)
  /\ Collector.rs_indexes (snd (fst r)) = Collector.rs_indexes st
  /\ (Collector.indexes_hold st -> Collector.indexes_hold (snd (fst r)))
  /\ map_Forall (fun _ posts => forall d : document, d ∈ posts ->
                                  d ∈ Collector.rs_docs (snd (fst r)))
       (fst (fst r)).
Proof.
  revert results st log. induction names as [|name names IH]; intros results st log Hres.
  - cbn. repeat split; auto.
    + rewrite (right_id_L ∅ (∪)). reflexivity.
    + exists []. rewrite app_nil_r. reflexivity.
  - cbn [fold_left fst snd].
    destruct (scrape_subreddit_grows P E fault name limit sort_by st)
      as (new & Hd & Hi & Hh & Hposts). cbn zeta in *.
    set (r1 := Reddit.scrape_subreddit P E fault name limit sort_by st) in *.
    destruct (IH (<[name := fst (fst r1)]> results) (snd (fst r1))
                (log ++ [Collector.InfoScrapingOne name] ++ snd r1))
      as (Hdom & (new2 & Hd2) & Hi2 & Hh2 & Hall).
    { apply map_Forall_insert_2.
      - rewrite Hd. intros d Hin. apply elem_of_app. right.
        destruct Hposts as [Hp|Hp]; rewrite Hp in Hin; [exact Hin|].
        apply elem_of_nil in Hin. contradiction.
      - rewrite Hd. apply posts_stay_stored, Hres. }
    split; [|split; [|split; [|split]]].
    + rewrite Hdom, dom_insert_L, list_to_set_cons.
      rewrite (comm_L (∪) {[name]} (dom results)), <- (assoc_L (∪)). reflexivity.
    + exists (new ++ new2). rewrite Hd2, Hd, app_assoc. reflexivity.
    + rewrite Hi2, Hi. reflexivity.
    + intros H. apply Hh2, Hh, H.
    + exact Hall.
Qed.

(** X18 (scrapers/reddit_scraper.py, [scrape_multiple_subreddits]).  The
    dictionary returned has an entry for exactly the names asked for, also
    for those whose scrape failed; every post in it is a document of the
    collection; the collection has only grown, its indexes are the same and
    still valid. *)
Theorem scrape_multiple_subreddits_covers_names (P : Reddit.api) (E : env)
    (fault : nat -> option exn) (names : list string) (limit : nat) (sort_by : string)
    (st : Collector.raw_store) :
  let r := Reddit.scrape_multiple_subreddits P E fault names limit sort_by st in
  dom (fst (fst r)) = list_to_set names
  /\ (exists new, Collector.rs_docs (snd (fst r)) = Collector.rs_docs st ++ new)
  /\ Collector.rs_indexes (snd (fst r)) = Collector.rs_indexes st
  /\ (Collector.indexes_hold st -> Collector.indexes_hold (snd (fst r)))
  /\ map_Forall (fun _ posts => forall d : document, d ∈ posts ->
                                  d ∈ Collector.rs_docs (snd (fst r)))
       (fst (fst r)).
Proof.
  intros r. subst r. unfold Reddit.scrape_multiple_subreddits.
  destruct (scrape_subreddits_loop P E fault names limit sort_by ∅ st [])
    as (Hdom & Hrest).
  { apply map_Forall_empty. }
  cbn zeta in *. split; [|exact Hrest].
  rewrite Hdom, dom_empty_L, (left_id_L ∅ (∪)). reflexivity.
Qed.

Lemma scrape_groups_cons (P : Telegram.api) (E : env) (fault : nat -> option exn)
    (group : string) (groups : list string) (limit : nat)
    (results : gmap string (list document)) (st : Collector.raw_store)
    (log : list Collector.collector_log) :
  Telegram.scrape_groups P E fault (group :: groups) limit (Returns results, true, st, log)
  = let r := Telegram.scrape_connected P E fault group limit st in
    Telegram.scrape_groups P E fault groups limit
      (Returns (<[group := fst (fst r)]> results), true, snd (fst r),
       log ++ [Collector.InfoScrapingOne group] ++ [] ++ snd r).
Proof. reflexivity. Qed.

Lemma scrape_groups_loop (P : Telegram.api) (E : env) (fault : nat -> option exn)
    (groups : list string) (limit : nat)
    (results : gmap string (list document)) (st : Collector.raw_store)
    (log : list Collector.collector_log) :
  map_Forall (fun _ posts => forall d : document, d ∈ posts -> d ∈ Collector.rs_docs st)
    results ->
  let r := Telegram.scrape_groups P E fault groups limit (Returns results, true, st, log) in
  exists results',
    fst (fst (fst r)) = Returns results'
    /\ snd (fst (fst r)) = true
    /\ dom results' = dom results ∪ list_to_set groups
    /\ (exists new, Collector.rs_docs (snd (fst r)) = Collector.rs_docs st ++ new)
    /\ Collector.rs_indexes (snd (fst r)) = Collector.rs_indexes st
    /\ (Collector.indexes_hold st -> Collector.indexes_hold (snd (fst r)))
    /\ map_Forall (fun _ posts => forall d : document, d ∈ posts ->
                                    d ∈ Collector.rs_docs (snd (fst r)))
         results'.
Proof.
  revert results st log. induction groups as [|group groups IH]; intros results st log Hres.
  - exists results. cbn. repeat split; auto.
    + rewrite (right_id_L ∅ (∪)). reflexivity.
    + exists []. rewrite app_nil_r. reflexivity.
  - cbn zeta. rewrite scrape_groups_cons. cbn zeta.
    destruct (scrape_connected_grows P E fault group limit st)
      as (new & Hd & Hi & Hh & Hcase). cbn zeta in *.
    set (r1 := Telegram.scrape_connected P E fault group limit st) in *.
    assert (Hposts : fst (fst r1) = new \/ fst (fst r1) = []).
    { destruct (Telegram.history P group limit); [left|right]; apply Hcase. }
    destruct (IH (<[group := fst (fst r1)]> results) (snd (fst r1))
                (log ++ [Collector.InfoScrapingOne group] ++ [] ++ snd r1))
      as (results' & Hret & Hcl & Hdom & (new2 & Hd2) & Hi2 & Hh2 & Hall).
    { apply map_Forall_insert_2.
      - rewrite Hd. intros d Hin. apply elem_of_app. right.
        destruct Hposts as [Hp|Hp]; rewrite Hp in Hin; [exact Hin|].
        apply elem_of_nil in Hin. contradiction.
      - rewrite Hd. apply posts_stay_stored, Hres. }
    exists results'. split; [exact Hret|]. split; [exact Hcl|].
    split; [|split; [|split; [|split]]].
    + rewrite Hdom, dom_insert_L, list_to_set_cons.
      rewrite (comm_L (∪) {[group]} (dom results)), <- (assoc_L (∪)). reflexivity.
    + exists (new ++ new2). rewrite Hd2, Hd, app_assoc. reflexivity.
    + rewrite Hi2, Hi. reflexivity.
    + intros H. apply Hh2, Hh, H.
    + exact Hall.
Qed.

(** X19 (main/scrapers/telegram_scraper.py, [scrape_multiple_groups]).
    [scrape_multiple_groups] raises only when the client is not set and
    connecting fails, before anything is scraped: the collection is
    untouched.  Otherwise it returns a dictionary with an entry for exactly
    the groups asked for, also for those whose history could not be
    fetched; no call of [scrape_group] in the loop connects again or
    raises; every post in the dictionary is a document of the collection,
    which has only grown, with the same indexes, still valid. *)
Theorem scrape_multiple_groups_covers_names (P : Telegram.api) (E : env)
    (fault : nat -> option exn) (client : bool) (groups : list string) (limit : nat)
    (st : Collector.raw_store) :
  let r := Telegram.scrape_multiple_groups P E fault client groups limit st in
  let result := fst (fst (fst r)) in
  let client' := snd (fst (fst r)) in
  let st' := snd (fst r) in
  match (if client then Telegram.Connected else Telegram.connecting P) with
  | Telegram.ClientFailed e => result = Raises e /\ client' = false /\ st' = st
  | Telegram.StartFailed e => result = Raises e /\ client' = true /\ st' = st
  | Telegram.Connected =>
      exists results,
        result = Returns results
        /\ client' = true
        /\ dom results = list_to_set groups
        /\ (exists new, Collector.rs_docs st' = Collector.rs_docs st ++ new)
        /\ Collector.rs_indexes st' = Collector.rs_indexes st
        /\ (Collector.indexes_hold st -> Collector.indexes_hold st')
        /\ map_Forall (fun _ posts => forall d : document, d ∈ posts ->
                                        d ∈ Collector.rs_docs st') results
  end.
Proof.
  intros r result client' st'. subst r result client' st'.
  unfold Telegram.scrape_multiple_groups, Telegram.ensure_client, Telegram.connect.
  assert (Hloop : forall log,
    exists results,
      fst (fst (fst (Telegram.scrape_groups P E fault groups limit
                       (Returns ∅, true, st, log)))) = Returns results
      /\ snd (fst (fst (Telegram.scrape_groups P E fault groups limit
                          (Returns ∅, true, st, log)))) = true
      /\ dom results = list_to_set groups
      /\ (exists new,
            Collector.rs_docs (snd (fst (Telegram.scrape_groups P E fault groups limit
                                           (Returns ∅, true, st, log))))
            = Collector.rs_docs st ++ new)
      /\ Collector.rs_indexes (snd (fst (Telegram.scrape_groups P E fault groups limit
                                           (Returns ∅, true, st, log))))
         = Collector.rs_indexes st
      /\ (Collector.indexes_hold st ->
          Collector.indexes_hold (snd (fst (Telegram.scrape_groups P E fault groups limit
                                              (Returns ∅, true, st, log)))))
      /\ map_Forall (fun _ posts => forall d : document, d ∈ posts ->
           d ∈ Collector.rs_docs (snd (fst (Telegram.scrape_groups P E fault groups limit
                                              (Returns ∅, true, st, log)))))
           results).
  { intros log.
    destruct (scrape_groups_loop P E fault groups limit ∅ st log)
      as (results & Hret & Hcl & Hdom & Hrest).
    { apply map_Forall_empty. }
    cbn zeta in *. exists results. split; [exact Hret|]. split; [exact Hcl|].
    split; [|exact Hrest]. rewrite Hdom, dom_empty_L, (left_id_L ∅ (∪)). reflexivity. }
  destruct client; cbn [fst snd].
  - apply Hloop.
  - destruct (Telegram.connecting P) as [|e|e]; cbn [fst snd]; auto.
Qed.

Lemma create_index_holds (ix : list string) (st st0 : Collector.raw_store) :
  Collector.indexes_hold st ->
  Collector.create_index ix st = Some st0 ->
  Collector.indexes_hold st0 /\ ix ∈ Collector.rs_indexes st0
  /\ Collector.rs_docs st0 = Collector.rs_docs st.
Proof.
  unfold Collector.create_index, Collector.indexes_hold. intros Hh Hc.
  destruct (decide (NoDup (map (Collector.index_key ix) (Collector.rs_docs st))))
    as [Hnd|]; [|discriminate].
  injection Hc as <-. cbn [Collector.rs_docs Collector.rs_indexes].
  destruct (decide (ix ∈ Collector.rs_indexes st)) as [Hin|Hin].
  - auto.
  - split; [|split; [|reflexivity]].
    + apply Forall_app. split; [exact Hh|]. constructor; [exact Hnd|constructor].
    + apply elem_of_app. right. apply list_elem_of_here.
Qed.

Lemma create_index_refused (ix : list string) (st : Collector.raw_store) :
  Collector.create_index ix st = None
  <-> ~ NoDup (map (Collector.index_key ix) (Collector.rs_docs st)).
Proof.
  unfold Collector.create_index.
  destruct (decide (NoDup (map (Collector.index_key ix) (Collector.rs_docs st)))).
  - split; [discriminate|contradiction].
  - split; auto.
Qed.

Lemma index_holds_of (ix : list string) (st : Collector.raw_store) :
  Collector.indexes_hold st -> ix ∈ Collector.rs_indexes st ->
  NoDup (map (Collector.index_key ix) (Collector.rs_docs st)).
Proof.
  unfold Collector.indexes_hold. rewrite Forall_forall. intros H Hin. apply H, Hin.
Qed.

(** X20 (scrapers/reddit_scraper.py, [__init__] and [scrape_subreddit];
    main/scrapers/telegram_scraper.py, [__init__] and [scrape_group]).  On a
    collection whose unique indexes hold, the constructor of a collector
    fails to create its index exactly when two stored documents have the
    same key (the url for Reddit, source and post_id for Telegram).  Once
    it has succeeded, no scrape, whatever the platform yields and whatever
    fails, leaves two documents with the same key in the collection. *)
Theorem init_keeps_keys_unique (st : Collector.raw_store) :
  Collector.indexes_hold st ->
  (Reddit.init st = None
   <-> ~ NoDup (map (Collector.index_key ["url"]) (Collector.rs_docs st)))
  /\ (Telegram.init st = None
      <-> ~ NoDup (map (Collector.index_key ["source"; "post_id"]) (Collector.rs_docs st)))
  /\ (forall st0 P E fault name limit sort_by,
        Reddit.init st = Some st0 ->
        NoDup (map (Collector.index_key ["url"])
                 (Collector.rs_docs
                    (snd (fst (Reddit.scrape_subreddit P E fault name limit sort_by st0))))))
  /\ (forall st0 P E fault client group limit,
        Telegram.init st = Some st0 ->
        NoDup (map (Collector.index_key ["source"; "post_id"])
                 (Collector.rs_docs
                    (snd (fst (Telegram.scrape_group P E fault client group limit st0)))))).
Proof.
  intros Hh. split; [apply create_index_refused|]. split; [apply create_index_refused|].
  split.
  - intros st0 P E fault name limit sort_by Hinit.
    destruct (create_index_holds _ _ _ Hh Hinit) as (Hh0 & Hin & _).
    destruct (scrape_subreddit_grows P E fault name limit sort_by st0)
      as (new & _ & Hi & Hh' & _). cbn zeta in *.
    apply index_holds_of; [apply Hh', Hh0|]. rewrite Hi. exact Hin.
  - intros st0 P E fault client group limit Hinit.
    destruct (create_index_holds _ _ _ Hh Hinit) as (Hh0 & Hin & _).
    destruct (scrape_group_store P E fault client group limit st0) as [-> | ->].
    + apply index_holds_of; assumption.
    + destruct (scrape_connected_grows P E fault group limit st0)
        as (new & _ & Hi & Hh' & _). cbn zeta in *.
      apply index_holds_of; [apply Hh', Hh0|]. rewrite Hi. exact Hin.
Qed.

Lemma init_keeps_keys_unique_witness :
  NoDup (map (Collector.index_key ["url"])
           (Collector.rs_docs
              (snd (fst (Reddit.scrape_subreddit reddit_up quiet_env no_fault "rust" 50
                           "hot" (empty_store [["url"]])))))).
Proof.
  refine (proj1 (proj2 (proj2 (init_keeps_keys_unique (empty_store []) _)))
            (empty_store [["url"]]) reddit_up quiet_env no_fault "rust" 50 "hot" _).
  - constructor.
  - reflexivity.
Defined.
